(** * WacomStu540: a shallow embedding of the WebHID driver

    The development follows [WacomStu540.js]: JavaScript numbers are IEEE
    binary64 values ([spec_float] with 53 bits of precision), the private
    fields of the class are one record ([driver]) threaded through every
    method, a [DataView] is a list of bytes whose reads fail out of range,
    and the [async] methods are programs of a small resumption monad that
    are run by an explicit event loop. *)

From Stdlib Require Import ZArith List Bool String Lia.
From Stdlib Require Import Floats.SpecFloat.
From stdpp Require Import base option list.

Open Scope Z_scope.

(** ** JavaScript numbers *)

Module Num.

Definition number : Type := spec_float.

Definition prec : Z := 53.
Definition emax : Z := 1024.

(** An integer as a number; exact for every integer below [2^53]. *)
Definition of_Z (z : Z) : number := binary_normalize prec emax z 0 false.

Definition add : number -> number -> number := SFadd prec emax.
Definition sub : number -> number -> number := SFsub prec emax.
Definition mul : number -> number -> number := SFmul prec emax.
Definition div : number -> number -> number := SFdiv prec emax.

(** [a < b], [a > b] and [a <= b]; all false when an operand is NaN. *)
Definition lt (a b : number) : bool := SFltb a b.
Definition gt (a b : number) : bool := SFltb b a.
Definition le (a b : number) : bool := SFleb a b.

Definition Math_abs : number -> number := SFabs.

(** [Math.round]: the integer [n] with [n - 1/2 <= x < n + 1/2]; NaN and
    the infinities are returned as they are, and a result of zero keeps
    the sign of [x]. *)
Definition Math_round (x : number) : number :=
  match x with
  | S754_finite s m e =>
      if 0 <=? e then x
      else
        let d := Z.pow 2 (- e) in
        let sm := if s then Z.neg m else Z.pos m in
        let n := (2 * sm + d) / (2 * d) in
        if n =? 0 then S754_zero s else of_Z n
  | _ => x
  end.

(** The literals of the source. *)
Definition lit_0_02 : number := Eval vm_compute in div (of_Z 2) (of_Z 100).
Definition lit_0_5 : number := Eval vm_compute in div (of_Z 1) (of_Z 2).
Definition lit_1 : number := Eval vm_compute in of_Z 1.
Definition lit_1_5 : number := Eval vm_compute in div (of_Z 3) (of_Z 2).
Definition lit_2 : number := Eval vm_compute in of_Z 2.
Definition lit_3 : number := Eval vm_compute in of_Z 3.
Definition lit_4_5 : number := Eval vm_compute in div (of_Z 9) (of_Z 2).

End Num.

Export Num.

(** ** DataView and byte arrays *)

(** A byte is an integer in [0, 255]. *)
Definition is_byte (b : Z) : Prop := 0 <= b < 256.

(** [dv.getUint8(off)]; [None] is the RangeError of an out-of-range read. *)
Definition getUint8 (dv : list Z) (off : nat) : option Z := dv !! off.

(** [dv.getUint16(off, littleEndian)]; big-endian unless the flag is set. *)
Definition getUint16 (dv : list Z) (off : nat) (littleEndian : bool) : option Z :=
  b0 ← dv !! off;
  b1 ← dv !! S off;
  Some (if littleEndian then b1 * 256 + b0 else b0 * 256 + b1).

(** [new Uint8Array(a)] of an array whose holes are [undefined]: a hole
    becomes 0 and a number is taken modulo 256. *)
Definition toUint8 (v : option Z) : Z :=
  match v with
  | Some n => n mod 256
  | None => 0
  end.

Definition Uint8Array (a : list (option Z)) : list Z := map toUint8 a.

(** ** The private state of the class *)

(** [this.#command]: the report ids. *)
Module command.
Definition penData : Z := 0x01.
Definition information : Z := 0x08.
Definition capability : Z := 0x09.
Definition writingMode : Z := 0x0E.
Definition eSerial : Z := 0x0F.
Definition clearScreen : Z := 0x20.
Definition inkMode : Z := 0x21.
Definition writeImageStart : Z := 0x25.
Definition writeImageData : Z := 0x26.
Definition writeImageEnd : Z := 0x27.
Definition writingArea : Z := 0x2A.
Definition brightness : Z := 0x2B.
Definition backgroundColor : Z := 0x2E.
Definition penColorAndWidth : Z := 0x2D.
Definition penDataTiming : Z := 0x34.
End command.

(** The constants of [this.#config], which are never assigned. *)
Definition chunkSize : nat := 253.
Definition vid : Z := 0x56A.
Definition pid : Z := 0xA8.
Definition imageFormat24BGR : Z := 0x04.

(** The other fields of [this.#config]; [None] is the [null] a field holds
    until it is read from the device or set. *)
Record config : Type := mkConfig {
  width : option Z;
  height : option Z;
  scaleFactorX : option number;
  scaleFactorY : option number;
  tabletMaxPressure : option Z;
  maxReportRate : option Z;
  tabletMaxX : option Z;
  tabletMaxY : option Z;
  penColor : option (list (option Z));
  penWidth : option Z;
  backgroundColor : option (list (option Z));
  brightness : option Z;
  inkMode : option bool;
  writingMode : option Z;
  writingArea : option (number * number * number * number);
  deviceName : option string;
  firmware : option (Z * Z * Z * Z);
  eSerial : option string
}.

(** The configuration the constructor installs. *)
Definition initial_config : config :=
  {| width := None; height := None; scaleFactorX := None; scaleFactorY := None;
     tabletMaxPressure := None; maxReportRate := None;
     tabletMaxX := None; tabletMaxY := None;
     penColor := None; penWidth := None; backgroundColor := None;
     brightness := None; inkMode := None; writingMode := None;
     writingArea := None; deviceName := None; firmware := None;
     eSerial := None |}.

(** Assignments to single fields of [this.#config]. *)
Definition with_width (v : option Z) (c : config) : config :=
  {| width := v; height := height c; scaleFactorX := scaleFactorX c;
     scaleFactorY := scaleFactorY c; tabletMaxPressure := tabletMaxPressure
     c; maxReportRate := maxReportRate c; tabletMaxX := tabletMaxX c;
     tabletMaxY := tabletMaxY c; penColor := penColor c; penWidth := penWidth
     c; backgroundColor := backgroundColor c; brightness := brightness c;
     inkMode := inkMode c; writingMode := writingMode c; writingArea :=
     writingArea c; deviceName := deviceName c; firmware := firmware c;
     eSerial := eSerial c |}.
Definition with_height (v : option Z) (c : config) : config :=
  {| width := width c; height := v; scaleFactorX := scaleFactorX c;
     scaleFactorY := scaleFactorY c; tabletMaxPressure := tabletMaxPressure
     c; maxReportRate := maxReportRate c; tabletMaxX := tabletMaxX c;
     tabletMaxY := tabletMaxY c; penColor := penColor c; penWidth := penWidth
     c; backgroundColor := backgroundColor c; brightness := brightness c;
     inkMode := inkMode c; writingMode := writingMode c; writingArea :=
     writingArea c; deviceName := deviceName c; firmware := firmware c;
     eSerial := eSerial c |}.
Definition with_scaleFactorX (v : option number) (c : config) : config :=
  {| width := width c; height := height c; scaleFactorX := v; scaleFactorY :=
     scaleFactorY c; tabletMaxPressure := tabletMaxPressure c; maxReportRate
     := maxReportRate c; tabletMaxX := tabletMaxX c; tabletMaxY := tabletMaxY
     c; penColor := penColor c; penWidth := penWidth c; backgroundColor :=
     backgroundColor c; brightness := brightness c; inkMode := inkMode c;
     writingMode := writingMode c; writingArea := writingArea c; deviceName
     := deviceName c; firmware := firmware c; eSerial := eSerial c |}.
Definition with_scaleFactorY (v : option number) (c : config) : config :=
  {| width := width c; height := height c; scaleFactorX := scaleFactorX c;
     scaleFactorY := v; tabletMaxPressure := tabletMaxPressure c;
     maxReportRate := maxReportRate c; tabletMaxX := tabletMaxX c; tabletMaxY
     := tabletMaxY c; penColor := penColor c; penWidth := penWidth c;
     backgroundColor := backgroundColor c; brightness := brightness c;
     inkMode := inkMode c; writingMode := writingMode c; writingArea :=
     writingArea c; deviceName := deviceName c; firmware := firmware c;
     eSerial := eSerial c |}.
Definition with_tabletMaxPressure (v : option Z) (c : config) : config :=
  {| width := width c; height := height c; scaleFactorX := scaleFactorX c;
     scaleFactorY := scaleFactorY c; tabletMaxPressure := v; maxReportRate :=
     maxReportRate c; tabletMaxX := tabletMaxX c; tabletMaxY := tabletMaxY c;
     penColor := penColor c; penWidth := penWidth c; backgroundColor :=
     backgroundColor c; brightness := brightness c; inkMode := inkMode c;
     writingMode := writingMode c; writingArea := writingArea c; deviceName
     := deviceName c; firmware := firmware c; eSerial := eSerial c |}.
Definition with_maxReportRate (v : option Z) (c : config) : config :=
  {| width := width c; height := height c; scaleFactorX := scaleFactorX c;
     scaleFactorY := scaleFactorY c; tabletMaxPressure := tabletMaxPressure
     c; maxReportRate := v; tabletMaxX := tabletMaxX c; tabletMaxY :=
     tabletMaxY c; penColor := penColor c; penWidth := penWidth c;
     backgroundColor := backgroundColor c; brightness := brightness c;
     inkMode := inkMode c; writingMode := writingMode c; writingArea :=
     writingArea c; deviceName := deviceName c; firmware := firmware c;
     eSerial := eSerial c |}.
Definition with_tabletMaxX (v : option Z) (c : config) : config :=
  {| width := width c; height := height c; scaleFactorX := scaleFactorX c;
     scaleFactorY := scaleFactorY c; tabletMaxPressure := tabletMaxPressure
     c; maxReportRate := maxReportRate c; tabletMaxX := v; tabletMaxY :=
     tabletMaxY c; penColor := penColor c; penWidth := penWidth c;
     backgroundColor := backgroundColor c; brightness := brightness c;
     inkMode := inkMode c; writingMode := writingMode c; writingArea :=
     writingArea c; deviceName := deviceName c; firmware := firmware c;
     eSerial := eSerial c |}.
Definition with_tabletMaxY (v : option Z) (c : config) : config :=
  {| width := width c; height := height c; scaleFactorX := scaleFactorX c;
     scaleFactorY := scaleFactorY c; tabletMaxPressure := tabletMaxPressure
     c; maxReportRate := maxReportRate c; tabletMaxX := tabletMaxX c;
     tabletMaxY := v; penColor := penColor c; penWidth := penWidth c;
     backgroundColor := backgroundColor c; brightness := brightness c;
     inkMode := inkMode c; writingMode := writingMode c; writingArea :=
     writingArea c; deviceName := deviceName c; firmware := firmware c;
     eSerial := eSerial c |}.
Definition with_penColor (v : option (list (option Z))) (c : config) : config :=
  {| width := width c; height := height c; scaleFactorX := scaleFactorX c;
     scaleFactorY := scaleFactorY c; tabletMaxPressure := tabletMaxPressure
     c; maxReportRate := maxReportRate c; tabletMaxX := tabletMaxX c;
     tabletMaxY := tabletMaxY c; penColor := v; penWidth := penWidth c;
     backgroundColor := backgroundColor c; brightness := brightness c;
     inkMode := inkMode c; writingMode := writingMode c; writingArea :=
     writingArea c; deviceName := deviceName c; firmware := firmware c;
     eSerial := eSerial c |}.
Definition with_penWidth (v : option Z) (c : config) : config :=
  {| width := width c; height := height c; scaleFactorX := scaleFactorX c;
     scaleFactorY := scaleFactorY c; tabletMaxPressure := tabletMaxPressure
     c; maxReportRate := maxReportRate c; tabletMaxX := tabletMaxX c;
     tabletMaxY := tabletMaxY c; penColor := penColor c; penWidth := v;
     backgroundColor := backgroundColor c; brightness := brightness c;
     inkMode := inkMode c; writingMode := writingMode c; writingArea :=
     writingArea c; deviceName := deviceName c; firmware := firmware c;
     eSerial := eSerial c |}.
Definition with_backgroundColor (v : option (list (option Z))) (c : config) : config :=
  {| width := width c; height := height c; scaleFactorX := scaleFactorX c;
     scaleFactorY := scaleFactorY c; tabletMaxPressure := tabletMaxPressure
     c; maxReportRate := maxReportRate c; tabletMaxX := tabletMaxX c;
     tabletMaxY := tabletMaxY c; penColor := penColor c; penWidth := penWidth
     c; backgroundColor := v; brightness := brightness c; inkMode := inkMode
     c; writingMode := writingMode c; writingArea := writingArea c;
     deviceName := deviceName c; firmware := firmware c; eSerial := eSerial c |}.
Definition with_brightness (v : option Z) (c : config) : config :=
  {| width := width c; height := height c; scaleFactorX := scaleFactorX c;
     scaleFactorY := scaleFactorY c; tabletMaxPressure := tabletMaxPressure
     c; maxReportRate := maxReportRate c; tabletMaxX := tabletMaxX c;
     tabletMaxY := tabletMaxY c; penColor := penColor c; penWidth := penWidth
     c; backgroundColor := backgroundColor c; brightness := v; inkMode :=
     inkMode c; writingMode := writingMode c; writingArea := writingArea c;
     deviceName := deviceName c; firmware := firmware c; eSerial := eSerial c |}.
Definition with_inkMode (v : option bool) (c : config) : config :=
  {| width := width c; height := height c; scaleFactorX := scaleFactorX c;
     scaleFactorY := scaleFactorY c; tabletMaxPressure := tabletMaxPressure
     c; maxReportRate := maxReportRate c; tabletMaxX := tabletMaxX c;
     tabletMaxY := tabletMaxY c; penColor := penColor c; penWidth := penWidth
     c; backgroundColor := backgroundColor c; brightness := brightness c;
     inkMode := v; writingMode := writingMode c; writingArea := writingArea
     c; deviceName := deviceName c; firmware := firmware c; eSerial :=
     eSerial c |}.
Definition with_writingMode (v : option Z) (c : config) : config :=
  {| width := width c; height := height c; scaleFactorX := scaleFactorX c;
     scaleFactorY := scaleFactorY c; tabletMaxPressure := tabletMaxPressure
     c; maxReportRate := maxReportRate c; tabletMaxX := tabletMaxX c;
     tabletMaxY := tabletMaxY c; penColor := penColor c; penWidth := penWidth
     c; backgroundColor := backgroundColor c; brightness := brightness c;
     inkMode := inkMode c; writingMode := v; writingArea := writingArea c;
     deviceName := deviceName c; firmware := firmware c; eSerial := eSerial c |}.
Definition with_writingArea (v : option (number * number * number * number)) (c : config) : config :=
  {| width := width c; height := height c; scaleFactorX := scaleFactorX c;
     scaleFactorY := scaleFactorY c; tabletMaxPressure := tabletMaxPressure
     c; maxReportRate := maxReportRate c; tabletMaxX := tabletMaxX c;
     tabletMaxY := tabletMaxY c; penColor := penColor c; penWidth := penWidth
     c; backgroundColor := backgroundColor c; brightness := brightness c;
     inkMode := inkMode c; writingMode := writingMode c; writingArea := v;
     deviceName := deviceName c; firmware := firmware c; eSerial := eSerial c |}.
Definition with_deviceName (v : option string) (c : config) : config :=
  {| width := width c; height := height c; scaleFactorX := scaleFactorX c;
     scaleFactorY := scaleFactorY c; tabletMaxPressure := tabletMaxPressure
     c; maxReportRate := maxReportRate c; tabletMaxX := tabletMaxX c;
     tabletMaxY := tabletMaxY c; penColor := penColor c; penWidth := penWidth
     c; backgroundColor := backgroundColor c; brightness := brightness c;
     inkMode := inkMode c; writingMode := writingMode c; writingArea :=
     writingArea c; deviceName := v; firmware := firmware c; eSerial :=
     eSerial c |}.
Definition with_firmware (v : option (Z * Z * Z * Z)) (c : config) : config :=
  {| width := width c; height := height c; scaleFactorX := scaleFactorX c;
     scaleFactorY := scaleFactorY c; tabletMaxPressure := tabletMaxPressure
     c; maxReportRate := maxReportRate c; tabletMaxX := tabletMaxX c;
     tabletMaxY := tabletMaxY c; penColor := penColor c; penWidth := penWidth
     c; backgroundColor := backgroundColor c; brightness := brightness c;
     inkMode := inkMode c; writingMode := writingMode c; writingArea :=
     writingArea c; deviceName := deviceName c; firmware := v; eSerial :=
     eSerial c |}.
Definition with_eSerial (v : option string) (c : config) : config :=
  {| width := width c; height := height c; scaleFactorX := scaleFactorX c;
     scaleFactorY := scaleFactorY c; tabletMaxPressure := tabletMaxPressure
     c; maxReportRate := maxReportRate c; tabletMaxX := tabletMaxX c;
     tabletMaxY := tabletMaxY c; penColor := penColor c; penWidth := penWidth
     c; backgroundColor := backgroundColor c; brightness := brightness c;
     inkMode := inkMode c; writingMode := writingMode c; writingArea :=
     writingArea c; deviceName := deviceName c; firmware := firmware c;
     eSerial := v |}.

(** A [null] operand of an arithmetic operator counts as 0. *)
Definition nullZ (o : option Z) : Z := default 0 o.
Definition nullNum (o : option number) : number := default (S754_zero false) o.

(** One decoded pen report, the object literal of [#onHidInputReport]. *)
Record packet : Type := mkPacket {
  rdy : bool;
  sw : bool;
  press : Z;
  cpress : number;
  cx : number;
  cy : number;
  x : Z;
  y : Z;
  seq : option Z;
  time : option Z
}.

(** A [polyline] child of the svg element: its [stroke] attribute (the
    components that are joined into [rgb(r,g,b)]; a component that is
    [undefined] is [None]), its [stroke-width] and its points. *)
Record polyline : Type := mkPolyline {
  stroke : list (option Z);
  stroke_width : number;
  points : list (number * number)
}.

(** [this.#svgPolyLine]: [null], a child of the svg element (by position),
    or an element that was created but never appended; such an element is
    referenced from nowhere else, so it is carried by value. *)
Inductive polyRef : Type :=
| NoLine
| Child (i : nat)
| Detached (pts : list (number * number)).

(** An [HIDDevice]: its identity and its [opened] flag. *)
Record hidDevice : Type := mkDevice {
  vendorId : Z;
  productId : Z;
  opened : bool
}.

Record driver : Type := mkDriver {
  cfg : config;
  device : option hidDevice;
  signaturePath : list packet;
  svgElement : list polyline;
  svgPolyLine : polyRef;
  deviceIsSending : bool
}.

(** The state the constructor leaves. *)
Definition new_driver : driver :=
  {| cfg := initial_config; device := None; signaturePath := [];
     svgElement := []; svgPolyLine := NoLine; deviceIsSending := false |}.

Definition set_cfg (c : config) (this : driver) : driver :=
  {| cfg := c; device := device this; signaturePath := signaturePath this;
     svgElement := svgElement this; svgPolyLine := svgPolyLine this;
     deviceIsSending := deviceIsSending this |}.

Definition set_device (d : option hidDevice) (this : driver) : driver :=
  {| cfg := cfg this; device := d; signaturePath := signaturePath this;
     svgElement := svgElement this; svgPolyLine := svgPolyLine this;
     deviceIsSending := deviceIsSending this |}.

Definition set_signaturePath (l : list packet) (this : driver) : driver :=
  {| cfg := cfg this; device := device this; signaturePath := l;
     svgElement := svgElement this; svgPolyLine := svgPolyLine this;
     deviceIsSending := deviceIsSending this |}.

Definition set_svgElement (l : list polyline) (this : driver) : driver :=
  {| cfg := cfg this; device := device this; signaturePath := signaturePath this;
     svgElement := l; svgPolyLine := svgPolyLine this;
     deviceIsSending := deviceIsSending this |}.

Definition set_svgPolyLine (r : polyRef) (this : driver) : driver :=
  {| cfg := cfg this; device := device this; signaturePath := signaturePath this;
     svgElement := svgElement this; svgPolyLine := r;
     deviceIsSending := deviceIsSending this |}.

Definition set_deviceIsSending (b : bool) (this : driver) : driver :=
  {| cfg := cfg this; device := device this; signaturePath := signaturePath this;
     svgElement := svgElement this; svgPolyLine := svgPolyLine this;
     deviceIsSending := b |}.

(** [isConnected()] *)
Definition isConnected (this : driver) : bool :=
  match device this with
  | Some d => opened d
  | None => false
  end.

(** ** Exceptions and synchronous methods *)

Inductive error : Type :=
| Error (msg : string)      (* [throw new Error(msg)] *)
| TypeError                 (* a property of [null] or [undefined] is read *)
| RangeError                (* a DataView read past the end *)
| Rejected (msg : string).  (* a promise of the transport is rejected *)

(** A synchronous method: the state it leaves and, when it throws, the
    exception. The writes made before a [throw] stay. *)
Definition sync (A : Type) : Type := driver -> (A + error) * driver.

Definition sret {A} (a : A) : sync A := fun this => (inl a, this).
Definition sthrow {A} (e : error) : sync A := fun this => (inr e, this).
Definition sbind {A B} (m : sync A) (k : A -> sync B) : sync B :=
  fun this =>
    match m this with
    | (inl a, this') => k a this'
    | (inr e, this') => (inr e, this')
    end.
Definition sget : sync driver := fun this => (inl this, this).
Definition smodify (f : driver -> driver) : sync unit := fun this => (inl tt, f this).

#[global] Instance sync_ret : MRet sync := @sret.
#[global] Instance sync_bind : MBind sync := fun A B k m => sbind m k.

(** ** Decoding pen reports *)

(** The object literal of [#onHidInputReport], with the two extra fields of
    the timing report; [None] is the RangeError of a report that is too
    short. *)
Definition penPacket (c : config) (reportId : Z) (data : list Z) : option packet :=
  w ← getUint16 data 0 false;
  tx ← getUint16 data 2 false;
  ty ← getUint16 data 4 false;
  let pk (tm sq : option Z) :=
    {| rdy := negb (Z.land w 0x8000 =? 0);
       sw := negb (Z.land w 0x1000 =? 0);
       press := Z.land w 0x3FF;
       cpress := div (of_Z (Z.land w 0x3FF)) (of_Z (nullZ (tabletMaxPressure c)));
       cx := Math_round (div (of_Z tx) (nullNum (scaleFactorX c)));
       cy := Math_round (div (of_Z ty) (nullNum (scaleFactorY c)));
       x := tx;
       y := ty;
       seq := sq;
       time := tm |} in
  if reportId =? command.penDataTiming then
    tm ← getUint16 data 6 false;
    sq ← getUint16 data 8 false;
    Some (pk (Some tm) (Some sq))
  else Some (pk None None).

(** What the claim says of a decoded sample, for a report that starts
    with the bytes [b0 .. b5]. *)
Definition decoded (c : config) (b0 b1 b2 b3 b4 b5 : Z) (p : packet) : Prop :=
  let w := b0 * 256 + b1 in
  press p = w mod 2 ^ 10
  /\ cpress p = div (of_Z (press p)) (of_Z (nullZ (tabletMaxPressure c)))
  /\ x p = b2 * 256 + b3
  /\ y p = b4 * 256 + b5
  /\ cx p = Math_round (div (of_Z (x p)) (nullNum (scaleFactorX c)))
  /\ cy p = Math_round (div (of_Z (y p)) (nullNum (scaleFactorY c))).

(** ** Stroke reconstruction *)

(** [#isInWritingArea(x, y)] *)
Definition isInWritingArea (this : driver) (px py : number) : bool :=
  match writingArea (cfg this) with
  | None => true
  | Some (x1, y1, x2, y2) =>
      if lt px x1 || gt px x2 then false
      else if lt py y1 || gt py y2 then false
      else true
  end.

(** The stroke width [#startPolyLine] chooses. *)
Definition strokeWidth (this : driver) : number :=
  if (0 <? length (signaturePath this))%nat
     && bool_decide (writingMode (cfg this) = Some 1)
  then
    match last (signaturePath this) with
    | Some p => add lit_1 (mul (cpress p) lit_1_5)
    | None => lit_1
    end
  else
    match penWidth (cfg this) with
    | Some 0 => lit_0_5
    | Some 1 => lit_2
    | Some 2 => lit_3
    | Some 3 => lit_4_5
    | _ => lit_1
    end.

(** [#startPolyLine()]: the new element is stored in [#svgPolyLine] before
    its attributes are set, and joining a [null] pen color throws before
    the element is appended. *)
Definition startPolyLine : sync unit := fun this =>
  let w := strokeWidth this in
  match penColor (cfg this) with
  | None => (inr TypeError, set_svgPolyLine (Detached []) this)
  | Some c =>
      (inl tt,
       set_svgElement (svgElement this ++ [mkPolyline c w []])
         (set_svgPolyLine (Child (length (svgElement this))) this))
  end.

Definition add_point (pt : number * number) (l : polyline) : polyline :=
  {| stroke := stroke l; stroke_width := stroke_width l;
     points := points l ++ [pt] |}.

(** [#addPolyPoint(x, y)] *)
Definition addPolyPoint (px py : number) : sync unit := fun this =>
  match svgPolyLine this with
  | NoLine => (inr TypeError, this)
  | Child i =>
      (inl tt, set_svgElement (alter (add_point (px, py)) i (svgElement this)) this)
  | Detached pts =>
      (inl tt, set_svgPolyLine (Detached (pts ++ [(px, py)])) this)
  end.

(** The test that starts a new polyline inside a stroke:
    [prevPoint && Math.abs(point.cpress - prevPoint.cpress) > 0.02]. *)
Definition pressure_jump (prevPoint : option packet) (point : packet) : bool :=
  match prevPoint with
  | Some q => gt (Math_abs (sub (cpress point) (cpress q))) lit_0_02
  | None => false
  end.

(** The condition under which a sample is drawn. *)
Definition inked (this : driver) (point : packet) : bool :=
  rdy point && sw point && default false (inkMode (cfg this))
  && isInWritingArea this (cx point) (cy point).

(** The body of the loop of [#drawSignaturePathToCanvas] for the sample
    [point] that follows [prevPoint]. *)
Definition drawSample (prevPoint : option packet) (point : packet) : sync unit :=
  this ← sget;
  if inked this point then
    (match svgPolyLine this with
     | NoLine => startPolyLine
     | _ =>
         if pressure_jump prevPoint point then
           addPolyPoint (cx point) (cy point);;
           startPolyLine
         else mret tt
     end);;
    addPolyPoint (cx point) (cy point)
  else
    match svgPolyLine this with
    | NoLine => mret tt
    | _ => smodify (set_svgPolyLine NoLine)
    end.

(** One iteration of the loop: [point] is [this.#signaturePath[i]] and
    [prevPoint] the element before it, [null] for [i = 0]. *)
Definition drawPoint (i : nat) : sync unit :=
  this ← sget;
  match signaturePath this !! i with
  | None => sthrow TypeError
  | Some point =>
      drawSample
        (if (0 <? i)%nat then signaturePath this !! (i - 1)%nat else None) point
  end.

(** The loop, [n] iterations from index [i]. *)
Fixpoint drawLoop (n i : nat) : sync unit :=
  match n with
  | O => mret tt
  | S n' => drawPoint i;; drawLoop n' (S i)
  end.

(** [#drawSignaturePathToCanvas(fromOffset)] *)
Definition drawSignaturePathToCanvas (fromOffset : nat) : sync unit :=
  this ← sget;
  drawLoop (length (signaturePath this) - fromOffset) fromOffset.

(** The body of [#onHidInputReport] once the packet is decoded: the packet
    is pushed and the last point is drawn. The [penData] listeners that are
    called afterwards belong to the page and are not part of the model. *)
Definition storePacket (p : packet) : sync unit :=
  this ← sget;
  smodify (set_signaturePath (signaturePath this ++ [p]));;
  this ← sget;
  drawSignaturePathToCanvas (length (signaturePath this) - 1).

(** [#onHidInputReport(event)] *)
Definition onHidInputReport (reportId : Z) (data : list Z) : sync unit :=
  this ← sget;
  if (reportId =? command.penData) || (reportId =? command.penDataTiming) then
    match penPacket (cfg this) reportId data with
    | None => sthrow RangeError
    | Some p => storePacket p
    end
  else mret tt.

(** The state after the reports of [ps] have arrived one after the other;
    a handler that throws does not keep the next report from being
    handled. *)
Definition receive (ps : list packet) (this : driver) : driver :=
  fold_left (fun st p => snd (storePacket p st)) ps this.

(** The state after the whole log is drawn again:
    [#drawSignaturePathToCanvas()] with its default offset 0. *)
Definition redraw (this : driver) : driver :=
  snd (drawSignaturePathToCanvas 0 this).

(** The number of pairs of consecutive samples whose normalized pressures
    differ by more than 0.02. *)
Fixpoint crossings_from (prev : packet) (l : list packet) : nat :=
  match l with
  | [] => 0
  | p :: l' =>
      ((if gt (Math_abs (sub (cpress p) (cpress prev))) lit_0_02 then 1 else 0)
       + crossings_from p l')%nat
  end.

Definition crossings (l : list packet) : nat :=
  match l with
  | [] => 0%nat
  | p :: l' => crossings_from p l'
  end.

(** The point passes the test of the writing area. *)
Definition inside (this : driver) (pt : number * number) : Prop :=
  isInWritingArea this (fst pt) (snd pt) = true.

(** Every point of every polyline of [svg] satisfies [P]. *)
Definition all_points (P : number * number -> Prop) (svg : list polyline) : Prop :=
  Forall (fun seg => Forall P (points seg)) svg.

(** The polyline [#svgPolyLine] refers to is the last child of the svg
    element. *)
Definition open_last (this : driver) : Prop :=
  exists segs seg,
    svgElement this = segs ++ [seg] /\ svgPolyLine this = Child (length segs).

(** The open polyline, if there is one, is a child of the svg element. *)
Definition attached (this : driver) : Prop :=
  forall pts, svgPolyLine this <> Detached pts.

(** Two states that differ at most in the sample log. *)
Definition same_drawing (a b : driver) : Prop :=
  cfg a = cfg b /\ svgElement a = svgElement b /\ svgPolyLine a = svgPolyLine b.

(** A state in which nothing is drawn: the log [l] and an empty svg
    element, as [#clearSignatureData] leaves it when [l] is empty. *)
Definition blank (c : config) (d : option hidDevice) (l : list packet) : driver :=
  {| cfg := c; device := d; signaturePath := l; svgElement := [];
     svgPolyLine := NoLine; deviceIsSending := false |}.

(** [#clearSignatureData()] *)
Definition clearSignatureData : sync unit :=
  smodify (fun this =>
    set_svgPolyLine NoLine (set_svgElement [] (set_signaturePath [] this))).

(** ** Splitting an image into bulks *)

(** The number of iterations of the outer loop of [#splitToBulks],
    [Math.ceil(arr.length / bulkSize)]. With a bulk size of 0 the bound is
    NaN for an empty array (no iteration) and Infinity otherwise: the loop
    does not end, which is [None]. (The quotient of two array lengths is
    far below [2^53], so its ceiling is the integer one.) *)
Definition bulkCount (len bulkSize : nat) : option nat :=
  match bulkSize with
  | O => if (len =? 0)%nat then Some O else None
  | S _ => Some ((len + bulkSize - 1) / bulkSize)%nat
  end.

(** The [i]-th bulk: [Array(bulkSize)] filled from [arr[i * bulkSize]] on;
    a read past the end of [arr] leaves [undefined] ([None]). *)
Definition bulk (arr : list Z) (bulkSize i : nat) : list (option Z) :=
  map (fun z => arr !! (i * bulkSize + z)%nat) (List.seq 0 bulkSize).

(** [#splitToBulks(arr, bulkSize)] *)
Definition splitToBulks (arr : list Z) (bulkSize : nat) : option (list (list (option Z))) :=
  n ← bulkCount (length arr) bulkSize;
  Some (map (bulk arr bulkSize) (List.seq 0 n)).

(** The bytes of a bulk that come from the image: the entries that are not
    holes. *)
Definition occupied (e : list (option Z)) : list Z := omap id e.

(** The payload of a [writeImageData] report,
    [new Uint8Array([e.length, 0].concat(e))]. *)
Definition imageDataPacket (e : list (option Z)) : list Z :=
  Uint8Array (Some (Z.of_nat (length e)) :: Some 0 :: e).


(** ** Asynchronous methods *)

(** What an [await] waits for: a feature report handed to the device, a
    timer, or ([Tick]) a promise that is already settled, where the
    [await] yields all the same. *)
Inductive request : Type :=
| SendFeatureReport (reportId : Z) (data : list Z)
| ReceiveFeatureReport (reportId : Z)
| SetTimeout (ms : Z)
| GetDevices
| RequestDevice
| OpenDevice
| Tick.

(** The values that cross an [await] or are returned by a method. *)
Inductive value : Type :=
| Undefined
| Bool (b : bool)
| DataView (dv : list Z)
| Devices (l : list (option hidDevice)).

Inductive response : Type :=
| Fulfilled (v : value)
| Reject (msg : string).

(** An [async] function body: it reads and writes the private fields,
    awaits, calls other [async] functions without awaiting them
    ([Spawn]), returns or throws. *)
Inductive proc (A : Type) : Type :=
| Ret (a : A)
| Throw (e : error)
| Get (k : driver -> proc A)
| Put (this : driver) (k : proc A)
| Await (r : request) (k : response -> proc A)
| Spawn (child : proc value) (k : proc A).

Arguments Ret {A} a.
Arguments Throw {A} e.
Arguments Get {A} k.
Arguments Put {A} this k.
Arguments Await {A} r k.
Arguments Spawn {A} child k.

Fixpoint pbind {A B} (m : proc A) (f : A -> proc B) : proc B :=
  match m with
  | Ret a => f a
  | Throw e => Throw e
  | Get k => Get (fun this => pbind (k this) f)
  | Put this k => Put this (pbind k f)
  | Await r k => Await r (fun resp => pbind (k resp) f)
  | Spawn child k => Spawn child (pbind k f)
  end.

#[global] Instance proc_ret : MRet proc := @Ret.
#[global] Instance proc_bind : MBind proc := fun A B f m => pbind m f.

(** Reading [this]. *)
Definition get : proc driver := Get (fun this => Ret this).

(** A synchronous method called from an [async] one. *)
Definition lift {A} (m : sync A) : proc A :=
  Get (fun this =>
    match m this with
    | (inl a, this') => Put this' (Ret a)
    | (inr e, this') => Put this' (Throw e)
    end).

Definition modify (f : driver -> driver) : proc unit :=
  Get (fun this => Put (f this) (Ret tt)).

(** [await promise] of a promise of the outside world. *)
Definition await (r : request) : proc value :=
  Await r (fun resp =>
    match resp with
    | Fulfilled v => Ret v
    | Reject msg => Throw (Rejected msg)
    end).

(** [l.forEach(async (e) => { ... })]: the callback is called for every
    element in turn and none of the promises it returns is awaited. *)
Fixpoint forEach {A} (l : list A) (f : A -> proc value) : proc unit :=
  match l with
  | [] => Ret tt
  | e :: l' => Spawn (f e) (forEach l' f)
  end.

(** [#sendData(reportId, data)], with the [await] every caller applies to
    its result. *)
Definition sendData (reportId : Z) (data : list Z) : proc value :=
  this ← get;
  if negb (isConnected this) then Await Tick (fun _ => Ret Undefined)
  else await (SendFeatureReport reportId data);; Ret Undefined.

(** [#readData(reportId)], with the [await] every caller applies to its
    result. *)
Definition readData (reportId : Z) : proc value :=
  this ← get;
  if negb (isConnected this) then Await Tick (fun _ => Ret Undefined)
  else await (ReceiveFeatureReport reportId).

(** [#wait(ms)], awaited. *)
Definition wait (ms : Z) : proc value :=
  Await (SetTimeout ms) (fun _ => Ret Undefined).

(** The loop of [setImage] that waits for the device:
    [left] is [20 - tryCnt]. *)
Fixpoint waitWhileSending (left : nat) : proc unit :=
  this ← get;
  if deviceIsSending this then
    match left with
    | S left' => wait 500;; waitWhileSending left'
    | O => Throw (Error "cannot setImage: sending blocked for more than 10 seconds by other calls")
    end
  else Ret tt.

(** The part of [setImage] after the wait loop. A bulk size of 253 always
    gives bulks, so the last branch is never taken. *)
Definition sendImage (imageData : list Z) : proc value :=
  modify (set_deviceIsSending true);;
  match splitToBulks imageData chunkSize with
  | Some imageDataBulks =>
      sendData command.writeImageStart [imageFormat24BGR];;
      forEach imageDataBulks
        (fun e => sendData command.writeImageData (imageDataPacket e));;
      sendData command.writeImageEnd [0];;
      lift clearSignatureData;;
      modify (set_deviceIsSending false);;
      Ret Undefined
  | None => Ret Undefined
  end.

(** [setImage(imageData)] *)
Definition setImage (imageData : list Z) : proc value :=
  this ← get;
  if negb (isConnected this) then Throw (Error "device not connected")
  else if negb (Z.of_nat (length imageData)
                =? nullZ (width (cfg this)) * nullZ (height (cfg this)) * 3)
  then Throw (Error "setImage: invalid imageData")
  else
    waitWhileSending 20;;
    sendImage imageData.

(** ** The event loop *)

(** A suspended [async] call: the call it belongs to, what it awaits, how
    it goes on, and whether it is the call itself ([top]) or a callback
    whose promise nobody holds. *)
Record suspended : Type := mkSuspended {
  owner : nat;
  awaits : request;
  cont : response -> proc value;
  top : bool
}.

Inductive event : Type :=
| Issue (call : nat) (r : request)
| Settle (call : nat) (r : request) (resp : response)
| Return (call : nat) (v : value)
| Raise (call : nat) (e : error).

Record world : Type := mkWorld {
  this : driver;
  pool : list suspended;
  trace : list event;
  calls : nat
}.

Definition log (ev : event) (w : world) : world :=
  {| this := this w; pool := pool w; trace := trace w ++ [ev]; calls := calls w |}.

Definition park (s : suspended) (w : world) : world :=
  {| this := this w; pool := pool w ++ [s]; trace := trace w; calls := calls w |}.

Definition set_this (d : driver) (w : world) : world :=
  {| this := d; pool := pool w; trace := trace w; calls := calls w |}.

(** Runs a call until it returns, throws or awaits. A callback that is
    not awaited runs until its own first [await], then its caller goes
    on. *)
Fixpoint exec (call : nat) (is_top : bool) (p : proc value) (w : world) : world :=
  match p with
  | Ret v => if is_top then log (Return call v) w else w
  | Throw e => if is_top then log (Raise call e) w else w
  | Get k => exec call is_top (k (this w)) w
  | Put d k => exec call is_top k (set_this d w)
  | Await r k => park (mkSuspended call r k is_top) (log (Issue call r) w)
  | Spawn child k => exec call is_top k (exec call false child w)
  end.

(** What happens between two runs of the driver's code: a method is
    called from the page, or something a call awaits is settled. *)
Inductive action : Type :=
| Call (p : proc value)
| Complete (i : nat) (resp : response).

Definition step (w : world) (a : action) : world :=
  match a with
  | Call p =>
      exec (calls w) true p
        {| this := this w; pool := pool w; trace := trace w; calls := S (calls w) |}
  | Complete i resp =>
      match pool w !! i with
      | Some s =>
          exec (owner s) (top s) (cont s resp)
            (log (Settle (owner s) (awaits s) resp)
               {| this := this w; pool := delete i (pool w);
                  trace := trace w; calls := calls w |})
      | None => w
      end
  end.

Definition run (w : world) (sched : list action) : world := fold_left step sched w.

(** The errors of the parameter checks. *)
Definition invalid_width : error :=
  Error "invalid value for setPenColorAndWidth width".
Definition invalid_mode : error := Error "invalid value for setWritingMode".
Definition invalid_intensity : error :=
  Error "invalid value for setBrightness intensity".
Definition not_connected : error := Error "device not connected".

(** The world after a call that throws before its first [await]. *)
Definition raised (e : error) (w : world) : world :=
  {| this := this w; pool := pool w;
     trace := trace w ++ [Raise (calls w) e]; calls := S (calls w) |}.

(** The world after a call that awaits [r] right away. *)
Definition awaiting (r : request) (k : response -> proc value) (w : world) : world :=
  {| this := this w; pool := pool w ++ [mkSuspended (calls w) r k true];
     trace := trace w ++ [Issue (calls w) r]; calls := S (calls w) |}.

Definition start (d : driver) : world :=
  {| this := d; pool := []; trace := []; calls := 0 |}.

(** ** Connecting and the setters *)

Definition modify_cfg (f : config -> config) : proc unit :=
  modify (fun this => set_cfg (f (cfg this)) this).

(** Reads of a value that is expected to be a DataView; reading a
    property of [undefined] is a TypeError. *)
Definition dvUint8 (v : value) (off : nat) : proc Z :=
  match v with
  | DataView dv =>
      match getUint8 dv off with
      | Some b => Ret b
      | None => Throw RangeError
      end
  | _ => Throw TypeError
  end.

Definition dvUint16 (v : value) (off : nat) (littleEndian : bool) : proc Z :=
  match v with
  | DataView dv =>
      match getUint16 dv off littleEndian with
      | Some n => Ret n
      | None => Throw RangeError
      end
  | _ => Throw TypeError
  end.

(** The characters [#dataViewString] collects: up to the first 0. *)
Fixpoint untilNul (l : list Z) : list Z :=
  match l with
  | [] => []
  | val :: l' => if val =? 0 then [] else val :: untilNul l'
  end.

Definition fromCharCodes (l : list Z) : string :=
  string_of_list_ascii (map (fun c => Ascii.ascii_of_N (Z.to_N c)) l).

(** [#dataViewString(dv, offset, length)]; [len = None] when the third
    argument is left out. *)
Definition dataViewString (v : value) (offset : nat) (len : option nat) : proc string :=
  match v with
  | DataView dv =>
      let stop := match len with
                  | Some n => (offset + n)%nat
                  | None => length dv
                  end in
      Ret (fromCharCodes (untilNul (take (stop - offset) (drop offset dv))))
  | _ => Throw TypeError
  end.

(** The part of [connect] from the opening of the device on: the nine
    reads and the assignments that follow each of them, in the order of
    the source. The listener for input reports and the attributes of the
    svg element are not part of the model. *)
Definition negotiate : proc value :=
  this ← get;
  match device this with
  | None => Throw TypeError
  | Some d =>
      (if opened d then Ret tt
       else
         await OpenDevice;;
         modify (set_device (Some (mkDevice (vendorId d) (productId d) true))));;
      dv ← readData command.capability;
      n ← dvUint16 dv 1 false; modify_cfg (with_tabletMaxX (Some n));;
      n ← dvUint16 dv 3 false; modify_cfg (with_tabletMaxY (Some n));;
      n ← dvUint16 dv 5 false; modify_cfg (with_tabletMaxPressure (Some n));;
      n ← dvUint16 dv 7 false; modify_cfg (with_width (Some n));;
      n ← dvUint16 dv 9 false; modify_cfg (with_height (Some n));;
      n ← dvUint8 dv 11; modify_cfg (with_maxReportRate (Some n));;
      modify_cfg (fun c =>
        with_scaleFactorX
          (Some (div (of_Z (nullZ (tabletMaxX c))) (of_Z (nullZ (width c))))) c);;
      modify_cfg (fun c =>
        with_scaleFactorY
          (Some (div (of_Z (nullZ (tabletMaxY c))) (of_Z (nullZ (height c))))) c);;
      dv ← readData command.information;
      name ← dataViewString dv 1 (Some 7%nat);
      modify_cfg (with_deviceName (Some name));;
      f0 ← dvUint8 dv 8; f1 ← dvUint8 dv 9; f2 ← dvUint8 dv 10; f3 ← dvUint8 dv 11;
      modify_cfg (with_firmware (Some (f0, f1, f2, f3)));;
      dv ← readData command.eSerial;
      serial ← dataViewString dv 1 None;
      modify_cfg (with_eSerial (Some serial));;
      dv ← readData command.backgroundColor;
      r ← dvUint8 dv 1; g ← dvUint8 dv 2; b ← dvUint8 dv 3;
      modify_cfg (with_backgroundColor (Some [Some r; Some g; Some b]));;
      dv ← readData command.penColorAndWidth;
      r ← dvUint8 dv 1; g ← dvUint8 dv 2; b ← dvUint8 dv 3;
      modify_cfg (with_penColor (Some [Some r; Some g; Some b]));;
      n ← dvUint8 dv 4; modify_cfg (with_penWidth (Some n));;
      dv ← readData command.brightness;
      n ← dvUint8 dv 1; modify_cfg (with_brightness (Some n));;
      dv ← readData command.inkMode;
      n ← dvUint8 dv 1; modify_cfg (with_inkMode (Some (n =? 1)));;
      dv ← readData command.writingMode;
      n ← dvUint8 dv 1; modify_cfg (with_writingMode (Some n));;
      dv ← readData command.writingArea;
      x1 ← dvUint16 dv 1 true; y1 ← dvUint16 dv 3 true;
      x2 ← dvUint16 dv 5 true; y2 ← dvUint16 dv 7 true;
      modify_cfg (with_writingArea (Some (of_Z x1, of_Z y1, of_Z x2, of_Z y2)));;
      Ret (Bool true)
  end.

Definition is_pad (d : hidDevice) : bool :=
  (vendorId d =? vid) && (productId d =? pid).

(** The loop of [connect] over the devices the page may already use: the
    last pad found is kept. *)
Fixpoint pickDevice (devices : list (option hidDevice)) : proc unit :=
  match devices with
  | [] => Ret tt
  | None :: _ => Throw TypeError
  | Some d :: devices' =>
      (if is_pad d then modify (set_device (Some d)) else Ret tt);;
      pickDevice devices'
  end.

Definition as_devices (v : value) : proc (list (option hidDevice)) :=
  match v with
  | Devices l => Ret l
  | _ => Throw TypeError
  end.

(** [connect()] *)
Definition connect : proc value :=
  this ← get;
  if isConnected this then Ret (Bool true)
  else
    modify (set_device None);;
    v ← await GetDevices;
    devices ← as_devices v;
    pickDevice devices;;
    this ← get;
    match device this with
    | Some _ => negotiate
    | None =>
        v ← await RequestDevice;
        dev ← as_devices v;
        match dev with
        | Some d :: _ => modify (set_device (Some d));; negotiate
        | _ => Ret (Bool false)
        end
    end.


(** [[0,1,2,3].indexOf(v) === -1] and [[0,1].indexOf(v) === -1] *)
Definition not_in_0123 (v : Z) : bool :=
  negb ((v =? 0) || (v =? 1) || (v =? 2) || (v =? 3)).
Definition not_in_01 (v : Z) : bool :=
  negb ((v =? 0) || (v =? 1)).

(** [setPenColorAndWidth(color, width)]; [color] stands for the array the
    source converts the [#RRGGBB] string into. *)
Definition setPenColorAndWidth (color : list Z) (width : Z) : proc value :=
  this ← get;
  if negb (isConnected this) then Throw (Error "device not connected")
  else if not_in_0123 width
  then Throw (Error "invalid value for setPenColorAndWidth width")
  else
    let c := color ++ [width] in
    sendData command.penColorAndWidth (Uint8Array (map Some c));;
    modify_cfg (with_penColor (Some [c !! 0%nat; c !! 1%nat; c !! 2%nat]));;
    modify_cfg (with_penWidth (c !! 3%nat));;
    Ret Undefined.

(** [setBrightness(intensity)] *)
Definition setBrightness (intensity : Z) : proc value :=
  this ← get;
  if negb (isConnected this) then Throw (Error "device not connected")
  else if not_in_0123 intensity
  then Throw (Error "invalid value for setBrightness intensity")
  else
    dv ← readData command.brightness;
    b ← dvUint8 dv 1;
    if b =? intensity then Ret Undefined
    else
      sendData command.brightness (Uint8Array [Some intensity; Some 0]);;
      modify_cfg (with_brightness (Some intensity));;
      Ret Undefined.

(** [setWritingMode(mode)] *)
Definition setWritingMode (mode : Z) : proc value :=
  this ← get;
  if negb (isConnected this) then Throw (Error "device not connected")
  else if not_in_01 mode
  then Throw (Error "invalid value for setWritingMode")
  else
    sendData command.writingMode (Uint8Array [Some mode]);;
    modify_cfg (with_writingMode (Some mode));;
    Ret Undefined.

(** [setInking(enabled)] *)
Definition setInking (enabled : bool) : proc value :=
  this ← get;
  if negb (isConnected this) then Throw (Error "device not connected")
  else
    sendData command.inkMode [if enabled then 1 else 0];;
    modify_cfg (with_inkMode (Some enabled));;
    Ret Undefined.

(** [view.setUint16(off, v, true)]: the two bytes of [v] modulo [2^16],
    low byte first. *)
Definition uint16_le (v : Z) : list Z := [v mod 256; (v / 256) mod 256].

(** [setWritingArea(p)] with [p = {x1, y1, x2, y2}] *)
Definition setWritingArea (x1 y1 x2 y2 : Z) : proc value :=
  this ← get;
  if negb (isConnected this) then Throw (Error "device not connected")
  else
    sendData command.writingArea
      (uint16_le x1 ++ uint16_le y1 ++ uint16_le x2 ++ uint16_le y2);;
    modify_cfg (with_writingArea (Some (of_Z x1, of_Z y1, of_Z x2, of_Z y2)));;
    Ret Undefined.

(** [clearScreen()] *)
Definition clearScreen : proc value :=
  this ← get;
  if negb (isConnected this) then Throw (Error "device not connected")
  else
    sendData command.clearScreen [0];;
    lift clearSignatureData;;
    Ret Undefined.

(** ** Example inputs *)

Module Examples.

(** A pad the page may use, not opened yet. *)
Definition pad : hidDevice := mkDevice vid pid false.

(** A capability report: tabletMax = (20000, 12000), maximal pressure
    1023, display 800 x 480, 150 reports per second. *)
Definition capability_report : list Z :=
  [0x09; 0x4E; 0x20; 0x2E; 0xE0; 0x03; 0xFF; 0x03; 0x20; 0x01; 0xE0; 0x96].

(** [connect()] on a new driver, up to the answer to the capability
    read. *)
Definition after_capability : world :=
  run (start new_driver)
    [Call connect;
     Complete 0 (Fulfilled (Devices [Some pad]));
     Complete 0 (Fulfilled Undefined);
     Complete 0 (Fulfilled (DataView capability_report))].

(** A pen report: pen in contact, pressure 512, at tablet point
    (5000, 2500). *)
Definition pen_report : list Z := [0x92; 0x00; 0x13; 0x88; 0x09; 0xC4].

(** The other eight reports of a negotiation: the name STU-540 and
    firmware 1.0.0.5, the serial number 42, a white background, a black
    pen of width 1, brightness 3, inking on, writing mode 1 and the
    writing area (0, 0)-(800, 480). *)
Definition information_report : list Z :=
  [0x08; 83; 84; 85; 45; 53; 52; 48; 1; 0; 0; 5].
Definition eSerial_report : list Z := [0x0F; 52; 50; 0; 0].
Definition backgroundColor_report : list Z := [0x2E; 255; 255; 255].
Definition penColorAndWidth_report : list Z := [0x2D; 0; 0; 0; 1].
Definition brightness_report : list Z := [0x2B; 3].
Definition inkMode_report : list Z := [0x21; 1].
Definition writingMode_report : list Z := [0x0E; 1].
Definition writingArea_report : list Z :=
  [0x2A; 0; 0; 0; 0; 0x20; 0x03; 0xE0; 0x01].

Definition answer (dv : list Z) : action := Complete 0 (Fulfilled (DataView dv)).

(** A complete [connect()] on a new driver. *)
Definition connected_world : world :=
  run after_capability
    [answer information_report; answer eSerial_report;
     answer backgroundColor_report; answer penColorAndWidth_report;
     answer brightness_report; answer inkMode_report;
     answer writingMode_report; answer writingArea_report].

Definition connected : driver := this connected_world.

(** The same driver after [setWritingArea({x1:100,y1:100,x2:200,y2:200})]. *)
Definition clipped : driver :=
  this (run (start connected)
          [Call (setWritingArea 100 100 200 200); Complete 0 (Fulfilled Undefined)]).

(** The sample of a pen report with the status word [w] at the tablet
    point [(tx, ty)], as the connected driver decodes it. *)
Definition sample (b0 b1 tx ty : Z) : packet :=
  default (mkPacket false false 0 S754_nan S754_nan S754_nan 0 0 None None)
    (penPacket (cfg connected) command.penData
       [b0; b1; tx / 256; tx mod 256; ty / 256; ty mod 256]).

(** Pen in proximity and in contact, with raw pressure 100 and 500. *)
Definition light (tx ty : Z) : packet := sample 0x90 0x64 tx ty.
Definition heavy (tx ty : Z) : packet := sample 0x91 0xF4 tx ty.

(** Contact flag set, proximity flag clear. *)
Definition contact_only (tx ty : Z) : packet := sample 0x10 0x64 tx ty.

(** A connected driver whose pad has reported a display of 85 x 2
    pixels, and an image for it: 510 bytes, three bulks. *)
Definition narrow : driver :=
  set_cfg (with_width (Some 85) (with_height (Some 2) (cfg connected))) connected.

Definition narrow_image : list Z := repeat 7 510.

(** Two uploads are started one after the other and twenty timers of the
    second fire while the start report of the first is pending. *)
Definition blocked_schedule : list action :=
  [Call (setImage narrow_image); Call (setImage narrow_image)]
  ++ repeat (Complete 1 (Fulfilled Undefined)) 20.

(** The second upload is started while the first is in flight, and the
    first is completed: its start report, then its end report are
    settled, then a timer of the second fires. *)
Definition queued_schedule : list action :=
  [Call (setImage narrow_image); Call (setImage narrow_image);
   Complete 0 (Fulfilled Undefined); Complete 4 (Fulfilled Undefined);
   Complete 0 (Fulfilled Undefined)].

End Examples.


(** ** Straight-line calls *)






(** ** The steps of an image upload *)

(** The data report of a bulk. *)
Definition dataReport (e : list (option Z)) : request :=
  SendFeatureReport command.writeImageData (imageDataPacket e).

Definition startReport : request :=
  SendFeatureReport command.writeImageStart [imageFormat24BGR].

Definition endReport : request :=
  SendFeatureReport command.writeImageEnd [0].

(** How [setImage] goes on when its start report is settled, when its end
    report is settled, and how the callback of a bulk goes on when its
    data report is settled. *)
Definition afterStart (bulks : list (list (option Z))) : response -> proc value :=
  fun resp =>
    (match resp with
     | Fulfilled v => Ret v
     | Reject msg => Throw (Rejected msg)
     end ≫= fun _ => Ret Undefined);;
    forEach bulks (fun e => sendData command.writeImageData (imageDataPacket e));;
    sendData command.writeImageEnd [0];;
    lift clearSignatureData;;
    modify (set_deviceIsSending false);;
    Ret Undefined.

Definition afterEnd : response -> proc value :=
  fun resp =>
    (match resp with
     | Fulfilled v => Ret v
     | Reject msg => Throw (Rejected msg)
     end ≫= fun _ => Ret Undefined);;
    lift clearSignatureData;;
    modify (set_deviceIsSending false);;
    Ret Undefined.

Definition afterData : response -> proc value :=
  fun resp =>
    match resp with
    | Fulfilled v => Ret v
    | Reject msg => Throw (Rejected msg)
    end ≫= fun _ => Ret Undefined.

(** How [setImage] goes on when a timer of its wait loop fires, with
    [left] further tries. *)
Definition afterWait (left : nat) (imageData : list Z) : response -> proc value :=
  fun _ => waitWhileSending left;; sendImage imageData.

(** The suspended callbacks of the bulks of call [c]. *)
Definition dataCallbacks (c : nat) (bulks : list (list (option Z))) : list suspended :=
  map (fun e => mkSuspended c (dataReport e) afterData false) bulks.

(** The precondition of [setImage] on the image. *)
Definition fits (d : driver) (imageData : list Z) : Prop :=
  Z.of_nat (length imageData)
  = nullZ (width (cfg d)) * nullZ (height (cfg d)) * 3.


(** ** Uploads that run at the same time *)

(** The error of a call that found the device busy for too long. *)
Definition busy : error :=
  Error "cannot setImage: sending blocked for more than 10 seconds by other calls".

(** The calls that handed a feature report to the device, in the order of
    the reports. *)
Fixpoint sends (tr : list event) : list nat :=
  match tr with
  | [] => []
  | Issue c (SendFeatureReport _ _) :: tr' => c :: sends tr'
  | _ :: tr' => sends tr'
  end.

(** The number of timers call [c] has started, and the time they add up
    to. *)
Fixpoint timers (c : nat) (tr : list event) : nat :=
  match tr with
  | [] => 0
  | Issue c' (SetTimeout _) :: tr' =>
      ((if (c' =? c)%nat then 1 else 0) + timers c tr')%nat
  | _ :: tr' => timers c tr'
  end.

Fixpoint waited (c : nat) (tr : list event) : Z :=
  match tr with
  | [] => 0
  | Issue c' (SetTimeout ms) :: tr' =>
      (if (c' =? c)%nat then ms else 0) + waited c tr'
  | _ :: tr' => waited c tr'
  end.

(** The reports of different calls are not interleaved: a call whose
    report follows the report of another call has sent nothing before. *)
Definition grouped (ss : list nat) : Prop :=
  forall l1 c l2, ss = l1 ++ c :: l2 -> In c l1 -> last l1 = Some c.

(** The actions of a page that only uploads images. *)
Definition is_upload (a : action) : Prop :=
  match a with
  | Call p => exists imageData, p = setImage imageData
  | Complete _ _ => True
  end.

(** The suspended calls of such a page: a call in its wait loop, a call
    that awaits its start or its end report, and the callback of a
    bulk. What is known of each depends on whether the device is marked
    as sending ([flag]), on the calls that have sent ([ss]), on the
    timers started ([tm]) and on the number of calls made ([n]). *)
Inductive entry_ok (flag : bool) (ss : list nat) (tm : nat -> nat) (n : nat) :
  suspended -> Prop :=
| ok_waiting (c left : nat) (imageData : list Z) :
    (c < n)%nat -> ~ In c ss -> (tm c + left = 20)%nat ->
    entry_ok flag ss tm n
      (mkSuspended c (SetTimeout 500) (afterWait left imageData) true)
| ok_starting (c : nat) (bulks : list (list (option Z))) :
    (c < n)%nat -> last ss = Some c -> flag = true ->
    entry_ok flag ss tm n (mkSuspended c startReport (afterStart bulks) true)
| ok_ending (c : nat) :
    (c < n)%nat -> last ss = Some c -> flag = true ->
    entry_ok flag ss tm n (mkSuspended c endReport afterEnd true)
| ok_data (c : nat) (e : list (option Z)) :
    (c < n)%nat ->
    entry_ok flag ss tm n (mkSuspended c (dataReport e) afterData false).

(** The suspended call [s] is call [c] itself, not one of its callbacks. *)
Definition top_of (c : nat) (s : suspended) : bool :=
  top s && (owner s =? c)%nat.

Record upload_inv (w : world) : Prop := mkUploadInv {
  inv_connected : isConnected (this w) = true;
  inv_entries :
    Forall (entry_ok (deviceIsSending (this w)) (sends (trace w))
              (fun c => timers c (trace w)) (calls w)) (pool w);
  inv_unique : forall c, (length (filter (fun s => top_of c s = true) (pool w)) <= 1)%nat;
  inv_grouped : grouped (sends (trace w));
  inv_fresh_sends : forall c, In c (sends (trace w)) -> (c < calls w)%nat;
  inv_fresh_timers : forall c, (calls w <= c)%nat -> timers c (trace w) = 0%nat;
  inv_timers : forall c, (timers c (trace w) <= 20)%nat;
  inv_interval :
    Forall (fun ev => forall c ms, ev = Issue c (SetTimeout ms) -> ms = 500) (trace w);
  inv_busy :
    forall c, In (Raise c busy) (trace w) ->
      timers c (trace w) = 20%nat
      /\ ~ In c (sends (trace w))
      /\ (c < calls w)%nat
      /\ Forall (fun s => top_of c s = false) (pool w)
}.

(** ** Listeners *)

Module Events.

(** An entry of [this.#events]. A callback and a context object are
    known by their identity; a context that is [null] or was left out is
    [None]. *)
Record listener : Type := mkListener {
  eventName : string;
  callbackFn : nat;
  context : option nat
}.

(** [on(eventName, callbackFn, context)] *)
Definition on (name : string) (fn : nat) (ctx : option nat)
    (events : list listener) : list listener :=
  events ++ [mkListener name fn ctx].

(** [un(eventName, callbackFn, context)]; an argument that is [null] or
    left out is [None]. *)
Definition un (name : option string) (fn : option nat) (ctx : option nat)
    (events : list listener) : list listener :=
  List.filter
    (fun e =>
       if (match name with Some n => String.eqb n (eventName e) | None => true end)
          && (match fn with Some f => (f =? callbackFn e)%nat | None => true end)
          && (match ctx with Some _ => bool_decide (ctx = context e) | None => true end)
       then false else true)
    events.

(** The [this] a callback is applied to: [context || window]. *)
Inductive receiver : Type :=
| Window
| Object (id : nat).

(** [#raiseEvent(eventName, args)]: the callbacks that are applied, in
    the order of the calls, each with its receiver. What a callback does
    belongs to the page. *)
Fixpoint raiseEvent (name : string) (events : list listener) : list (nat * receiver) :=
  match events with
  | [] => []
  | e :: events' =>
      if String.eqb (eventName e) name
      then (callbackFn e,
            match context e with
            | Some o => Object o
            | None => Window
            end) :: raiseEvent name events'
      else raiseEvent name events'
  end.

End Events.

(** ** Further methods *)

(** The loop of [isAvailable()] over the devices the page may use. *)
Fixpoint anyPad (devices : list (option hidDevice)) : proc value :=
  match devices with
  | [] => Ret (Bool false)
  | None :: _ => Throw TypeError
  | Some d :: devices' => if is_pad d then Ret (Bool true) else anyPad devices'
  end.

(** [isAvailable()] *)
Definition isAvailable : proc value :=
  this ← get;
  if isConnected this then Ret (Bool true)
  else
    v ← await GetDevices;
    devices ← as_devices v;
    anyPad devices.

(** [hasSignatureData(withTouchingDevice)] *)
Definition hasSignatureData (withTouchingDevice : bool) (this : driver) : bool :=
  if withTouchingDevice then existsb sw (signaturePath this)
  else (0 <? length (signaturePath this))%nat.

(** [setBackgroundColor(color)]; [color] stands for the array the source
    converts the [#RRGGBB] string into. The three comparisons with the
    report are made from left to right and stop at the first that
    fails. *)
Definition setBackgroundColor (color : list Z) : proc value :=
  this ← get;
  if negb (isConnected this) then Throw (Error "device not connected")
  else
    let c := color in
    dv ← readData command.backgroundColor;
    b1 ← dvUint8 dv 1;
    same ← (if bool_decide (Some b1 = c !! 0%nat) then
              b2 ← dvUint8 dv 2;
              if bool_decide (Some b2 = c !! 1%nat) then
                b3 ← dvUint8 dv 3;
                Ret (bool_decide (Some b3 = c !! 2%nat))
              else Ret false
            else Ret false);
    if (same : bool) then Ret Undefined
    else
      sendData command.backgroundColor (Uint8Array (map Some c));;
      modify_cfg (with_backgroundColor (Some [c !! 0%nat; c !! 1%nat; c !! 2%nat]));;
      Ret Undefined.

(** The loop of [setCanvas] that remaps the pixels: [n] iterations from
    index [i], each writing three bytes; a read past the end of the data
    is [undefined]. *)
Fixpoint remapLoop (n i : nat) (data : list Z) : list (option Z) :=
  match n with
  | O => []
  | S n' =>
      data !! (i + 2)%nat :: data !! (i + 1)%nat :: data !! i
      :: remapLoop n' (i + 4)%nat data
  end.

(** [rgb24] after the loop. The array has [(data.length / 4) * 3]
    elements, rounded down, the loop runs while [i < data.length] in
    steps of 4, and a write past the end of [rgb24] is dropped. *)
Definition remapBGR (data : list Z) : list Z :=
  take (length data * 3 / 4)%nat
    (Uint8Array (remapLoop ((length data + 3) / 4)%nat 0 data)).

(** [setCanvas(ctx, offsetX, offsetY, false)]; [data] is
    [ctx.getImageData(offsetX, offsetY, width, height).data]. *)
Definition setCanvas (data : list Z) : proc value :=
  setImage (remapBGR data);;
  Ret Undefined.

(** ** Hexadecimal text *)

Definition hexDigit (n : N) : Ascii.ascii :=
  Ascii.ascii_of_N (if (n <? 10)%N then 48 + n else 87 + n).

(** [b.toString(16)] for an element of a [Uint8Array]. *)
Definition toString16 (b : Byte.byte) : list Ascii.ascii :=
  let n := Byte.to_N b in
  if (n <? 16)%N then [hexDigit n] else [hexDigit (n / 16); hexDigit (n mod 16)].

(** [s.padStart(2, '0')] *)
Definition padStart2 (s : list Ascii.ascii) : list Ascii.ascii :=
  repeat (Ascii.ascii_of_N 48) (2 - length s) ++ s.

(** The loops of [getSvgSigned] that append the bytes of the public key
    and of the signature to the signature block. *)
Fixpoint hexDump (sigBytes : list Byte.byte) : list Ascii.ascii :=
  match sigBytes with
  | [] => []
  | b :: sigBytes' => padStart2 (toString16 b) ++ hexDump sigBytes'
  end.

(** The code unit of a character; the strings of the model are those
    whose code units are below 256. *)
Definition charCode (a : Ascii.ascii) : Z := Z.of_N (Ascii.N_of_ascii a).

(** The value of a hexadecimal digit, of either case. *)
Definition hexValue (a : Ascii.ascii) : option Z :=
  let n := charCode a in
  if (48 <=? n) && (n <=? 57) then Some (n - 48)
  else if (97 <=? n) && (n <=? 102) then Some (n - 87)
  else if (65 <=? n) && (n <=? 70) then Some (n - 55)
  else None.

(** [parseInt("0x" + e, 16)]: the digits in front of [e] are read, and
    without a digit the result is NaN, which is [None]. *)
Fixpoint hexPrefix (acc : option Z) (e : list Ascii.ascii) : option Z :=
  match e with
  | [] => acc
  | a :: e' =>
      match hexValue a with
      | Some v => hexPrefix (Some (16 * default 0 acc + v)) e'
      | None => acc
      end
  end.

Definition parseInt0x (e : list Ascii.ascii) : option Z := hexPrefix None e.

(** [color.replace('#', '')]: the first [#] is removed. *)
Fixpoint removeHash (s : list Ascii.ascii) : list Ascii.ascii :=
  match s with
  | [] => []
  | a :: s' => if charCode a =? 35 then s' else a :: removeHash s'
  end.

(** A character [.] does not match. *)
Definition lineTerminator (a : Ascii.ascii) : bool :=
  (charCode a =? 10) || (charCode a =? 13).

(** [s.split(/(?<=^(?:.{2})+)(?!$)/)]: the string is cut after every
    second character, as far as no line terminator comes before the cut
    and something is left behind it. *)
Fixpoint splitPairs (s : list Ascii.ascii) : list (list Ascii.ascii) :=
  match s with
  | a :: b :: (_ :: _) as rest =>
      if lineTerminator a || lineTerminator b then [s]
      else [a; b] :: splitPairs rest
  | _ => [s]
  end.

(** The array [c] of [setPenColorAndWidth] and [setBackgroundColor],
    before the width is pushed. A piece has at most two digits in front,
    so its value is exact. *)
Definition colorComponents (color : string) : list (option Z) :=
  map parseInt0x (splitPairs (removeHash (list_ascii_of_string color))).

(** The inverse of [hexDump], to state that its text can be read back. *)
Fixpoint readHex (s : list Ascii.ascii) : option (list Z) :=
  match s with
  | [] => Some []
  | a :: b :: s' =>
      h ← hexValue a; l ← hexValue b; r ← readHex s'; Some ((16 * h + l) :: r)
  | _ => None
  end.

(** ** Outcomes of a call *)

(** The devices of a list the loop of [connect] keeps: the pads. *)
Definition pads (l : list hidDevice) : list hidDevice := List.filter is_pad l.

(** Every field of the profile that the negotiation fills is set. *)
Definition negotiated (c : config) : Prop :=
  is_Some (tabletMaxX c) /\ is_Some (tabletMaxY c)
  /\ is_Some (tabletMaxPressure c) /\ is_Some (width c) /\ is_Some (height c)
  /\ is_Some (maxReportRate c) /\ is_Some (scaleFactorX c)
  /\ is_Some (scaleFactorY c) /\ is_Some (deviceName c) /\ is_Some (firmware c)
  /\ is_Some (eSerial c) /\ is_Some (backgroundColor c) /\ is_Some (penColor c)
  /\ is_Some (penWidth c) /\ is_Some (brightness c) /\ is_Some (inkMode c)
  /\ is_Some (writingMode c) /\ is_Some (writingArea c).

(** The call [p] is made in the world [w] and what it awaits first is
    settled with [resp]. *)
Definition settled (w : world) (p : proc value) (resp : response) : world :=
  run w [Call p; Complete (length (pool w)) resp].

(** The world after a call that returns [v] before its first [await]. *)
Definition returned (v : value) (w : world) : world :=
  {| this := this w; pool := pool w;
     trace := trace w ++ [Return (calls w) v]; calls := S (calls w) |}.

(** The world after a call that awaited [r] first, got [resp] and then
    ran to its end in the state [d] with the outcome [ev]. *)
Definition finished (r : request) (resp : response) (d : driver)
    (ev : nat -> event) (w : world) : world :=
  {| this := d; pool := pool w;
     trace := trace w ++ [Issue (calls w) r; Settle (calls w) r resp; ev (calls w)];
     calls := S (calls w) |}.

(** A component of a colour: NaN or a number from 0 to 255. *)
Definition byte_or_nan (c : option Z) : Prop :=
  match c with
  | Some v => is_byte v
  | None => True
  end.


(** How a call ends whose last [await] is settled with [resp]: it
    returns, or it throws the reason of the rejection. *)
Definition outcome (resp : response) (c : nat) : event :=
  match resp with
  | Fulfilled _ => Return c Undefined
  | Reject msg => Raise c (Rejected msg)
  end.

(** The state such a call leaves when [f] is what it does after the
    [await]. *)
Definition commit (resp : response) (f : driver -> driver) (d : driver) : driver :=
  match resp with
  | Fulfilled _ => f d
  | Reject _ => d
  end.

Definition update_cfg (f : config -> config) (d : driver) : driver :=
  set_cfg (f (cfg d)) d.

(** ** An upload that failed *)

(** A suspended call that waits for the device to be free, or the
    callback of a bulk. *)
Definition pending_only (s : suspended) : Prop :=
  (exists c left imageData,
      s = mkSuspended c (SetTimeout 500) (afterWait left imageData) true)
  \/ (exists c e, s = mkSuspended c (dataReport e) afterData false).

(** The device is marked as sending and no call is left that would clear
    the mark. *)
Record stuck (w : world) : Prop := mkStuck {
  stuck_connected : isConnected (this w) = true;
  stuck_sending : deviceIsSending (this w) = true;
  stuck_pool : Forall pending_only (pool w)
}.

(** The calls that have returned. *)
Fixpoint returns (tr : list event) : list nat :=
  match tr with
  | [] => []
  | Return c _ :: tr' => c :: returns tr'
  | _ :: tr' => returns tr'
  end.

(** ** What stays of a drawing *)

(** Every polyline of [old] is still there in [new], at its place, with
    its colour and its width, and with its points in front of the points
    it has now. *)
Definition kept (old new : list polyline) : Prop :=
  forall i seg,
    old !! i = Some seg ->
    exists seg',
      new !! i = Some seg'
      /\ stroke seg' = stroke seg
      /\ stroke_width seg' = stroke_width seg
      /\ exists pts, points seg' = points seg ++ pts.
Section SplitToBulks.

Lemma bulk_length arr bulkSize i : length (bulk arr bulkSize i) = bulkSize.
Proof. unfold bulk. now rewrite length_map, length_seq. Qed.

Lemma occupied_window (arr : list Z) (n k : nat) :
  omap id (map (fun z => arr !! (k + z)%nat) (List.seq 0 n)) = take n (drop k arr).
Proof.
  revert k. induction n as [|n IH]; intros k.
  - now rewrite take_0.
  - cbn [List.seq map]. rewrite <- seq_shift, map_map.
    rewrite Nat.add_0_r.
    destruct (arr !! k) as [b|] eqn:Hk.
    + cbn. rewrite (drop_S _ _ _ Hk). cbn. f_equal.
      rewrite <- (IH (S k)). f_equal. apply map_ext. intros z.
      f_equal. lia.
    + cbn. rewrite (drop_ge arr k) by (now apply lookup_ge_None).
      rewrite take_nil.
      assert (Hnone : forall z, arr !! (k + S z)%nat = None).
      { intros z. apply lookup_ge_None. apply lookup_ge_None in Hk. lia. }
      clear IH. generalize (List.seq 0 n). intros l.
      induction l as [|a l IHl]; [reflexivity|]. cbn. now rewrite Hnone.
Qed.

Lemma occupied_bulk arr bulkSize i :
  occupied (bulk arr bulkSize i) = take bulkSize (drop (i * bulkSize) arr).
Proof. apply occupied_window. Qed.

Lemma concat_windows (arr : list Z) (bulkSize n : nat) :
  concat (map (fun i => take bulkSize (drop (i * bulkSize) arr)) (List.seq 0 n))
  = take (n * bulkSize) arr.
Proof.
  induction n as [|n IH].
  - now rewrite take_0.
  - rewrite seq_S, map_app, concat_app, IH. cbn [map concat Nat.add].
    rewrite app_nil_r.
    rewrite <- (take_drop (n * bulkSize) (take (S n * bulkSize) arr)).
    rewrite take_take, skipn_firstn_comm.
    f_equal; f_equal; lia.
Qed.

Lemma ceil_covers (len bulkSize : nat) :
  (0 < bulkSize)%nat -> (len <= (len + bulkSize - 1) / bulkSize * bulkSize)%nat.
Proof.
  intros Hb.
  pose proof (Nat.div_mod_eq (len + bulkSize - 1) bulkSize) as E.
  pose proof (Nat.mod_upper_bound (len + bulkSize - 1) bulkSize) as U.
  nia.
Qed.

(** The number of bulks is the ceiling of the quotient. *)
Lemma splitToBulks_count arr bulkSize bulks :
  (0 < bulkSize)%nat ->
  splitToBulks arr bulkSize = Some bulks ->
  length bulks = ((length arr + bulkSize - 1) / bulkSize)%nat
  /\ (length bulks * bulkSize < length arr + bulkSize)%nat
  /\ (length arr <= length bulks * bulkSize)%nat.
Proof.
  intros Hb. unfold splitToBulks, bulkCount.
  destruct bulkSize as [|b]; [lia|]. cbn [mbind option_bind].
  intros H. apply (inj Some) in H. subst bulks.
  rewrite length_map, length_seq. split; [reflexivity|]. split.
  - pose proof (Nat.div_mod_eq (length arr + S b - 1) (S b)) as E.
    pose proof (Nat.mod_upper_bound (length arr + S b - 1) (S b)) as U.
    nia.
  - apply ceil_covers. lia.
Qed.

(** The bulks, holes dropped, give the image back. *)
Lemma splitToBulks_concat arr bulkSize bulks :
  splitToBulks arr bulkSize = Some bulks ->
  concat (map occupied bulks) = arr.
Proof.
  unfold splitToBulks, bulkCount.
  destruct bulkSize as [|b].
  - destruct (length arr =? 0)%nat eqn:E; [|discriminate].
    cbn. intros [= <-]. apply Nat.eqb_eq in E. symmetry. now apply nil_length_inv.
  - cbn [mbind option_bind]. intros H. apply (inj Some) in H. subst bulks.
    rewrite map_map.
    rewrite (map_ext _ (fun i => take (S b) (drop (i * S b) arr)))
      by (intros; apply occupied_bulk).
    rewrite concat_windows. apply take_ge.
    apply ceil_covers. lia.
Qed.

Lemma splitToBulks_total arr bulkSize :
  (0 < bulkSize)%nat -> is_Some (splitToBulks arr bulkSize).
Proof.
  intros Hb. unfold splitToBulks, bulkCount.
  destruct bulkSize; [lia|]. cbn. eauto.
Qed.

Lemma splitToBulks_bulk_length arr bulkSize bulks e :
  splitToBulks arr bulkSize = Some bulks -> In e bulks -> length e = bulkSize.
Proof.
  unfold splitToBulks. destruct (bulkCount _ _); [|discriminate].
  cbn. intros [= <-] Hin. apply in_map_iff in Hin as (i & <- & _).
  apply bulk_length.
Qed.

End SplitToBulks.

(** ** Pen reports *)

Section PenReports.

(** [Math.round] of a number with a fractional part is the integer [n]
    with [n - 1/2 <= x < n + 1/2]; here [x] is [sm / d]. *)
Lemma Math_round_nearest (s : bool) (m : positive) (e : Z) :
  e < 0 ->
  let d := 2 ^ (- e) in
  let sm := if s then Z.neg m else Z.pos m in
  exists n : Z,
    (2 * n - 1) * d <= 2 * sm < (2 * n + 1) * d
    /\ Math_round (S754_finite s m e) = (if n =? 0 then S754_zero s else of_Z n).
Proof.
  intros He d sm.
  assert (Hd : 0 < d) by (apply Z.pow_pos_nonneg; lia).
  exists ((2 * sm + d) / (2 * d)). split.
  - pose proof (Z.div_mod (2 * sm + d) (2 * d)) as E.
    pose proof (Z.mod_pos_bound (2 * sm + d) (2 * d)) as B.
    nia.
  - unfold Math_round. destruct (0 <=? e) eqn:E0; [apply Z.leb_le in E0; lia|].
    reflexivity.
Qed.

(** A number without fractional part is left as it is. *)
Lemma Math_round_integer (s : bool) (m : positive) (e : Z) :
  0 <= e -> Math_round (S754_finite s m e) = S754_finite s m e.
Proof.
  intros He. unfold Math_round. now apply Z.leb_le in He as ->.
Qed.

Lemma land_low10 (w : Z) : Z.land w 0x3FF = w mod 1024.
Proof. change 0x3FF with (Z.ones 10). now rewrite Z.land_ones by lia. Qed.

Lemma penPacket_fields (c : config) (reportId b0 b1 b2 b3 b4 b5 : Z)
      (rest : list Z) (p : packet) :
  penPacket c reportId (b0 :: b1 :: b2 :: b3 :: b4 :: b5 :: rest) = Some p ->
  let w := b0 * 256 + b1 in
  rdy p = negb (Z.land w 0x8000 =? 0)
  /\ sw p = negb (Z.land w 0x1000 =? 0)
  /\ press p = w mod 1024
  /\ cpress p = div (of_Z (press p)) (of_Z (nullZ (tabletMaxPressure c)))
  /\ x p = b2 * 256 + b3
  /\ y p = b4 * 256 + b5
  /\ cx p = Math_round (div (of_Z (x p)) (nullNum (scaleFactorX c)))
  /\ cy p = Math_round (div (of_Z (y p)) (nullNum (scaleFactorY c))).
Proof.
  intros H w. unfold penPacket in H. cbn [getUint16 lookup list_lookup mbind option_bind] in H.
  fold w in H.
  destruct (reportId =? command.penDataTiming).
  - destruct rest as [|b6 [|b7 [|b8 [|b9 rest]]]]; cbn in H; try discriminate.
    injection H as <-. cbn. rewrite land_low10. repeat split.
  - injection H as <-. cbn. rewrite land_low10. repeat split.
Qed.

Lemma penPacket_penData (c : config) (b0 b1 b2 b3 b4 b5 : Z) (rest : list Z) :
  exists p,
    penPacket c command.penData (b0 :: b1 :: b2 :: b3 :: b4 :: b5 :: rest) = Some p
    /\ seq p = None /\ time p = None.
Proof. eexists. split; [reflexivity|]. split; reflexivity. Qed.

Lemma penPacket_penDataTiming (c : config) (b0 b1 b2 b3 b4 b5 b6 b7 b8 b9 : Z)
      (rest : list Z) :
  exists p,
    penPacket c command.penDataTiming
      (b0 :: b1 :: b2 :: b3 :: b4 :: b5 :: b6 :: b7 :: b8 :: b9 :: rest) = Some p
    /\ time p = Some (b6 * 256 + b7) /\ seq p = Some (b8 * 256 + b9).
Proof. eexists. split; [reflexivity|]. split; reflexivity. Qed.

(** The capability read of [connect]: the scale factor of each axis is
    the quotient of that axis. *)
Lemma capability_fields (b0 b1 b2 b3 b4 b5 b6 b7 b8 b9 b10 b11 : Z) (rest : list Z) :
  let w := run (start new_driver)
      [Call connect;
       Complete 0 (Fulfilled (Devices [Some Examples.pad]));
       Complete 0 (Fulfilled Undefined);
       Complete 0 (Fulfilled (DataView
         (b0 :: b1 :: b2 :: b3 :: b4 :: b5 :: b6 :: b7 :: b8 :: b9 :: b10 :: b11 :: rest)))] in
  let c := cfg (this w) in
  tabletMaxX c = Some (b1 * 256 + b2) /\ tabletMaxY c = Some (b3 * 256 + b4)
  /\ tabletMaxPressure c = Some (b5 * 256 + b6)
  /\ width c = Some (b7 * 256 + b8) /\ height c = Some (b9 * 256 + b10)
  /\ scaleFactorX c = Some (div (of_Z (b1 * 256 + b2)) (of_Z (b7 * 256 + b8)))
  /\ scaleFactorY c = Some (div (of_Z (b3 * 256 + b4)) (of_Z (b9 * 256 + b10))).
Proof. intros w c. repeat split. Qed.

(** C6. A report with the pen-data id (six bytes or more) or the
    pen-data-with-timing id (ten bytes or more) is decoded into a sample
    whose raw pressure is the low 10 bits of the big-endian status word,
    whose normalized pressure is the raw pressure divided by the maximal
    pressure of the configuration, whose X and Y are the big-endian
    16-bit words that follow, and whose display coordinates are X and Y
    divided by the scale factor of their axis and rounded by
    [Math.round], which yields the integer [n] with
    [n - 1/2 <= q < n + 1/2]; the scale factor of an axis is the
    quotient of the tablet maximum and the display size of that axis,
    as [connect] reads them. After a capability report with tabletMax
    (20000, 12000) and display (800, 480) both scale factors are 25 and
    the tablet point (5000, 2500) is decoded to the pixel (200, 100). *)
Theorem pen_report_decoding :
  (forall c b0 b1 b2 b3 b4 b5 rest,
      exists p,
        penPacket c command.penData (b0 :: b1 :: b2 :: b3 :: b4 :: b5 :: rest)
        = Some p
        /\ decoded c b0 b1 b2 b3 b4 b5 p)
  /\ (forall c b0 b1 b2 b3 b4 b5 b6 b7 b8 b9 rest,
      exists p,
        penPacket c command.penDataTiming
          (b0 :: b1 :: b2 :: b3 :: b4 :: b5 :: b6 :: b7 :: b8 :: b9 :: rest)
        = Some p
        /\ decoded c b0 b1 b2 b3 b4 b5 p)
  /\ (forall (s : bool) (m k : positive),
      let d := 2 ^ Z.pos k in
      let sm := if s then Z.neg m else Z.pos m in
      exists n : Z,
        (2 * n - 1) * d <= 2 * sm < (2 * n + 1) * d
        /\ Math_round (S754_finite s m (Z.neg k))
           = (if n =? 0 then S754_zero s else of_Z n))
  /\ (forall b0 b1 b2 b3 b4 b5 b6 b7 b8 b9 b10 b11 rest,
      let c := cfg (this (run (start new_driver)
        [Call connect;
         Complete 0 (Fulfilled (Devices [Some Examples.pad]));
         Complete 0 (Fulfilled Undefined);
         Complete 0 (Fulfilled (DataView
           (b0 :: b1 :: b2 :: b3 :: b4 :: b5 :: b6 :: b7 :: b8 :: b9 :: b10
               :: b11 :: rest)))])) in
      scaleFactorX c
      = Some (div (of_Z (nullZ (tabletMaxX c))) (of_Z (nullZ (width c))))
      /\ scaleFactorY c
         = Some (div (of_Z (nullZ (tabletMaxY c))) (of_Z (nullZ (height c)))))
  /\ (let c := cfg (this Examples.after_capability) in
      tabletMaxX c = Some 20000 /\ tabletMaxY c = Some 12000
      /\ width c = Some 800 /\ height c = Some 480
      /\ scaleFactorX c = Some (of_Z 25) /\ scaleFactorY c = Some (of_Z 25)
      /\ exists p,
          penPacket c command.penData Examples.pen_report = Some p
          /\ x p = 5000 /\ y p = 2500
          /\ cx p = of_Z 200 /\ cy p = of_Z 100).
Proof.
  split; [|split; [|split; [|split]]].
  - intros c b0 b1 b2 b3 b4 b5 rest.
    destruct (penPacket_penData c b0 b1 b2 b3 b4 b5 rest) as (p & Hp & _).
    exists p. split; [exact Hp|].
    destruct (penPacket_fields _ _ _ _ _ _ _ _ _ _ Hp) as (_ & _ & H).
    exact H.
  - intros c b0 b1 b2 b3 b4 b5 b6 b7 b8 b9 rest.
    destruct (penPacket_penDataTiming c b0 b1 b2 b3 b4 b5 b6 b7 b8 b9 rest)
      as (p & Hp & _).
    exists p. split; [exact Hp|].
    destruct (penPacket_fields _ _ _ _ _ _ _ _ _ _ Hp) as (_ & _ & H).
    exact H.
  - intros s m k. apply (Math_round_nearest s m (Z.neg k)). lia.
  - intros. split; reflexivity.
  - vm_compute. repeat split. eexists. repeat split.
Qed.

End PenReports.

(** ** Stroke reconstruction *)

Ltac sync_unfold :=
  unfold mbind, sync_bind, sbind, mret, sync_ret, sret, sget, smodify, sthrow.

Section Strokes.

Lemma sbind_unit_ret (m : sync unit) (this : driver) :
  (m ≫= λ _, mret tt) this = m this.
Proof.
  sync_unfold. destruct (m this) as [[[]|e] st]; reflexivity.
Qed.

Lemma last_lookup_snoc (path : list packet) (p : packet) :
  (if (0 <? length path)%nat then (path ++ [p]) !! (length path - 1)%nat else None)
  = last path.
Proof.
  destruct path as [|q path] using rev_ind; [reflexivity|].
  rewrite length_app. cbn [length].
  replace (0 <? length path + 1)%nat with true by (symmetry; apply Nat.ltb_lt; lia).
  rewrite last_snoc.
  rewrite lookup_app_l by (rewrite length_app; cbn; lia).
  replace (length path + 1 - 1)%nat with (length path) by lia.
  now rewrite list_lookup_middle.
Qed.

(** A report that arrives is drawn by one run of the loop body, with
    the sample that arrived before it as [prevPoint]. *)
Lemma storePacket_eq (p : packet) (this : driver) :
  storePacket p this
  = drawSample (last (signaturePath this)) p
      (set_signaturePath (signaturePath this ++ [p]) this).
Proof.
  unfold storePacket.
  unfold mbind at 1 2 3, sync_bind, sbind, sget, smodify.
  cbn [signaturePath set_signaturePath].
  unfold drawSignaturePathToCanvas.
  unfold mbind at 1, sync_bind, sbind, sget. cbn [signaturePath set_signaturePath].
  rewrite length_app. cbn [length].
  replace (length (signaturePath this) + 1 - 1)%nat
    with (length (signaturePath this)) by lia.
  replace (length (signaturePath this) + 1 - length (signaturePath this))%nat
    with 1%nat by lia.
  cbn [drawLoop]. rewrite sbind_unit_ret.
  unfold drawPoint. unfold mbind at 1, sync_bind, sbind, sget.
  cbn [signaturePath set_signaturePath].
  rewrite list_lookup_middle by reflexivity.
  now rewrite last_lookup_snoc.
Qed.

Lemma inked_cfg (a b : driver) (p : packet) :
  cfg a = cfg b -> inked a p = inked b p.
Proof. unfold inked, isInWritingArea. now intros ->. Qed.

(** *** The four cases of the loop body *)

Lemma drawSample_skip prev p this :
  inked this p = false ->
  drawSample prev p this
  = (inl tt, match svgPolyLine this with
             | NoLine => this
             | _ => set_svgPolyLine NoLine this
             end).
Proof.
  intros Hi. unfold drawSample. sync_unfold. rewrite Hi.
  destruct (svgPolyLine this); reflexivity.
Qed.

Lemma drawSample_start prev p this c :
  inked this p = true ->
  penColor (cfg this) = Some c ->
  svgPolyLine this = NoLine ->
  drawSample prev p this
  = (inl tt,
     {| cfg := cfg this; device := device this;
        signaturePath := signaturePath this;
        svgElement :=
          svgElement this ++ [mkPolyline c (strokeWidth this) [(cx p, cy p)]];
        svgPolyLine := Child (length (svgElement this));
        deviceIsSending := deviceIsSending this |}).
Proof.
  intros Hi Hc Hl. unfold drawSample. sync_unfold. rewrite Hi, Hl.
  unfold startPolyLine. rewrite Hc. unfold addPolyPoint.
  cbn [svgPolyLine set_svgElement set_svgPolyLine svgElement].
  f_equal. unfold set_svgElement.
  cbn [cfg device signaturePath svgElement svgPolyLine deviceIsSending set_svgPolyLine].
  f_equal.
  replace (length (svgElement this)) with (length (svgElement this) + 0)%nat
    at 1 by lia.
  now rewrite alter_app_r.
Qed.

Lemma drawSample_continue prev p this k :
  inked this p = true ->
  svgPolyLine this = Child k ->
  pressure_jump prev p = false ->
  drawSample prev p this
  = (inl tt,
     {| cfg := cfg this; device := device this;
        signaturePath := signaturePath this;
        svgElement := alter (add_point (cx p, cy p)) k (svgElement this);
        svgPolyLine := Child k;
        deviceIsSending := deviceIsSending this |}).
Proof.
  intros Hi Hl Hj. unfold drawSample. sync_unfold. rewrite Hi, Hl, Hj.
  unfold addPolyPoint. rewrite Hl. unfold set_svgElement. now rewrite Hl.
Qed.

Lemma drawSample_junction prev p this k c :
  inked this p = true ->
  penColor (cfg this) = Some c ->
  svgPolyLine this = Child k ->
  pressure_jump prev p = true ->
  drawSample prev p this
  = (inl tt,
     {| cfg := cfg this; device := device this;
        signaturePath := signaturePath this;
        svgElement :=
          alter (add_point (cx p, cy p)) k (svgElement this)
          ++ [mkPolyline c (strokeWidth this) [(cx p, cy p)]];
        svgPolyLine := Child (length (svgElement this));
        deviceIsSending := deviceIsSending this |}).
Proof.
  intros Hi Hc Hl Hj. unfold drawSample. sync_unfold. rewrite Hi, Hl, Hj.
  destruct this as [c0 d sp svg pl ds]. cbn in Hc, Hl. subst pl.
  unfold addPolyPoint, startPolyLine, set_svgElement, set_svgPolyLine, strokeWidth.
  cbn [cfg device signaturePath svgElement svgPolyLine deviceIsSending].
  rewrite Hc.
  cbn [cfg device signaturePath svgElement svgPolyLine deviceIsSending].
  rewrite length_alter. f_equal. f_equal.
  set (l := alter _ k _).
  replace (length svg) with (length l + 0)%nat
    by (unfold l; rewrite length_alter; lia).
  now rewrite alter_app_r.
Qed.

(** The loop body leaves everything but the svg element and the open
    polyline as it is. *)
Lemma drawSample_frame prev p this :
  let st := snd (drawSample prev p this) in
  cfg st = cfg this /\ signaturePath st = signaturePath this
  /\ device st = device this /\ deviceIsSending st = deviceIsSending this.
Proof.
  unfold drawSample. sync_unfold.
  unfold startPolyLine, addPolyPoint, set_svgElement, set_svgPolyLine.
  destruct this as [c0 d sp svg pl ds].
  cbn [cfg device signaturePath svgElement svgPolyLine deviceIsSending].
  destruct (inked _ p); destruct pl; destruct (pressure_jump prev p);
    cbn; destruct (penColor c0); cbn; auto.
Qed.

(** With a pen color the loop body does not throw. *)
Lemma drawSample_ok prev p this c :
  penColor (cfg this) = Some c -> fst (drawSample prev p this) = inl tt.
Proof.
  intros Hc. unfold drawSample. sync_unfold.
  unfold startPolyLine, addPolyPoint, set_svgElement, set_svgPolyLine.
  destruct this as [c0 d sp svg pl ds]. cbn in Hc.
  cbn [cfg device signaturePath svgElement svgPolyLine deviceIsSending].
  destruct (inked _ p); destruct pl; destruct (pressure_jump prev p);
    cbn; rewrite ?Hc; reflexivity.
Qed.

Lemma all_points_alter P pt k svg :
  P pt -> all_points P svg -> all_points P (alter (add_point pt) k svg).
Proof.
  intros Hp Hs. apply Forall_alter; [exact Hs|].
  intros seg _ Hseg. cbn. apply Forall_app. split; [exact Hseg|].
  now constructor.
Qed.

Lemma all_points_snoc P svg c w pts :
  all_points P svg -> Forall P pts -> all_points P (svg ++ [mkPolyline c w pts]).
Proof.
  intros Hs Hp. apply Forall_app. split; [exact Hs|]. now constructor.
Qed.

(** Every point of the svg element was there before the loop body ran,
    or is the point of the sample, which is then inked. *)
Lemma drawSample_all_points (P : number * number -> Prop) prev p this :
  all_points P (svgElement this) ->
  (inked this p = true -> P (cx p, cy p)) ->
  all_points P (svgElement (snd (drawSample prev p this))).
Proof.
  intros Hs Hp. unfold drawSample. sync_unfold.
  unfold startPolyLine, addPolyPoint, set_svgElement, set_svgPolyLine.
  destruct this as [c0 d sp svg pl ds]. cbn in Hs.
  cbn [cfg device signaturePath svgElement svgPolyLine deviceIsSending] in *.
  destruct (inked _ p).
  - specialize (Hp eq_refl).
    destruct pl; destruct (pressure_jump prev p); cbn;
      destruct (penColor c0); cbn;
      auto using all_points_alter, all_points_snoc.
  - destruct pl; cbn; exact Hs.
Qed.

Lemma receive_app l1 l2 this :
  receive (l1 ++ l2) this = receive l2 (receive l1 this).
Proof. unfold receive. apply fold_left_app. Qed.

Lemma receive_cons p l this :
  receive (p :: l) this = receive l (snd (storePacket p this)).
Proof. reflexivity. Qed.

Lemma storePacket_cfg p this : cfg (snd (storePacket p this)) = cfg this.
Proof.
  rewrite storePacket_eq.
  now destruct (drawSample_frame (last (signaturePath this)) p
                  (set_signaturePath (signaturePath this ++ [p]) this)) as (-> & _).
Qed.

Lemma storePacket_path p this :
  signaturePath (snd (storePacket p this)) = signaturePath this ++ [p].
Proof.
  rewrite storePacket_eq.
  now destruct (drawSample_frame (last (signaturePath this)) p
                  (set_signaturePath (signaturePath this ++ [p]) this))
    as (_ & -> & _).
Qed.

Lemma receive_cfg l this : cfg (receive l this) = cfg this.
Proof.
  revert this. induction l as [|p l IH]; intros this; [reflexivity|].
  rewrite receive_cons, IH. apply storePacket_cfg.
Qed.

Lemma receive_path l this :
  signaturePath (receive l this) = signaturePath this ++ l.
Proof.
  revert this. induction l as [|p l IH]; intros this.
  - now rewrite app_nil_r.
  - rewrite receive_cons, IH, storePacket_path. now rewrite <- app_assoc.
Qed.

(** No point outside the writing area is ever drawn. *)
Lemma receive_all_points (P : number * number -> Prop) l this :
  (forall p, inked this p = true -> P (cx p, cy p)) ->
  all_points P (svgElement this) ->
  all_points P (svgElement (receive l this)).
Proof.
  revert this. induction l as [|p l IH]; intros this HP Hs; [exact Hs|].
  rewrite receive_cons. apply IH.
  - intros q Hq. apply HP. rewrite <- Hq. symmetry.
    apply inked_cfg. apply storePacket_cfg.
  - rewrite storePacket_eq. apply drawSample_all_points; [exact Hs|].
    intros Hi. apply HP. rewrite <- Hi. now apply inked_cfg.
Qed.

Lemma inked_inside this p :
  inked this p = true -> isInWritingArea this (cx p) (cy p) = true.
Proof. unfold inked. intros H. now apply andb_prop in H as [_ H]. Qed.

(** A sample that is not inked closes the open polyline and leaves the
    svg element as it is. *)
Lemma storePacket_not_inked p this :
  inked this p = false ->
  let r := storePacket p this in
  fst r = inl tt
  /\ svgElement (snd r) = svgElement this
  /\ svgPolyLine (snd r) = NoLine.
Proof.
  intros Hi. cbv zeta. rewrite storePacket_eq, drawSample_skip.
  - destruct this as [c0 d sp svg pl ds]. cbn. destruct pl; cbn; auto.
  - rewrite <- Hi. now apply inked_cfg.
Qed.


End Strokes.

(** ** The writing area *)

Section WritingArea.

Lemma SFcompare_antisym (a b : number) :
  SFcompare b a = option_map CompOpp (SFcompare a b).
Proof.
  destruct a as [sa|sa| |sa ma ea], b as [sb|sb| |sb mb eb]; cbn;
    try reflexivity; try (destruct sa; reflexivity); try (destruct sb; reflexivity);
    try (destruct sa, sb; reflexivity).
  destruct sa, sb; cbn; try reflexivity.
  - rewrite (Z.compare_antisym ea eb).
    destruct (ea ?= eb); cbn; try reflexivity.
    change (Pos.compare_cont Eq) with Pos.compare.
    now rewrite (Pos.compare_antisym ma mb).
  - rewrite (Z.compare_antisym ea eb).
    destruct (ea ?= eb); cbn; try reflexivity.
    change (Pos.compare_cont Eq) with Pos.compare.
    rewrite (Pos.compare_antisym ma mb).
    now destruct (ma ?= mb)%positive.
Qed.

(** [a <= b] excludes [b < a]. *)
Lemma le_not_gt (a b : number) : le a b = true -> lt b a = false.
Proof.
  unfold le, lt, SFleb, SFltb. rewrite (SFcompare_antisym a b).
  destruct (SFcompare a b) as [[]|]; cbn; congruence.
Qed.

Lemma isInWritingArea_false this x1 y1 x2 y2 px py :
  writingArea (cfg this) = Some (x1, y1, x2, y2) ->
  isInWritingArea this px py = false
  <-> (lt px x1 = true \/ gt px x2 = true \/ lt py y1 = true \/ gt py y2 = true).
Proof.
  intros Ha. unfold isInWritingArea. rewrite Ha.
  destruct (lt px x1), (gt px x2), (lt py y1), (gt py y2); cbn; intuition congruence.
Qed.

Lemma isInWritingArea_inclusive this x1 y1 x2 y2 px py :
  writingArea (cfg this) = Some (x1, y1, x2, y2) ->
  le x1 px = true -> le px x2 = true -> le y1 py = true -> le py y2 = true ->
  isInWritingArea this px py = true.
Proof.
  intros Ha H1 H2 H3 H4. unfold isInWritingArea. rewrite Ha.
  apply le_not_gt in H1, H2, H3, H4. unfold gt, lt in *.
  now rewrite H1, H2, H3, H4.
Qed.

Lemma isInWritingArea_unset this px py :
  writingArea (cfg this) = None -> isInWritingArea this px py = true.
Proof. intros Ha. unfold isInWritingArea. now rewrite Ha. Qed.

(** C8. The test of the writing area fails exactly when a coordinate
    is below the lower or above the upper bound of its axis, so a point
    on a bound passes; an unset writing area admits every point; a
    sample whose display coordinates fail the test leaves every
    polyline as it is; and however many samples arrive, every point of
    every polyline passes the test. *)
Theorem writing_area_clipping :
  (forall this x1 y1 x2 y2 px py,
      writingArea (cfg this) = Some (x1, y1, x2, y2) ->
      (isInWritingArea this px py = false
       <-> (lt px x1 = true \/ gt px x2 = true
            \/ lt py y1 = true \/ gt py y2 = true))
      /\ (le x1 px = true -> le px x2 = true ->
          le y1 py = true -> le py y2 = true ->
          isInWritingArea this px py = true))
  /\ (forall this px py,
      writingArea (cfg this) = None -> isInWritingArea this px py = true)
  /\ (forall this p,
      isInWritingArea this (cx p) (cy p) = false ->
      svgElement (snd (storePacket p this)) = svgElement this)
  /\ (forall this l,
      all_points (inside this) (svgElement this) ->
      all_points (inside this) (svgElement (receive l this))).
Proof.
  split; [|split; [|split]].
  - intros this x1 y1 x2 y2 px py Ha. split.
    + now apply isInWritingArea_false.
    + now apply isInWritingArea_inclusive.
  - apply isInWritingArea_unset.
  - intros this p Ho.
    apply (storePacket_not_inked p this).
    unfold inked. rewrite Ho. apply andb_false_r.
  - intros this l Hs. apply receive_all_points; [|exact Hs].
    intros p Hp. now apply inked_inside.
Qed.

Lemma writing_area_clipping_witness :
  let this := Examples.clipped in
  isInWritingArea this (of_Z 100) (of_Z 200) = true
  /\ isInWritingArea this (of_Z 99) (of_Z 200) = false
  /\ svgElement (snd (storePacket (Examples.light 1250 1250) this)) = svgElement this
  /\ all_points (inside this)
       (svgElement (receive [Examples.light 3750 3750; Examples.light 1250 1250] this)).
Proof.
  destruct writing_area_clipping as (H1 & _ & H3 & H4).
  cbv zeta. split; [|split; [|split]].
  - apply (H1 Examples.clipped (of_Z 100) (of_Z 100) (of_Z 200) (of_Z 200));
      reflexivity.
  - apply (H1 Examples.clipped (of_Z 100) (of_Z 100) (of_Z 200) (of_Z 200));
      [reflexivity|]. left. reflexivity.
  - apply H3. reflexivity.
  - apply H4. constructor.
Defined.

End WritingArea.

(** ** Segments of a stroke *)

Section Segments.

(** C10. A sample whose proximity flag is clear is not drawn, whatever
    its contact flag, the ink mode and its position are: the handler
    returns, the open polyline is closed and the svg element is left as
    it is. *)
Theorem proximity_required (this : driver) (p : packet) :
  rdy p = false ->
  let r := storePacket p this in
  fst r = inl tt
  /\ svgPolyLine (snd r) = NoLine
  /\ svgElement (snd r) = svgElement this.
Proof.
  intros Hr.
  destruct (storePacket_not_inked p this) as (H1 & H2 & H3).
  - unfold inked. now rewrite Hr.
  - cbv zeta. auto.
Qed.

Lemma proximity_required_witness :
  let this := receive [Examples.light 5000 2500] Examples.connected in
  let p := Examples.contact_only 5000 2500 in
  (sw p = true /\ inkMode (cfg this) = Some true
   /\ isInWritingArea this (cx p) (cy p) = true
   /\ svgPolyLine this = Child 0)
  /\ fst (storePacket p this) = inl tt
  /\ svgPolyLine (snd (storePacket p this)) = NoLine
  /\ svgElement (snd (storePacket p this)) = svgElement this.
Proof.
  cbv zeta. split.
  - repeat split.
  - apply (proximity_required
             (receive [Examples.light 5000 2500] Examples.connected)
             (Examples.contact_only 5000 2500)).
    reflexivity.
Defined.

Lemma open_last_intro this segs seg :
  svgElement this = segs ++ [seg] -> svgPolyLine this = Child (length segs) ->
  open_last this.
Proof. intros. exists segs, seg. auto. Qed.

(** An inked sample that arrives while a polyline is open. *)
Lemma storePacket_open p this prev c segs seg :
  penColor (cfg this) = Some c ->
  svgElement this = segs ++ [seg] ->
  svgPolyLine this = Child (length segs) ->
  last (signaturePath this) = Some prev ->
  inked this p = true ->
  let st := snd (storePacket p this) in
  let pt := (cx p, cy p) in
  if gt (Math_abs (sub (cpress p) (cpress prev))) lit_0_02 then
    exists new,
      svgElement st = segs ++ [add_point pt seg; new]
      /\ points new = [pt] /\ stroke new = c
      /\ svgPolyLine st = Child (S (length segs))
  else
    svgElement st = segs ++ [add_point pt seg]
    /\ svgPolyLine st = Child (length segs).
Proof.
  intros Hc Hs Hl Hp Hi. cbv zeta. rewrite storePacket_eq, Hp.
  set (this1 := set_signaturePath (signaturePath this ++ [p]) this).
  assert (Hi1 : inked this1 p = true) by (rewrite <- Hi; now apply inked_cfg).
  assert (Halter : alter (add_point (cx p, cy p)) (length segs) (segs ++ [seg])
                   = segs ++ [add_point (cx p, cy p) seg]).
  { replace (length segs) with (length segs + 0)%nat at 1 by lia.
    now rewrite alter_app_r. }
  change (gt (Math_abs (sub (cpress p) (cpress prev))) lit_0_02)
    with (pressure_jump (Some prev) p).
  destruct (pressure_jump (Some prev) p) eqn:Hj.
  - rewrite (drawSample_junction (Some prev) p this1 (length segs) c Hi1 Hc Hl Hj).
    cbn [snd svgElement svgPolyLine]. unfold this1. cbn [svgElement set_signaturePath].
    rewrite Hs, Halter. eexists. rewrite <- app_assoc. cbn [app].
    split; [reflexivity|]. split; [reflexivity|]. split; [reflexivity|].
    rewrite length_app. cbn. f_equal. lia.
  - rewrite (drawSample_continue (Some prev) p this1 (length segs) Hi1 Hl Hj).
    cbn [snd svgElement svgPolyLine]. unfold this1. cbn [svgElement set_signaturePath].
    now rewrite Hs, Halter.
Qed.

(** An inked sample that arrives while no polyline is open. *)
Lemma storePacket_closed p this c :
  penColor (cfg this) = Some c ->
  svgPolyLine this = NoLine ->
  inked this p = true ->
  let st := snd (storePacket p this) in
  exists new,
    svgElement st = svgElement this ++ [new]
    /\ points new = [(cx p, cy p)] /\ stroke new = c
    /\ svgPolyLine st = Child (length (svgElement this)).
Proof.
  intros Hc Hl Hi. cbv zeta. rewrite storePacket_eq.
  set (this1 := set_signaturePath (signaturePath this ++ [p]) this).
  assert (Hi1 : inked this1 p = true) by (rewrite <- Hi; now apply inked_cfg).
  rewrite (drawSample_start _ p this1 c Hi1 Hc Hl).
  eexists. cbn. repeat split.
Qed.

(** The samples of a stroke after its first: one more polyline for
    every crossing. *)
Lemma receive_open l : forall this prev c,
  penColor (cfg this) = Some c ->
  open_last this ->
  last (signaturePath this) = Some prev ->
  Forall (fun p => inked this p = true) l ->
  length (svgElement (receive l this))
  = (length (svgElement this) + crossings_from prev l)%nat
  /\ open_last (receive l this).
Proof.
  induction l as [|p l IH]; intros this prev c Hc Ho Hp Hall.
  - cbn. split; [lia|exact Ho].
  - apply Forall_cons in Hall as [Hi Hall].
    destruct Ho as (segs & seg & Hs & Hl).
    rewrite receive_cons.
    pose proof (storePacket_open p this prev c segs seg Hc Hs Hl Hp Hi) as Hst.
    cbv zeta in Hst.
    set (st := snd (storePacket p this)) in *.
    assert (Hcfg : cfg st = cfg this) by apply storePacket_cfg.
    assert (Hc' : penColor (cfg st) = Some c) by now rewrite Hcfg.
    assert (Hp' : last (signaturePath st) = Some p).
    { unfold st. rewrite storePacket_path. apply last_snoc. }
    assert (Hall' : Forall (fun q => inked st q = true) l).
    { eapply Forall_impl; [exact Hall|]. intros q Hq. cbn beta in *.
      rewrite <- Hq. now apply inked_cfg. }
    cbn [crossings_from].
    destruct (gt (Math_abs (sub (cpress p) (cpress prev))) lit_0_02).
    + destruct Hst as (new & Hs' & _ & _ & Hl').
      destruct (IH st p c Hc' (open_last_intro st (segs ++ [add_point (cx p, cy p) seg]) new
                  ltac:(rewrite Hs', <- app_assoc; reflexivity)
                  ltac:(rewrite Hl', length_app; cbn; f_equal; lia)) Hp' Hall')
        as (Hlen & Ho').
      split; [|exact Ho']. rewrite Hlen, Hs', Hs, !length_app. cbn. lia.
    + destruct Hst as (Hs' & Hl').
      destruct (IH st p c Hc' (open_last_intro st segs _ Hs' Hl') Hp' Hall')
        as (Hlen & Ho').
      split; [|exact Ho']. rewrite Hlen, Hs', Hs, !length_app. cbn. lia.
Qed.

(** A stroke: samples that are all inked, arriving while no polyline is
    open. *)
Lemma receive_stroke p l this c :
  penColor (cfg this) = Some c ->
  svgPolyLine this = NoLine ->
  Forall (fun q => inked this q = true) (p :: l) ->
  length (svgElement (receive (p :: l) this))
  = (length (svgElement this) + crossings (p :: l) + 1)%nat
  /\ open_last (receive (p :: l) this)
  /\ last (signaturePath (receive (p :: l) this)) = last (p :: l).
Proof.
  intros Hc Hl Hall. apply Forall_cons in Hall as [Hi Hall].
  rewrite receive_cons.
  destruct (storePacket_closed p this c Hc Hl Hi) as (new & Hs' & _ & _ & Hl').
  set (st := snd (storePacket p this)) in *.
  assert (Hcfg : cfg st = cfg this) by apply storePacket_cfg.
  assert (Hp' : last (signaturePath st) = Some p).
  { unfold st. rewrite storePacket_path. apply last_snoc. }
  destruct (receive_open l st p c) as (Hlen & Ho).
  - now rewrite Hcfg.
  - now apply (open_last_intro st (svgElement this) new).
  - exact Hp'.
  - eapply Forall_impl; [exact Hall|]. intros q Hq. cbn beta in *.
    rewrite <- Hq. now apply inked_cfg.
  - split; [|split; [exact Ho|]].
    + rewrite Hlen, Hs', length_app. cbn. lia.
    + rewrite receive_path. unfold st. rewrite storePacket_path.
      rewrite <- app_assoc. cbn [app].
      now rewrite last_app_cons.
Qed.

(** C7. When samples that are all inked arrive while no polyline is
    open, the svg element gains one polyline plus one for every pair of
    consecutive samples whose normalized pressures differ by more than
    0.02; and at every such pair the point of the second sample is
    appended to the polyline that is open, whose stroke and width stay,
    and is the only point of the polyline that is opened next. *)
Theorem stroke_segment_count (this : driver) (l : list packet) (c : list (option Z)) :
  svgPolyLine this = NoLine ->
  penColor (cfg this) = Some c ->
  l <> [] ->
  Forall (fun p => inked this p = true) l ->
  length (svgElement (receive l this))
  = (length (svgElement this) + (crossings l + 1))%nat
  /\ forall l1 prev cur l2,
      l = l1 ++ prev :: cur :: l2 ->
      gt (Math_abs (sub (cpress cur) (cpress prev))) lit_0_02 = true ->
      let s1 := receive (l1 ++ [prev]) this in
      let s2 := receive (l1 ++ [prev; cur]) this in
      exists segs seg new,
        svgElement s1 = segs ++ [seg]
        /\ svgPolyLine s1 = Child (length segs)
        /\ svgElement s2
           = segs ++ [mkPolyline (stroke seg) (stroke_width seg)
                        (points seg ++ [(cx cur, cy cur)]); new]
        /\ points new = [(cx cur, cy cur)]
        /\ svgPolyLine s2 = Child (S (length segs)).
Proof.
  intros Hl Hc Hne Hall. split.
  - destruct l as [|p l]; [congruence|].
    destruct (receive_stroke p l this c Hc Hl Hall) as (Hlen & _).
    rewrite Hlen. lia.
  - intros l1 prev cur l2 -> Hj s1 s2.
    assert (Hall1 : Forall (fun p => inked this p = true) (l1 ++ [prev])).
    { apply Forall_app in Hall as [H1 H2]. apply Forall_app. split; [exact H1|].
      apply Forall_cons in H2 as [H2 _]. now constructor. }
    assert (Hcur : inked this cur = true).
    { apply Forall_app in Hall as [_ H2]. apply Forall_cons in H2 as [_ H2].
      now apply Forall_cons in H2 as [H2 _]. }
    assert (Hs1 : open_last s1 /\ last (signaturePath s1) = Some prev).
    { unfold s1. destruct (l1 ++ [prev]) as [|p0 l0] eqn:E.
      - now destruct l1.
      - destruct (receive_stroke p0 l0 this c Hc Hl Hall1) as (_ & Ho & Hp).
        split; [exact Ho|]. rewrite Hp, <- E. apply last_snoc. }
    destruct Hs1 as ((segs & seg & Hs & Hr) & Hp).
    assert (Hcfg : cfg s1 = cfg this) by apply receive_cfg.
    pose proof (storePacket_open cur s1 prev c segs seg) as Hst.
    cbv zeta in Hst. rewrite Hj in Hst.
    destruct Hst as (new & Hs2 & Hpts & _ & Hr2); auto.
    + now rewrite Hcfg.
    + rewrite <- Hcur. now apply inked_cfg.
    + exists segs, seg, new.
      replace s2 with (snd (storePacket cur s1)).
      * auto.
      * unfold s2, s1.
        change (l1 ++ [prev; cur]) with (l1 ++ [prev] ++ [cur]).
        now rewrite (app_assoc l1 [prev] [cur]), (receive_app (l1 ++ [prev]) [cur]).
Qed.

Lemma stroke_segment_count_witness :
  let this := Examples.connected in
  let l := [Examples.light 5000 2500; Examples.light 5025 2500;
            Examples.heavy 5050 2500; Examples.heavy 5075 2500] in
  crossings l = 1%nat
  /\ length (svgElement (receive l this))
     = (length (svgElement this) + (crossings l + 1))%nat.
Proof.
  cbv zeta. split; [reflexivity|].
  apply (stroke_segment_count Examples.connected _ [Some 0; Some 0; Some 0]).
  - reflexivity.
  - reflexivity.
  - discriminate.
  - repeat constructor.
Defined.

End Segments.

(** ** Drawing the log again *)

Section Redraw.

Lemma prev_lookup_app (l1 rest : list packet) :
  (if (0 <? length l1)%nat then (l1 ++ rest) !! (length l1 - 1)%nat else None)
  = last l1.
Proof.
  destruct l1 as [|q l1] using rev_ind; [reflexivity|].
  rewrite length_app. cbn [length].
  replace (0 <? length l1 + 1)%nat with true by (symmetry; apply Nat.ltb_lt; lia).
  rewrite last_snoc, <- app_assoc. cbn [app].
  replace (length l1 + 1 - 1)%nat with (length l1) by lia.
  now rewrite list_lookup_middle.
Qed.

(** In the loop over the whole log, the sample at an index is drawn
    with the sample before it as [prevPoint]. *)
Lemma drawPoint_middle (l1 l2 : list packet) (p : packet) (this : driver) :
  signaturePath this = l1 ++ p :: l2 ->
  drawPoint (length l1) this = drawSample (last l1) p this.
Proof.
  intros Hp. unfold drawPoint. unfold mbind at 1, sync_bind, sbind, sget.
  rewrite Hp, list_lookup_middle by reflexivity.
  now rewrite prev_lookup_app.
Qed.

(** Outside writing mode 1 the stroke width is read from the
    configuration alone. *)
Lemma strokeWidth_fixed (a b : driver) :
  cfg a = cfg b -> writingMode (cfg a) <> Some 1 -> strokeWidth a = strokeWidth b.
Proof.
  intros Hc Hm. unfold strokeWidth. rewrite <- Hc.
  rewrite !bool_decide_eq_false_2 by exact Hm.
  now rewrite !andb_false_r.
Qed.

Lemma drawSample_same_drawing prev p a b col :
  penColor (cfg a) = Some col ->
  strokeWidth a = strokeWidth b ->
  same_drawing a b -> attached a ->
  same_drawing (snd (drawSample prev p a)) (snd (drawSample prev p b))
  /\ attached (snd (drawSample prev p a)).
Proof.
  intros Hc Hw (Hcfg & Hsvg & Href) Ha.
  assert (Hcb : penColor (cfg b) = Some col) by now rewrite <- Hcfg.
  assert (Hib : inked b p = inked a p) by (symmetry; now apply inked_cfg).
  symmetry in Href.
  destruct (inked a p) eqn:Hi.
  - destruct (svgPolyLine a) as [|k|pts] eqn:Hl.
    + rewrite (drawSample_start prev p a col Hi Hc Hl).
      rewrite (drawSample_start prev p b col Hib Hcb Href).
      unfold same_drawing, attached. cbn. rewrite Hcfg, Hsvg, Hw. auto.
    + destruct (pressure_jump prev p) eqn:Hj.
      * rewrite (drawSample_junction prev p a k col Hi Hc Hl Hj).
        rewrite (drawSample_junction prev p b k col Hib Hcb Href Hj).
        unfold same_drawing, attached. cbn. rewrite Hcfg, Hsvg, Hw. auto.
      * rewrite (drawSample_continue prev p a k Hi Hl Hj).
        rewrite (drawSample_continue prev p b k Hib Href Hj).
        unfold same_drawing, attached. cbn. rewrite Hcfg, Hsvg. auto.
    + now destruct (Ha pts).
  - rewrite (drawSample_skip prev p a Hi), (drawSample_skip prev p b Hib).
    rewrite Href. unfold same_drawing, attached.
    destruct (svgPolyLine a) eqn:Hl; cbn; rewrite ?Hl; auto.
Qed.

(** Outside writing mode 1, the loop over the tail of the log draws
    what the samples of the tail drew when they arrived. *)
Lemma drawLoop_receive (c : config) (col : list (option Z)) :
  penColor c = Some col ->
  writingMode c <> Some 1 ->
  forall l2 l1 a b,
    cfg a = c -> same_drawing a b -> attached a ->
    signaturePath a = l1 -> signaturePath b = l1 ++ l2 ->
    let r := drawLoop (length l2) (length l1) b in
    fst r = inl tt /\ same_drawing (receive l2 a) (snd r).
Proof.
  intros Hcol Hmode. induction l2 as [|p l2 IH]; intros l1 a b Hc Hsame Hatt Hpa Hpb.
  - cbn. split; [reflexivity|exact Hsame].
  - cbn [length drawLoop]. cbv zeta.
    unfold mbind, sync_bind, sbind.
    rewrite (drawPoint_middle l1 l2 p b Hpb).
    rewrite receive_cons, storePacket_eq, Hpa.
    set (a1 := set_signaturePath (l1 ++ [p]) a).
    assert (Hsame1 : same_drawing a1 b) by exact Hsame.
    assert (Hc1 : penColor (cfg a1) = Some col) by (cbn; now rewrite Hc).
    assert (Hw1 : strokeWidth a1 = strokeWidth b).
    { apply strokeWidth_fixed; [apply Hsame|]. cbn. now rewrite Hc. }
    destruct (drawSample_same_drawing (last l1) p a1 b col Hc1 Hw1 Hsame1 Hatt)
      as (Hsame' & Hatt').
    pose proof (drawSample_ok (last l1) p b col) as Hok.
    destruct (drawSample_frame (last l1) p a1) as (Hcfa & Hpa' & _).
    destruct (drawSample_frame (last l1) p b) as (_ & Hpb' & _).
    destruct (drawSample (last l1) p b) as [[[]|e] b'] eqn:Eb.
    + cbn [snd] in *.
      replace (S (length l1)) with (length (l1 ++ [p]))
        by (rewrite length_app; cbn; lia).
      apply IH; auto.
      * now rewrite Hcfa.
      * rewrite Hpb', Hpb, <- app_assoc. reflexivity.
    + cbn in Hok. destruct Hsame as (Hcfg & _).
      rewrite <- Hcfg, Hc in Hok. now specialize (Hok Hcol).
Qed.

(** Outside writing mode 1, drawing the whole log again gives the
    polylines that the arriving samples drew. *)
Lemma redraw_fixed_width (c : config) (d : option hidDevice) (l : list packet)
      (col : list (option Z)) :
  penColor c = Some col ->
  writingMode c <> Some 1 ->
  svgElement (redraw (blank c d l)) = svgElement (receive l (blank c d [])).
Proof.
  intros Hcol Hmode. unfold redraw, drawSignaturePathToCanvas.
  unfold mbind at 1, sync_bind, sbind, sget. cbn [signaturePath blank].
  rewrite Nat.sub_0_r.
  destruct (drawLoop_receive c col Hcol Hmode l [] (blank c d []) (blank c d l))
    as (_ & _ & Hsvg & _); try reflexivity.
  - repeat split.
  - intros pts. discriminate.
  - now rewrite Hsvg.
Qed.


End Redraw.

(** ** The data reports of an image *)

Section ImagePackets.

(** Every data report declares the bulk size and carries a whole bulk,
    holes as zeros. *)
Lemma imageDataPacket_frame (e : list (option Z)) :
  (length e < 256)%nat ->
  imageDataPacket e = Z.of_nat (length e) :: 0 :: map toUint8 e.
Proof.
  intros Hlen. unfold imageDataPacket, Uint8Array. cbn [map toUint8].
  rewrite Z.mod_small by lia. reflexivity.
Qed.

Lemma ceil_floor (len bs : nat) :
  (0 < bs)%nat -> (len mod bs <> 0)%nat ->
  ((len + bs - 1) / bs = S (len / bs))%nat.
Proof.
  intros Hb Hm.
  pose proof (Nat.div_mod_eq len bs) as E.
  pose proof (Nat.mod_upper_bound len bs ltac:(lia)) as U.
  symmetry. apply (Nat.div_unique _ _ _ (len mod bs - 1)); lia.
Qed.

(** When the image does not fill the last bulk, the bytes of the last
    bulk that come from the image are the remainder of the division. *)
Lemma last_bulk_occupied (arr : list Z) (bs : nat) (bulks : list (list (option Z))) :
  (0 < bs)%nat -> (length arr mod bs <> 0)%nat ->
  splitToBulks arr bs = Some bulks ->
  exists e, last bulks = Some e
            /\ length e = bs
            /\ length (occupied e) = (length arr mod bs)%nat.
Proof.
  intros Hb Hm. unfold splitToBulks, bulkCount.
  destruct bs as [|b]; [lia|]. cbn [mbind option_bind].
  intros H. apply (inj Some) in H. subst bulks.
  rewrite (ceil_floor _ _ Hb Hm).
  rewrite seq_S, map_app. cbn [map Nat.add]. rewrite last_snoc.
  eexists. split; [reflexivity|]. split; [apply bulk_length|].
  rewrite occupied_bulk, length_take, length_drop.
  pose proof (Nat.div_mod_eq (length arr) (S b)) as E.
  pose proof (Nat.mod_upper_bound (length arr) (S b) ltac:(lia)) as U.
  lia.
Qed.

(** C4. An image is split into the ceiling of [length / 253] bulks,
    the bulks without their holes give the image back, and every data
    report is the length of its bulk, a zero and the bulk; but every
    bulk has 253 entries, so the report of a last bulk that the image
    fills only in part declares 253 and not the number of bytes that
    come from the image. *)
Theorem image_data_reports (arr : list Z) :
  exists bulks,
    splitToBulks arr chunkSize = Some bulks
    /\ length bulks = ((length arr + 252) / 253)%nat
    /\ (length arr <= length bulks * 253 < length arr + 253)%nat
    /\ concat (map occupied bulks) = arr
    /\ (forall e, In e bulks ->
          length e = 253%nat
          /\ imageDataPacket e = 253 :: 0 :: map toUint8 e)
    /\ ((length arr mod 253 <> 0)%nat ->
        exists e,
          last bulks = Some e
          /\ length (occupied e) = (length arr mod 253)%nat
          /\ (length (occupied e) < 253)%nat
          /\ imageDataPacket e = 253 :: 0 :: map toUint8 e).
Proof.
  destruct (splitToBulks_total arr chunkSize) as [bulks Hb]; [unfold chunkSize; lia|].
  exists bulks. split; [exact Hb|].
  destruct (splitToBulks_count arr chunkSize bulks) as (H1 & H2 & H3);
    [unfold chunkSize; lia|exact Hb|].
  unfold chunkSize in *.
  assert (Hframe : forall e, length e = 253%nat ->
                             imageDataPacket e = 253 :: 0 :: map toUint8 e).
  { intros e He. rewrite imageDataPacket_frame by lia. now rewrite He. }
  split; [rewrite H1; f_equal; lia|]. split; [lia|].
  split; [now apply (splitToBulks_concat arr 253%nat)|]. split.
  - intros e He.
    pose proof (splitToBulks_bulk_length arr 253%nat bulks e Hb He) as Hl. auto.
  - intros Hm.
    destruct (last_bulk_occupied arr 253%nat bulks) as (e & Hl & Hlen & Ho); auto; [lia|].
    exists e. split; [exact Hl|]. split; [exact Ho|]. split.
    + rewrite Ho. apply Nat.mod_upper_bound. lia.
    + auto.
Qed.

Lemma image_data_reports_witness :
  exists bulks e,
    splitToBulks (repeat 7 255) chunkSize = Some bulks
    /\ length bulks = 2%nat
    /\ last bulks = Some e
    /\ length (occupied e) = 2%nat
    /\ imageDataPacket e = 253 :: 0 :: map toUint8 e.
Proof.
  destruct (image_data_reports (repeat 7 255))
    as (bulks & Hb & Hn & _ & _ & _ & Hlast).
  destruct Hlast as (e & Hl & Ho & _ & Hp).
  - vm_compute. discriminate.
  - exists bulks, e. repeat split; assumption.
Defined.

End ImagePackets.

(** ** Parameter checks of the setters *)

Section Setters.

Lemma not_in_0123_spec (v : Z) :
  not_in_0123 v = true <-> ~ (v = 0 \/ v = 1 \/ v = 2 \/ v = 3).
Proof. unfold not_in_0123. destruct (Z.eqb_spec v 0), (Z.eqb_spec v 1),
    (Z.eqb_spec v 2), (Z.eqb_spec v 3); cbn; intuition lia. Qed.

Lemma not_in_01_spec (v : Z) :
  not_in_01 v = true <-> ~ (v = 0 \/ v = 1).
Proof. unfold not_in_01. destruct (Z.eqb_spec v 0), (Z.eqb_spec v 1);
    cbn; intuition lia. Qed.

(** Without a connection every setter throws at once. *)
Lemma setters_not_connected (w : world) :
  isConnected (this w) = false ->
  (forall color width,
      step w (Call (setPenColorAndWidth color width)) = raised not_connected w)
  /\ (forall mode, step w (Call (setWritingMode mode)) = raised not_connected w)
  /\ (forall intensity,
      step w (Call (setBrightness intensity)) = raised not_connected w).
Proof.
  intros Hc. repeat split; intros; cbn; rewrite Hc; reflexivity.
Qed.

(** With a connection a value out of range makes the setter throw at
    once. *)
Lemma setters_invalid (w : world) :
  isConnected (this w) = true ->
  (forall color width,
      ~ (width = 0 \/ width = 1 \/ width = 2 \/ width = 3) ->
      step w (Call (setPenColorAndWidth color width)) = raised invalid_width w)
  /\ (forall mode,
      ~ (mode = 0 \/ mode = 1) ->
      step w (Call (setWritingMode mode)) = raised invalid_mode w)
  /\ (forall intensity,
      ~ (intensity = 0 \/ intensity = 1 \/ intensity = 2 \/ intensity = 3) ->
      step w (Call (setBrightness intensity)) = raised invalid_intensity w).
Proof.
  intros Hc. repeat split; intros v; intros.
  - apply not_in_0123_spec in H. cbn. rewrite Hc. cbn. rewrite H. reflexivity.
  - apply not_in_01_spec in H. cbn. rewrite Hc. cbn. rewrite H. reflexivity.
  - apply not_in_0123_spec in H. cbn. rewrite Hc. cbn. rewrite H. reflexivity.
Qed.

(** With a connection and a width in range the pen report is sent. *)
Lemma setPenColorAndWidth_valid (w : world) (color : list Z) (width : Z) :
  isConnected (this w) = true ->
  width = 0 \/ width = 1 \/ width = 2 \/ width = 3 ->
  exists k,
    step w (Call (setPenColorAndWidth color width))
    = awaiting (SendFeatureReport command.penColorAndWidth
                  (Uint8Array (map Some (color ++ [width])))) k w.
Proof.
  intros Hc Hw.
  assert (Hn : not_in_0123 width = false).
  { destruct (not_in_0123 width) eqn:E; [|reflexivity].
    apply not_in_0123_spec in E. tauto. }
  eexists. cbn. rewrite Hc. cbn. rewrite Hn. cbn. rewrite Hc. cbn.
  reflexivity.
Qed.

(** C9 (as amended). On a connected driver [setPenColorAndWidth] with
    a width outside {0,1,2,3}, [setWritingMode] with a mode outside
    {0,1} and [setBrightness] with an intensity outside {0,1,2,3} throw
    their invalid-value error before anything is awaited or sent; with
    a width in {0,1,2,3} [setPenColorAndWidth] throws nothing and sends
    the pen report. On a driver that is not connected all three throw
    the not-connected error, whatever the value, again before anything
    is awaited or sent. *)
Theorem setter_parameter_checks (w : world) :
  (isConnected (this w) = true ->
   (forall color width,
       ~ (width = 0 \/ width = 1 \/ width = 2 \/ width = 3) ->
       step w (Call (setPenColorAndWidth color width)) = raised invalid_width w)
   /\ (forall mode,
       ~ (mode = 0 \/ mode = 1) ->
       step w (Call (setWritingMode mode)) = raised invalid_mode w)
   /\ (forall intensity,
       ~ (intensity = 0 \/ intensity = 1 \/ intensity = 2 \/ intensity = 3) ->
       step w (Call (setBrightness intensity)) = raised invalid_intensity w)
   /\ (forall color width,
       width = 0 \/ width = 1 \/ width = 2 \/ width = 3 ->
       exists k,
         step w (Call (setPenColorAndWidth color width))
         = awaiting (SendFeatureReport command.penColorAndWidth
                       (Uint8Array (map Some (color ++ [width])))) k w))
  /\ (isConnected (this w) = false ->
      (forall color width,
          step w (Call (setPenColorAndWidth color width)) = raised not_connected w)
      /\ (forall mode, step w (Call (setWritingMode mode)) = raised not_connected w)
      /\ (forall intensity,
          step w (Call (setBrightness intensity)) = raised not_connected w)).
Proof.
  split.
  - intros Hc. destruct (setters_invalid w Hc) as (H1 & H2 & H3).
    repeat split; auto.
    intros color width Hw. now apply setPenColorAndWidth_valid.
  - apply setters_not_connected.
Qed.

Lemma setter_parameter_checks_witness :
  let w := start Examples.connected in
  step w (Call (setPenColorAndWidth [255; 0; 0] 7)) = raised invalid_width w
  /\ step w (Call (setWritingMode 2)) = raised invalid_mode w
  /\ step w (Call (setBrightness (-1))) = raised invalid_intensity w
  /\ step (start new_driver) (Call (setBrightness 9))
     = raised not_connected (start new_driver).
Proof.
  cbv zeta.
  destruct (setter_parameter_checks (start Examples.connected)) as (Hc & _).
  destruct (Hc eq_refl) as (H1 & H2 & H3 & _).
  destruct (setter_parameter_checks (start new_driver)) as (_ & Hn).
  destruct (Hn eq_refl) as (_ & _ & H4).
  split; [apply H1; lia|]. split; [apply H2; lia|]. split; [apply H3; lia|].
  apply H4.
Defined.

(** C9 (as stated) fails on a driver that is not connected: a width
    out of range makes [setPenColorAndWidth] throw the not-connected
    error, not the invalid-value error. *)
Lemma invalid_width_not_connected :
  ~ (7 = 0 \/ 7 = 1 \/ 7 = 2 \/ 7 = 3)
  /\ step (start new_driver) (Call (setPenColorAndWidth [255; 0; 0] 7))
     = raised not_connected (start new_driver)
  /\ raised not_connected (start new_driver)
     <> raised invalid_width (start new_driver).
Proof.
  split; [lia|]. split; [reflexivity|]. discriminate.
Qed.

End Setters.

(** ** Negotiation *)

Section Negotiation.






















End Negotiation.

(** ** The order of the reports of an upload *)

Section Upload.

Lemma exec_sendData_callback (c : nat) (reportId : Z) (data : list Z) (w : world) :
  isConnected (this w) = true ->
  exec c false (sendData reportId data) w
  = park (mkSuspended c (SendFeatureReport reportId data) afterData false)
      (log (Issue c (SendFeatureReport reportId data)) w).
Proof.
  intros Hc. unfold sendData. cbn [mbind proc_bind pbind exec get].
  rewrite Hc. reflexivity.
Qed.

Lemma exec_sendData_await (c : nat) (reportId : Z) (data : list Z)
      (k : value -> proc value) (w : world) :
  isConnected (this w) = true ->
  exec c true (pbind (sendData reportId data) k) w
  = park (mkSuspended c (SendFeatureReport reportId data)
            (fun resp => pbind (afterData resp) k) true)
      (log (Issue c (SendFeatureReport reportId data)) w).
Proof.
  intros Hc. unfold sendData. cbn [mbind proc_bind pbind exec get].
  rewrite Hc. reflexivity.
Qed.

Lemma exec_forEach_data (c : nat) (top : bool) (bulks : list (list (option Z)))
      (k : unit -> proc value) :
  forall w,
    isConnected (this w) = true ->
    exec c top
      (pbind (forEach bulks
                (fun e => sendData command.writeImageData (imageDataPacket e))) k) w
    = exec c top (k tt)
        {| this := this w;
           pool := pool w ++ dataCallbacks c bulks;
           trace := trace w ++ map (fun e => Issue c (dataReport e)) bulks;
           calls := calls w |}.
Proof.
  induction bulks as [|e bulks IH]; intros w Hc.
  - cbn. rewrite !app_nil_r. now destruct w.
  - cbn [forEach pbind exec].
    rewrite exec_sendData_callback by exact Hc.
    rewrite IH by exact Hc.
    cbn [this pool trace calls park log dataCallbacks map].
    rewrite <- !app_assoc. reflexivity.
Qed.

(** A call of [setImage] on a connected driver that is not sending sends
    the start report and awaits it. *)
Lemma setImage_start (w : world) (imageData : list Z) (bulks : list (list (option Z))) :
  isConnected (this w) = true ->
  deviceIsSending (this w) = false ->
  fits (this w) imageData ->
  splitToBulks imageData chunkSize = Some bulks ->
  step w (Call (setImage imageData))
  = {| this := set_deviceIsSending true (this w);
       pool := pool w ++ [mkSuspended (calls w) startReport (afterStart bulks) true];
       trace := trace w ++ [Issue (calls w) startReport];
       calls := S (calls w) |}.
Proof.
  intros Hc Hs Hf Hb. unfold fits in Hf. apply Z.eqb_eq in Hf.
  cbn [step]. unfold setImage. cbn [mbind proc_bind pbind exec get this].
  rewrite Hc. cbn [negb]. rewrite Hf. cbn [negb].
  cbn [waitWhileSending mbind proc_bind pbind exec get this]. rewrite Hs.
  unfold sendImage. cbn [mbind proc_bind pbind exec modify this set_this]. rewrite Hb.
  unfold mbind, proc_bind. rewrite exec_sendData_await by exact Hc.
  reflexivity.
Qed.

Lemma exec_afterStart_fulfilled (c : nat) (bulks : list (list (option Z)))
      (v : value) (w : world) :
  isConnected (this w) = true ->
  exec c true (afterStart bulks (Fulfilled v)) w
  = {| this := this w;
       pool := pool w ++ dataCallbacks c bulks ++ [mkSuspended c endReport afterEnd true];
       trace := trace w ++ map (fun e => Issue c (dataReport e)) bulks
                ++ [Issue c endReport];
       calls := calls w |}.
Proof.
  intros Hc. unfold afterStart. cbn [mbind proc_bind pbind].
  unfold mbind, proc_bind.
  rewrite exec_forEach_data by exact Hc.
  rewrite exec_sendData_await by exact Hc.
  unfold park, log. cbn [this pool trace calls]. rewrite <- ?app_assoc. reflexivity.
Qed.

Lemma exec_afterStart_reject (c : nat) (bulks : list (list (option Z)))
      (msg : string) (w : world) :
  exec c true (afterStart bulks (Reject msg)) w = log (Raise c (Rejected msg)) w.
Proof. reflexivity. Qed.

Lemma exec_afterEnd_fulfilled (c : nat) (v : value) (w : world) :
  exec c true (afterEnd (Fulfilled v)) w
  = log (Return c Undefined)
      (set_this (set_deviceIsSending false (snd (clearSignatureData (this w)))) w).
Proof. reflexivity. Qed.

Lemma exec_afterEnd_reject (c : nat) (msg : string) (w : world) :
  exec c true (afterEnd (Reject msg)) w = log (Raise c (Rejected msg)) w.
Proof. reflexivity. Qed.

Lemma exec_afterData (c : nat) (resp : response) (w : world) :
  exec c false (afterData resp) w = w.
Proof. destruct resp; reflexivity. Qed.

(** The wait loop and what follows it, in the three cases of the loop. *)
Lemma exec_wait_free (c : nat) (left : nat) (imageData : list Z)
      (bulks : list (list (option Z))) (w : world) :
  isConnected (this w) = true ->
  deviceIsSending (this w) = false ->
  splitToBulks imageData chunkSize = Some bulks ->
  exec c true (afterWait left imageData (Fulfilled Undefined)) w
  = {| this := set_deviceIsSending true (this w);
       pool := pool w ++ [mkSuspended c startReport (afterStart bulks) true];
       trace := trace w ++ [Issue c startReport];
       calls := calls w |}.
Proof.
  intros Hc Hs Hb. unfold afterWait.
  destruct left; cbn [waitWhileSending mbind proc_bind pbind exec get this];
    rewrite Hs; unfold sendImage;
    cbn [mbind proc_bind pbind exec modify this set_this]; rewrite Hb;
    unfold mbind, proc_bind; rewrite exec_sendData_await by exact Hc; reflexivity.
Qed.

Lemma exec_wait_busy (c : nat) (left : nat) (imageData : list Z) (w : world) :
  deviceIsSending (this w) = true ->
  exec c true (afterWait (S left) imageData (Fulfilled Undefined)) w
  = park (mkSuspended c (SetTimeout 500) (afterWait left imageData) true)
      (log (Issue c (SetTimeout 500)) w).
Proof.
  intros Hs. unfold afterWait.
  cbn [waitWhileSending mbind proc_bind pbind exec get this].
  rewrite Hs. reflexivity.
Qed.

Lemma exec_wait_timeout (c : nat) (imageData : list Z) (w : world) :
  deviceIsSending (this w) = true ->
  exec c true (afterWait 0 imageData (Fulfilled Undefined)) w
  = log (Raise c busy) w.
Proof.
  intros Hs. unfold afterWait.
  cbn [waitWhileSending mbind proc_bind pbind exec get this].
  rewrite Hs. reflexivity.
Qed.

(** A timer has no result: the wait loop goes on in the same way however
    it is settled. *)
Lemma afterWait_any (left : nat) (imageData : list Z) (resp : response) :
  afterWait left imageData resp = afterWait left imageData (Fulfilled Undefined).
Proof. reflexivity. Qed.

(** C2. [setImage] does not wait for its data reports: when the start
    report is settled, the call hands every data report and then the end
    report to the device in one run, in the order of the bulks, and all
    of them are pending afterwards; no data report is settled before the
    next report is sent, and the end report is sent while every data
    report is still pending. *)
Theorem data_reports_not_awaited (d : driver) (imageData : list Z)
        (bulks : list (list (option Z))) (v : value) :
  isConnected d = true ->
  deviceIsSending d = false ->
  fits d imageData ->
  splitToBulks imageData chunkSize = Some bulks ->
  let w1 := step (start d) (Call (setImage imageData)) in
  let w2 := step w1 (Complete 0 (Fulfilled v)) in
  trace w1 = [Issue 0 startReport]
  /\ map awaits (pool w1) = [startReport]
  /\ trace w2
     = [Issue 0 startReport; Settle 0 startReport (Fulfilled v)]
       ++ map (fun e => Issue 0 (dataReport e)) bulks
       ++ [Issue 0 endReport]
  /\ map awaits (pool w2) = map dataReport bulks ++ [endReport].
Proof.
  intros Hc Hs Hf Hb w1 w2.
  assert (E1 : w1 = {| this := set_deviceIsSending true d;
                       pool := [mkSuspended 0 startReport (afterStart bulks) true];
                       trace := [Issue 0 startReport];
                       calls := 1 |}).
  { unfold w1. now rewrite (setImage_start (start d) imageData bulks). }
  split; [now rewrite E1|]. split; [now rewrite E1|].
  unfold w2. rewrite E1. cbn [step pool lookup list_lookup owner top cont awaits].
  rewrite exec_afterStart_fulfilled by exact Hc.
  cbn [trace pool log delete list_delete app]. split; [reflexivity|].
  rewrite map_app. cbn [map awaits]. f_equal.
  unfold dataCallbacks. rewrite map_map. reflexivity.
Qed.

Lemma data_reports_not_awaited_witness :
  let w2 := run (start Examples.narrow)
              [Call (setImage Examples.narrow_image);
               Complete 0 (Fulfilled Undefined)] in
  exists e1 e2 e3,
    map awaits (pool w2) = [dataReport e1; dataReport e2; dataReport e3; endReport]
    /\ trace w2
       = [Issue 0 startReport; Settle 0 startReport (Fulfilled Undefined);
          Issue 0 (dataReport e1); Issue 0 (dataReport e2); Issue 0 (dataReport e3);
          Issue 0 endReport].
Proof.
  cbv zeta.
  destruct (data_reports_not_awaited Examples.narrow Examples.narrow_image
              (map (bulk Examples.narrow_image 253) [0; 1; 2]%nat) Undefined)
    as (_ & _ & Ht & Hp); try reflexivity.
  do 3 eexists. split; [exact Hp|exact Ht].
Defined.

End Upload.

(** ** Uploads that run at the same time *)

Section SingleFlight.

Lemma sends_app (tr tr' : list event) : sends (tr ++ tr') = sends tr ++ sends tr'.
Proof.
  induction tr as [|[c [| | | | | |]|c r resp|c v|c e] tr IH]; cbn; now rewrite ?IH.
Qed.

Lemma timers_app (c : nat) (tr tr' : list event) :
  timers c (tr ++ tr') = (timers c tr + timers c tr')%nat.
Proof.
  induction tr as [|[c' [| | | | | |]|c' r resp|c' v|c' e] tr IH]; cbn; rewrite ?IH; lia.
Qed.

Lemma waited_app (c : nat) (tr tr' : list event) :
  waited c (tr ++ tr') = waited c tr + waited c tr'.
Proof.
  induction tr as [|[c' [| | | | | |]|c' r resp|c' v|c' e] tr IH]; cbn; rewrite ?IH; lia.
Qed.

Lemma sends_data (c : nat) (bulks : list (list (option Z))) :
  sends (map (fun e => Issue c (dataReport e)) bulks) = repeat c (length bulks).
Proof. induction bulks as [|e bulks IH]; cbn; now rewrite ?IH. Qed.

Lemma timers_data (c c' : nat) (bulks : list (list (option Z))) :
  timers c (map (fun e => Issue c' (dataReport e)) bulks) = 0%nat.
Proof. induction bulks as [|e bulks IH]; cbn; now rewrite ?IH. Qed.

(** With timers of 500 ms the time waited is 500 ms for every timer. *)
Lemma waited_timers (c : nat) (tr : list event) :
  Forall (fun ev => forall c ms, ev = Issue c (SetTimeout ms) -> ms = 500) tr ->
  waited c tr = 500 * Z.of_nat (timers c tr).
Proof.
  induction 1 as [|ev tr Hev _ IH]; [reflexivity|].
  destruct ev as [c' [| |ms| | | |]|c' r resp|c' v|c' e]; cbn [waited timers];
    try exact IH.
  rewrite (Hev c' ms eq_refl), IH. destruct (c' =? c)%nat; lia.
Qed.

Lemma grouped_nil : grouped [].
Proof. intros [|x l1] c l2 H; discriminate. Qed.

(** A report may be added for the call that sent the last report or for
    a call that has sent none. *)
Lemma grouped_snoc (ss : list nat) (c : nat) :
  grouped ss -> (last ss = Some c \/ ~ In c ss) -> grouped (ss ++ [c]).
Proof.
  intros Hg Hc l1 c' l2 E Hin.
  destruct l2 as [|x l2] using rev_ind.
  - apply app_inj_tail in E as [-> ->].
    destruct Hc as [Hc|Hc]; [exact Hc|contradiction].
  - clear IHl2. rewrite app_comm_cons, app_assoc in E.
    apply app_inj_tail in E as [-> ->]. now apply (Hg l1 c' l2).
Qed.

Lemma grouped_repeat (ss : list nat) (c : nat) (k : nat) :
  grouped ss -> last ss = Some c -> grouped (ss ++ repeat c k).
Proof.
  revert ss. induction k as [|k IH]; intros ss Hg Hl; cbn.
  - now rewrite app_nil_r.
  - change (c :: repeat c k) with ([c] ++ repeat c k). rewrite app_assoc.
    apply IH; [apply grouped_snoc; auto|apply last_snoc].
Qed.

Lemma last_app_repeat (ss : list nat) (c : nat) (k : nat) :
  last ss = Some c -> last (ss ++ repeat c k) = Some c.
Proof.
  revert ss. induction k as [|k IH]; intros ss Hl; cbn.
  - now rewrite app_nil_r.
  - change (c :: repeat c k) with ([c] ++ repeat c k). rewrite app_assoc.
    apply IH, last_snoc.
Qed.

Lemma last_app_repeat_S (ss : list nat) (c : nat) (k : nat) :
  last (ss ++ repeat c (S k)) = Some c.
Proof.
  change (repeat c (S k)) with ([c] ++ repeat c k). rewrite app_assoc.
  apply last_app_repeat, last_snoc.
Qed.

Lemma in_repeat (c x : nat) (k : nat) : In x (repeat c k) -> x = c.
Proof. intros H. symmetry. now apply repeat_spec in H. Qed.

Lemma filter_delete_le {A} (P : A -> Prop) `{!forall x, Decision (P x)}
      (l : list A) (i : nat) :
  (length (filter P (delete i l)) <= length (filter P l))%nat.
Proof.
  revert i. induction l as [|x l IH]; intros [|i]; cbn [delete list_delete];
    try reflexivity.
  - rewrite filter_cons. destruct (decide (P x)); cbn [length];
      [apply Nat.le_succ_diag_r|reflexivity].
  - rewrite !filter_cons. specialize (IH i).
    destruct (decide (P x)); cbn [length]; [now apply le_n_S|exact IH].
Qed.

Lemma filter_delete_lt {A} (P : A -> Prop) `{!forall x, Decision (P x)}
      (l : list A) (i : nat) (x : A) :
  l !! i = Some x -> P x ->
  (length (filter P (delete i l)) < length (filter P l))%nat.
Proof.
  revert i. induction l as [|y l IH]; intros [|i] Hl Hx; try discriminate.
  - cbn in Hl. injection Hl as ->. cbn [delete list_delete].
    rewrite filter_cons_True by exact Hx. cbn [length]. apply Nat.lt_succ_diag_r.
  - cbn in Hl. cbn [delete list_delete]. specialize (IH i Hl Hx).
    rewrite !filter_cons. destruct (decide (P y)); cbn [length];
      [now apply (proj1 (Nat.succ_lt_mono _ _))|exact IH].
Qed.

Lemma filter_length_0 {A} (P : A -> Prop) `{!forall x, Decision (P x)} (l : list A) :
  length (filter P l) = 0%nat -> Forall (fun x => ~ P x) l.
Proof.
  induction l as [|x l IH]; [constructor|].
  rewrite filter_cons. destruct (decide (P x)); cbn [length]; [discriminate|].
  intros Hlen. constructor; auto.
Qed.

Lemma filter_none {A} (P : A -> Prop) `{!forall x, Decision (P x)} (l : list A) :
  Forall (fun x => ~ P x) l -> filter P l = [].
Proof.
  induction 1 as [|x l Hx _ IH]; [reflexivity|].
  now rewrite filter_cons_False.
Qed.

Lemma top_of_false (c : nat) (s : suspended) :
  top_of c s = false <-> ~ top_of c s = true.
Proof. destruct (top_of c s); intuition congruence. Qed.

Lemma top_of_spec (c : nat) (s : suspended) :
  top_of c s = true <-> top s = true /\ owner s = c.
Proof.
  unfold top_of. rewrite andb_true_iff, Nat.eqb_eq. reflexivity.
Qed.

(** What is known of a suspended call stays true when another call
    acts. *)
Lemma entry_ok_change (F F' : bool) (ss ss' : list nat) (tm tm' : nat -> nat)
      (n n' c0 : nat) (s : suspended) :
  entry_ok F ss tm n s ->
  top_of c0 s = false ->
  (n <= n')%nat ->
  (forall c, c <> c0 -> tm' c = tm c) ->
  (forall c, c <> c0 -> ~ In c ss -> ~ In c ss') ->
  (forall c, c <> c0 -> last ss = Some c -> F = true ->
             last ss' = Some c /\ F' = true) ->
  entry_ok F' ss' tm' n' s.
Proof.
  intros Hs Ht Hn Htm Hss Hlast.
  destruct Hs as [c left img Hc Hin Hsum|c bulks Hc Hl HF|c Hc Hl HF|c e Hc].
  - assert (c <> c0).
    { intros ->. unfold top_of in Ht. cbn in Ht. now rewrite Nat.eqb_refl in Ht. }
    constructor; [lia|auto|]. now rewrite Htm.
  - assert (c <> c0).
    { intros ->. unfold top_of in Ht. cbn in Ht. now rewrite Nat.eqb_refl in Ht. }
    destruct (Hlast c) as (Hl' & HF'); auto. constructor; auto; lia.
  - assert (c <> c0).
    { intros ->. unfold top_of in Ht. cbn in Ht. now rewrite Nat.eqb_refl in Ht. }
    destruct (Hlast c) as (Hl' & HF'); auto. constructor; auto; lia.
  - constructor. lia.
Qed.

Lemma not_in_app_repeat (ss : list nat) (c c0 : nat) (k : nat) :
  c <> c0 -> ~ In c ss -> ~ In c (ss ++ repeat c0 k).
Proof.
  intros Hne Hin H. apply in_app_or in H as [H|H]; [auto|].
  apply in_repeat in H. auto.
Qed.

Lemma last_app_repeat_ne (ss : list nat) (c c0 : nat) (k : nat) :
  last (ss ++ repeat c0 k) = Some c -> c <> c0 -> k = 0%nat.
Proof.
  intros Hl Hne. destruct k as [|k]; [reflexivity|].
  rewrite (last_app_repeat_S ss c0 k) in Hl. congruence.
Qed.

(** One run of call [c0]: the suspended calls [rest] stay, it leaves the
    suspended calls [added] and the events [new], among them [k] feature
    reports. *)
Lemma upload_inv_act (w : world) (c0 : nat) (rest added : list suspended)
      (new : list event) (d' : driver) (n' k : nat) :
  upload_inv w ->
  let F := deviceIsSending (this w) in
  let ss := sends (trace w) in
  let w' := {| this := d'; pool := rest ++ added; trace := trace w ++ new;
               calls := n' |} in
  Forall (entry_ok F ss (fun c => timers c (trace w)) (calls w)) rest ->
  Forall (fun s => top_of c0 s = false) rest ->
  (forall c, (length (filter (fun s => top_of c s = true) rest) <= 1)%nat) ->
  (forall c, Forall (fun s => top_of c s = false) (pool w) ->
             Forall (fun s => top_of c s = false) rest) ->
  isConnected d' = true ->
  (calls w <= n')%nat -> (c0 < n')%nat ->
  (forall c, In (Raise c busy) (trace w) -> c <> c0) ->
  sends new = repeat c0 k ->
  (k <> 0%nat ->
   deviceIsSending d' = true
   /\ (forall c, last ss = Some c -> F = true -> c = c0)
   /\ (last ss = Some c0 \/ ~ In c0 ss)) ->
  (k = 0%nat ->
   deviceIsSending d' = F \/ (deviceIsSending d' = false /\ last ss = Some c0)) ->
  (forall c, c <> c0 -> timers c new = 0%nat) ->
  (timers c0 (trace w ++ new) <= 20)%nat ->
  Forall (fun ev => forall c ms, ev = Issue c (SetTimeout ms) -> ms = 500) new ->
  Forall (entry_ok (deviceIsSending d') (sends (trace w ++ new))
            (fun c => timers c (trace w ++ new)) n') added ->
  Forall (fun s => owner s = c0) added ->
  (length (filter (fun s => top s = true) added) <= 1)%nat ->
  (forall c, In (Raise c busy) new ->
             c = c0 /\ timers c0 (trace w ++ new) = 20%nat /\ k = 0%nat
             /\ ~ In c0 ss /\ Forall (fun s => top s = false) added) ->
  upload_inv w'.
Proof.
  intros Hinv F ss w' Hrest Hrtop Hruniq Hrbusy Hconn Hn Hc0 Hnb Hsends Hk Hk0
         Htm Htm0 Hint Hadded Hown Htop Hbusy.
  destruct Hinv as [Ic Ie Iu Ig Ifs Ift It Ii Ib].
  assert (Hss' : sends (trace w ++ new) = ss ++ repeat c0 k)
    by (rewrite sends_app, Hsends; reflexivity).
  assert (Htm' : forall c, c <> c0 -> timers c (trace w ++ new) = timers c (trace w)).
  { intros c Hne. rewrite timers_app, (Htm c Hne). lia. }
  assert (Hadd_other : forall c, c <> c0 ->
            Forall (fun s => top_of c s = false) added).
  { intros c Hne. eapply Forall_impl; [exact Hown|]. intros s Hs. cbn beta in *.
    apply top_of_false. rewrite top_of_spec. intros [_ H]. congruence. }
  constructor; unfold w'; cbn [this pool trace calls].
  - exact Hconn.
  - apply Forall_app. split; [|exact Hadded].
    eapply Forall_impl; [apply Forall_and; split; [exact Hrest|exact Hrtop]|].
    intros s [Hs Ht]. cbn beta in *.
    apply (entry_ok_change F _ ss _ (fun c => timers c (trace w)) _ (calls w) _ c0);
      auto.
    + intros c Hne Hin. rewrite Hss'. now apply not_in_app_repeat.
    + intros c Hne Hl HF. rewrite Hss'.
      destruct k as [|k].
      * cbn. rewrite app_nil_r. split; [exact Hl|].
        destruct (Hk0 eq_refl) as [H|[_ H]]; [now rewrite H|].
        fold ss in H. congruence.
      * destruct (Hk ltac:(lia)) as (_ & H & _). now destruct (Hne (H c Hl HF)).
  - intros c. rewrite filter_app, length_app.
    destruct (Nat.eq_dec c c0) as [->|Hne].
    + rewrite (filter_none _ rest).
      * cbn. etransitivity; [|exact Htop].
        clear. induction added as [|s l IH]; [reflexivity|].
        rewrite !filter_cons.
        destruct (decide (top_of c0 s = true)) as [H|H];
          destruct (decide (top s = true)) as [H'|H']; cbn; try lia.
        apply top_of_spec in H as [H _]. contradiction.
      * eapply Forall_impl; [exact Hrtop|]. intros s Hs. now apply top_of_false.
    + rewrite (filter_none _ added).
      * cbn. specialize (Hruniq c). lia.
      * eapply Forall_impl; [exact (Hadd_other c Hne)|].
        intros s Hs. now apply top_of_false.
  - rewrite Hss'. destruct k as [|k]; [cbn; now rewrite app_nil_r|].
    destruct (Hk ltac:(lia)) as (_ & _ & Hlast).
    change (repeat c0 (S k)) with ([c0] ++ repeat c0 k). rewrite app_assoc.
    apply grouped_repeat; [|apply last_snoc].
    apply grouped_snoc; [exact Ig|exact Hlast].
  - intros c. rewrite Hss'. intros H. apply in_app_or in H as [H|H].
    + specialize (Ifs c H). lia.
    + apply in_repeat in H. lia.
  - intros c Hc. rewrite Htm' by lia. apply Ift. lia.
  - intros c. destruct (Nat.eq_dec c c0) as [->|Hne]; [exact Htm0|].
    rewrite Htm' by exact Hne. apply It.
  - apply Forall_app. split; [exact Ii|exact Hint].
  - intros c H. apply in_app_or in H as [H|H].
    + destruct (Ib c H) as (B1 & B2 & B3 & B4).
      assert (Hne : c <> c0) by now apply Hnb.
      split; [now rewrite Htm'|]. split.
      * rewrite Hss'. now apply not_in_app_repeat.
      * split; [lia|]. apply Forall_app. split; [now apply Hrbusy|now apply Hadd_other].
    + destruct (Hbusy c H) as (-> & B1 & -> & B2 & B3).
      split; [exact B1|]. split; [rewrite Hss'; cbn; now rewrite app_nil_r|].
      split; [exact Hc0|]. apply Forall_app. split; [exact Hrtop|].
      eapply Forall_impl; [exact B3|]. intros s Hs. cbn beta in *.
      unfold top_of. now rewrite Hs.
Qed.

Lemma entry_ok_owner F ss tm n s : entry_ok F ss tm n s -> (owner s < n)%nat.
Proof. destruct 1; assumption. Qed.

(** A callback of a bulk is resumed: it ends, and nothing else happens. *)
Lemma upload_inv_quiet (w : world) (i : nat) (s : suspended) (resp : response) :
  upload_inv w ->
  upload_inv {| this := this w; pool := delete i (pool w);
                trace := trace w ++ [Settle (owner s) (awaits s) resp];
                calls := calls w |}.
Proof.
  intros [Ic Ie Iu Ig Ifs Ift It Ii Ib].
  assert (Hs : sends (trace w ++ [Settle (owner s) (awaits s) resp]) = sends (trace w)).
  { rewrite sends_app. cbn. apply app_nil_r. }
  assert (Ht : forall c, timers c (trace w ++ [Settle (owner s) (awaits s) resp])
                         = timers c (trace w)).
  { intros c. rewrite timers_app. cbn. lia. }
  constructor; cbn [this pool trace calls]; rewrite ?Hs; auto.
  - apply Forall_delete. eapply Forall_impl; [exact Ie|].
    intros s' Hs'. cbn beta in *.
    apply (entry_ok_change _ _ _ _ _ _ _ _ (calls w) s' Hs'); auto.
    apply top_of_false. rewrite top_of_spec. intros [_ H].
    apply entry_ok_owner in Hs'. lia.
  - intros c. etransitivity; [apply filter_delete_le|apply Iu].
  - intros c. rewrite Ht. now apply Ift.
  - intros c. rewrite Ht. apply It.
  - apply Forall_app. split; [exact Ii|]. constructor; [|constructor].
    intros c ms. discriminate.
  - intros c H. apply in_app_or in H as [H|[H|[]]]; [|discriminate].
    destruct (Ib c H) as (B1 & B2 & B3 & B4). rewrite Ht.
    repeat split; auto. now apply Forall_delete.
Qed.

(** The facts about the other suspended calls when call [owner s] itself
    is resumed. *)
Lemma acting_entry (w : world) (i : nat) (s : suspended) :
  upload_inv w ->
  pool w !! i = Some s ->
  top s = true ->
  Forall (entry_ok (deviceIsSending (this w)) (sends (trace w))
            (fun c => timers c (trace w)) (calls w)) (delete i (pool w))
  /\ Forall (fun s' => top_of (owner s) s' = false) (delete i (pool w))
  /\ (forall c, (length (filter (fun s' => top_of c s' = true) (delete i (pool w)))
                  <= 1)%nat)
  /\ (forall c, Forall (fun s' => top_of c s' = false) (pool w) ->
                 Forall (fun s' => top_of c s' = false) (delete i (pool w)))
  /\ (forall c, In (Raise c busy) (trace w) -> c <> owner s).
Proof.
  intros [Ic Ie Iu Ig Ifs Ift It Ii Ib] Hl Ht.
  assert (Hts : top_of (owner s) s = true) by (apply top_of_spec; auto).
  split; [now apply Forall_delete|]. split.
  - assert (Hlt : (length (filter (fun s' => top_of (owner s) s' = true)
                              (delete i (pool w)))
                    < length (filter (fun s' => top_of (owner s) s' = true) (pool w)))%nat)
      by (eapply filter_delete_lt; eauto).
    specialize (Iu (owner s)).
    eapply Forall_impl;
      [apply (filter_length_0 (fun s' => top_of (owner s) s' = true)); lia|].
    intros s' Hs'. now apply top_of_false.
  - split; [|split].
    + intros c. etransitivity; [apply filter_delete_le|apply Iu].
    + intros c. apply Forall_delete.
    + intros c Hc ->. destruct (Ib _ Hc) as (_ & _ & _ & B).
      pose proof (Forall_lookup_1 _ _ _ _ B Hl) as H. cbn beta in H. congruence.
Qed.

Lemma fresh_call (w : world) :
  upload_inv w ->
  Forall (fun s' => top_of (calls w) s' = false) (pool w)
  /\ (forall c, In (Raise c busy) (trace w) -> c <> calls w).
Proof.
  intros [Ic Ie Iu Ig Ifs Ift It Ii Ib]. split.
  - eapply Forall_impl; [exact Ie|]. intros s Hs. cbn beta in *.
    apply top_of_false. rewrite top_of_spec. intros [_ H].
    apply entry_ok_owner in Hs. lia.
  - intros c Hc. destruct (Ib c Hc) as (_ & _ & H & _). lia.
Qed.

Lemma setImage_unfit (w : world) (imageData : list Z) :
  isConnected (this w) = true ->
  (Z.of_nat (length imageData)
   =? nullZ (width (cfg (this w))) * nullZ (height (cfg (this w))) * 3) = false ->
  step w (Call (setImage imageData))
  = {| this := this w; pool := pool w ++ [];
       trace := trace w ++ [Raise (calls w) (Error "setImage: invalid imageData")];
       calls := S (calls w) |}.
Proof.
  intros Hc Hf. cbn [step]. unfold setImage.
  cbn [mbind proc_bind pbind exec get this]. rewrite Hc. cbn [negb]. rewrite Hf.
  cbn. now rewrite app_nil_r.
Qed.

Lemma setImage_busy (w : world) (imageData : list Z) :
  isConnected (this w) = true ->
  deviceIsSending (this w) = true ->
  fits (this w) imageData ->
  step w (Call (setImage imageData))
  = {| this := this w;
       pool := pool w ++ [mkSuspended (calls w) (SetTimeout 500)
                            (afterWait 19 imageData) true];
       trace := trace w ++ [Issue (calls w) (SetTimeout 500)];
       calls := S (calls w) |}.
Proof.
  intros Hc Hs Hf. unfold fits in Hf. apply Z.eqb_eq in Hf.
  cbn [step]. unfold setImage. cbn [mbind proc_bind pbind exec get this].
  rewrite Hc. cbn [negb]. rewrite Hf. cbn [negb].
  cbn [waitWhileSending mbind proc_bind pbind exec get this]. rewrite Hs.
  reflexivity.
Qed.

Lemma timers_snoc_timer (c : nat) (tr : list event) (ms : Z) :
  timers c (tr ++ [Issue c (SetTimeout ms)]) = S (timers c tr).
Proof. rewrite timers_app. cbn. rewrite Nat.eqb_refl. lia. Qed.

Ltac act_common Hinv :=
  try exact (inv_entries _ Hinv);
  try exact (inv_unique _ Hinv);
  try exact (inv_connected _ Hinv);
  try assumption;
  try (intros ? ?; assumption);
  try lia;
  try (intros ? [?|[]]; discriminate);
  try (intros ? [?|[?|[]]]; discriminate);
  try (cbn [filter]; cbn; lia);
  try (repeat constructor; intros ? ?; discriminate).

(** A call of [setImage] keeps the invariant. *)
Lemma upload_inv_call (w : world) (imageData : list Z) :
  upload_inv w -> upload_inv (step w (Call (setImage imageData))).
Proof.
  intros Hinv.
  pose proof (inv_connected _ Hinv) as Ic.
  pose proof (inv_fresh_sends _ Hinv) as Ifs.
  pose proof (inv_fresh_timers _ Hinv) as Ift.
  destruct (fresh_call w Hinv) as (Hrtop & Hnb).
  destruct (Z.of_nat (length imageData)
            =? nullZ (width (cfg (this w))) * nullZ (height (cfg (this w))) * 3)
    eqn:Hf.
  - apply Z.eqb_eq in Hf.
    destruct (deviceIsSending (this w)) eqn:Hs.
    + rewrite (setImage_busy w imageData Ic Hs Hf).
      apply (upload_inv_act w (calls w) _ _ _ _ _ 0 Hinv); act_common Hinv.
      * intros c Hne. cbn. apply Nat.eqb_neq in Hne.
        rewrite Nat.eqb_sym, Hne. reflexivity.
      * rewrite timers_snoc_timer, Ift by lia. lia.
      * constructor; [|constructor]. intros c ms [= _ <-]. reflexivity.
      * constructor; [|constructor]. constructor; [lia| |].
        -- rewrite sends_app. cbn. rewrite app_nil_r.
           intros H. apply Ifs in H. lia.
        -- rewrite timers_snoc_timer, Ift by lia. lia.
    + destruct (splitToBulks_total imageData chunkSize) as [bulks Hb];
        [unfold chunkSize; lia|].
      rewrite (setImage_start w imageData bulks Ic Hs Hf Hb).
      apply (upload_inv_act w (calls w) _ _ _ _ _ 1 Hinv); act_common Hinv.
      * intros _. split; [reflexivity|]. split.
        -- intros c _ H. congruence.
        -- right. intros H. apply Ifs in H. lia.
      * rewrite timers_app, Ift by lia. cbn. lia.
      * constructor; [|constructor]. constructor; [lia| |reflexivity].
        rewrite sends_app. cbn. apply last_snoc.
  - rewrite (setImage_unfit w imageData Ic Hf).
    apply (upload_inv_act w (calls w) _ _ _ _ _ 0 Hinv); act_common Hinv.
    rewrite timers_app, Ift by lia. cbn. lia.
Qed.

Ltac world_shape :=
  unfold park, log; cbn [this pool trace calls set_this];
  rewrite <- ?app_assoc; cbn [app].

(** Settling what a suspended call awaits keeps the invariant. *)
Lemma upload_inv_complete (w : world) (i : nat) (resp : response) :
  upload_inv w -> upload_inv (step w (Complete i resp)).
Proof.
  intros Hinv. cbn [step].
  destruct (pool w !! i) as [s|] eqn:Hl; [|exact Hinv].
  pose proof (inv_connected _ Hinv) as Ic.
  pose proof (inv_fresh_sends _ Hinv) as Ifs.
  pose proof (inv_timers _ Hinv) as It.
  pose proof (Forall_lookup_1 _ _ _ _ (inv_entries _ Hinv) Hl) as Hs.
  destruct (top s) eqn:Htop.
  - destruct (acting_entry w i s Hinv Hl Htop) as (Hrest & Hrtop & Hruniq & Hrbusy & Hnb).
    destruct Hs as [c left img Hc Hin Hsum|c bulks Hc Hlast HF|c Hc Hlast HF|c e Hc];
      cbn [owner top cont awaits] in *; try discriminate.
    + (* the wait loop *)
      rewrite (afterWait_any left img resp).
      destruct (deviceIsSending (this w)) eqn:Hflag.
      * destruct left as [|left].
        -- rewrite exec_wait_timeout by exact Hflag. world_shape.
           rewrite <- (app_nil_r (delete i (pool w))).
           apply (upload_inv_act w c _ _ _ _ _ 0 Hinv); act_common Hinv;
             try (rewrite Hflag; exact Hrest).
           ++ rewrite timers_app. cbn. lia.
           ++ intros c0 [H|[H|[]]]; [discriminate|]. injection H as <-.
              rewrite timers_app. cbn. repeat split; auto; lia.
        -- rewrite exec_wait_busy by exact Hflag. world_shape.
           apply (upload_inv_act w c _ _ _ _ _ 0 Hinv); act_common Hinv;
             try (rewrite Hflag; exact Hrest).
           ++ intros c0 Hne. cbn. apply Nat.eqb_neq in Hne.
              rewrite Nat.eqb_sym, Hne. reflexivity.
           ++ rewrite timers_app. cbn. rewrite Nat.eqb_refl. lia.
           ++ constructor; [intros ? ?; discriminate|].
              constructor; [|constructor]. intros c0 ms [= _ <-]. reflexivity.
           ++ constructor; [|constructor]. constructor; [lia| |].
              ** rewrite sends_app. cbn. now rewrite app_nil_r.
              ** rewrite timers_app. cbn. rewrite Nat.eqb_refl. lia.
      * destruct (splitToBulks_total img chunkSize) as [bulks Hb];
          [unfold chunkSize; lia|].
        rewrite (exec_wait_free c left img bulks) by auto. world_shape.
        apply (upload_inv_act w c _ _ _ _ _ 1 Hinv); act_common Hinv;
          try (rewrite Hflag; exact Hrest).
        -- intros _. split; [reflexivity|]. split; [|now right].
           intros c0 _ H. congruence.
        -- rewrite timers_app. cbn. specialize (It c). lia.
        -- constructor; [|constructor]. constructor; [lia| |reflexivity].
           rewrite sends_app. cbn. apply last_snoc.
    + (* the start report *)
      destruct resp as [v|msg].
      * rewrite exec_afterStart_fulfilled by exact Ic. world_shape.
        apply (upload_inv_act w c _ _ _ _ _ (S (length bulks)) Hinv);
          act_common Hinv.
        -- cbn [sends]. rewrite sends_app, sends_data. cbn. symmetry. apply repeat_cons.
        -- intros _. split; [exact HF|]. split; [|now left].
           intros c0 H _. congruence.
        -- intros c0 Hne. cbn [timers]. rewrite timers_app, timers_data. reflexivity.
        -- rewrite timers_app. cbn [timers]. rewrite timers_app, timers_data. cbn.
           specialize (It c). lia.
        -- constructor; [intros ? ?; discriminate|]. apply Forall_app. split.
           ++ apply List.Forall_forall. intros ev Hev c0 ms ->.
              apply in_map_iff in Hev as (e & He & _). discriminate.
           ++ constructor; [|constructor]. intros ? ?; discriminate.
        -- assert (Hss : last (sends (trace w ++ Settle c startReport (Fulfilled v)
                                  :: map (fun e => Issue c (dataReport e)) bulks
                                  ++ [Issue c endReport])) = Some c).
           { rewrite sends_app. cbn [sends]. rewrite sends_app, sends_data. cbn.
             rewrite <- repeat_cons. apply last_app_repeat_S. }
           apply Forall_app. split.
           ++ apply List.Forall_forall. intros s Hs.
              apply in_map_iff in Hs as (e & <- & _). constructor. exact Hc.
           ++ constructor; [|constructor]. constructor; auto.
        -- apply Forall_app. split.
           ++ apply List.Forall_forall. intros s Hs.
              apply in_map_iff in Hs as (e & <- & _). reflexivity.
           ++ constructor; [reflexivity|constructor].
        -- rewrite filter_app, length_app.
           rewrite (filter_none _ (dataCallbacks c bulks)).
           ++ rewrite filter_cons_True by reflexivity. rewrite filter_nil.
              cbn [length Nat.add]. apply le_n.
           ++ apply List.Forall_forall. intros s Hs.
              apply in_map_iff in Hs as (e & <- & _). cbn. discriminate.
        -- intros c0 [H|H]; [discriminate|].
           apply in_app_or in H as [H|[H|[]]]; [|discriminate].
           apply in_map_iff in H as (e & He & _). discriminate.
      * rewrite exec_afterStart_reject. world_shape.
        rewrite <- (app_nil_r (delete i (pool w))).
        apply (upload_inv_act w c _ _ _ _ _ 0 Hinv); act_common Hinv.
        rewrite timers_app. cbn. specialize (It c). lia.
    + (* the end report *)
      destruct resp as [v|msg].
      * rewrite exec_afterEnd_fulfilled. world_shape.
        rewrite <- (app_nil_r (delete i (pool w))).
        apply (upload_inv_act w c _ _ _ _ _ 0 Hinv); act_common Hinv.
        -- intros _. right. split; [reflexivity|exact Hlast].
        -- rewrite timers_app. cbn. specialize (It c). lia.
      * rewrite exec_afterEnd_reject. world_shape.
        rewrite <- (app_nil_r (delete i (pool w))).
        apply (upload_inv_act w c _ _ _ _ _ 0 Hinv); act_common Hinv.
        rewrite timers_app. cbn. specialize (It c). lia.
  - (* the callback of a bulk *)
    destruct Hs as [c left img Hc Hin Hsum|c bulks Hc Hlast HF|c Hc Hlast HF|c e Hc];
      cbn [owner top cont awaits] in *; try discriminate.
    rewrite exec_afterData.
    apply (upload_inv_quiet w i
             (mkSuspended c (dataReport e) afterData false) resp Hinv).
Qed.

(** Every run of a page that only uploads images keeps the invariant. *)
Lemma upload_inv_step (w : world) (a : action) :
  upload_inv w -> is_upload a -> upload_inv (step w a).
Proof.
  intros Hinv Ha. destruct a as [p|i resp].
  - destruct Ha as (img & ->). now apply upload_inv_call.
  - now apply upload_inv_complete.
Qed.

Lemma upload_inv_run (sched : list action) :
  forall w, upload_inv w -> Forall is_upload sched -> upload_inv (run w sched).
Proof.
  induction sched as [|a sched IH]; intros w Hinv Hall; [exact Hinv|].
  apply Forall_cons in Hall as [Ha Hall]. cbn [run fold_left].
  apply IH; [|exact Hall]. now apply upload_inv_step.
Qed.

Lemma upload_inv_start (d : driver) :
  isConnected d = true -> deviceIsSending d = false -> upload_inv (start d).
Proof.
  intros Hc Hs. constructor; cbn [start this pool trace calls sends timers].
  - exact Hc.
  - constructor.
  - intros c. rewrite filter_nil. cbn [length]. apply Nat.le_0_l.
  - apply grouped_nil.
  - intros c [].
  - reflexivity.
  - intros c. apply Nat.le_0_l.
  - constructor.
  - intros c [].
Qed.

(** A call sends its first report only in a run that found the device
    not marked as sending. *)
Lemma first_send_when_free (w : world) (a : action) (c : nat) :
  upload_inv w -> is_upload a ->
  In c (sends (trace (step w a))) -> ~ In c (sends (trace w)) ->
  deviceIsSending (this w) = false.
Proof.
  intros Hinv Ha Hin Hnot.
  pose proof (inv_connected _ Hinv) as Ic.
  destruct (deviceIsSending (this w)) eqn:Hflag; [exfalso|reflexivity].
  destruct a as [p|i resp].
  - destruct Ha as (img & ->).
    destruct (Z.of_nat (length img)
              =? nullZ (width (cfg (this w))) * nullZ (height (cfg (this w))) * 3)
      eqn:Hf.
    + apply Z.eqb_eq in Hf. rewrite (setImage_busy w img Ic Hflag Hf) in Hin.
      cbn [trace] in Hin. rewrite sends_app in Hin. cbn in Hin.
      rewrite app_nil_r in Hin. contradiction.
    + rewrite (setImage_unfit w img Ic Hf) in Hin.
      cbn [trace] in Hin. rewrite sends_app in Hin. cbn in Hin.
      rewrite app_nil_r in Hin. contradiction.
  - cbn [step] in Hin. destruct (pool w !! i) as [s|] eqn:Hl; [|contradiction].
    pose proof (Forall_lookup_1 _ _ _ _ (inv_entries _ Hinv) Hl) as Hs.
    destruct Hs as [c0 left img Hc Hin0 Hsum|c0 bulks Hc Hlast HF|c0 Hc Hlast HF|c0 e Hc];
      cbn [owner top cont awaits] in Hin.
    + rewrite (afterWait_any left img resp) in Hin.
      destruct left as [|left].
      * rewrite exec_wait_timeout in Hin by exact Hflag.
        cbn [trace log] in Hin. rewrite !sends_app in Hin. cbn in Hin.
        rewrite !app_nil_r in Hin. contradiction.
      * rewrite exec_wait_busy in Hin by exact Hflag.
        cbn [trace log park] in Hin. rewrite !sends_app in Hin. cbn in Hin.
        rewrite !app_nil_r in Hin. contradiction.
    + destruct resp as [v|msg].
      * rewrite exec_afterStart_fulfilled in Hin by exact Ic.
        cbn [trace log] in Hin. rewrite !sends_app, sends_data in Hin. cbn in Hin.
        rewrite app_nil_r in Hin.
        apply in_app_or in Hin as [Hin|Hin]; [contradiction|].
        assert (c = c0).
        { apply in_app_or in Hin as [Hin|[Hin|[]]]; [now apply in_repeat in Hin|auto]. }
        subst c0. apply Hnot.
        apply last_Some in Hlast as (l' & ->). apply in_or_app. right. now left.
      * rewrite exec_afterStart_reject in Hin.
        cbn [trace log] in Hin. rewrite !sends_app in Hin. cbn in Hin.
        rewrite !app_nil_r in Hin. contradiction.
    + destruct resp as [v|msg].
      * rewrite exec_afterEnd_fulfilled in Hin.
        cbn [trace log set_this] in Hin. rewrite !sends_app in Hin. cbn in Hin.
        rewrite !app_nil_r in Hin. contradiction.
      * rewrite exec_afterEnd_reject in Hin.
        cbn [trace log] in Hin. rewrite !sends_app in Hin. cbn in Hin.
        rewrite !app_nil_r in Hin. contradiction.
    + rewrite exec_afterData in Hin.
      cbn [trace log] in Hin. rewrite !sends_app in Hin. cbn in Hin.
      rewrite !app_nil_r in Hin. contradiction.
Qed.

(** C3. On a connected driver that is not sending, whatever images a
    page uploads and whenever the device and the timers answer: the
    feature reports of different calls of [setImage] are never
    interleaved; a call starts at most 20 timers, each of 500 ms; a call
    that fails as blocked has started 20 timers, 10 seconds in all, and
    has sent no report; a call made while the device is marked as sending
    starts a timer and sends nothing; and a call sends its first report
    only in a run that found the device not marked as sending. *)
Theorem single_flight_upload (d : driver) (sched : list action) :
  isConnected d = true ->
  deviceIsSending d = false ->
  Forall is_upload sched ->
  let w := run (start d) sched in
  let tr := trace w in
  grouped (sends tr)
  /\ (forall c, (timers c tr <= 20)%nat
                /\ waited c tr = 500 * Z.of_nat (timers c tr))
  /\ (forall c, In (Raise c busy) tr ->
                timers c tr = 20%nat /\ waited c tr = 10000
                /\ ~ In c (sends tr))
  /\ (forall imageData,
         deviceIsSending (this w) = true -> fits (this w) imageData ->
         step w (Call (setImage imageData))
         = awaiting (SetTimeout 500) (afterWait 19 imageData) w)
  /\ (forall a c,
         is_upload a ->
         In c (sends (trace (step w a))) -> ~ In c (sends tr) ->
         deviceIsSending (this w) = false).
Proof.
  intros Hc Hs Hall w tr.
  assert (Hinv : upload_inv w).
  { apply upload_inv_run; [|exact Hall]. now apply upload_inv_start. }
  pose proof (waited_timers) as Hw.
  split; [apply (inv_grouped _ Hinv)|]. split; [|split; [|split]].
  - intros c. split; [apply (inv_timers _ Hinv)|].
    apply waited_timers, (inv_interval _ Hinv).
  - intros c Hb. destruct (inv_busy _ Hinv c Hb) as (H1 & H2 & _).
    split; [exact H1|]. split; [|exact H2].
    unfold tr. rewrite (waited_timers c _ (inv_interval _ Hinv)), H1. reflexivity.
  - intros img Hflag Hf.
    now rewrite (setImage_busy w img (inv_connected _ Hinv) Hflag Hf).
  - intros a c Ha Hin Hnot. now apply (first_send_when_free w a c).
Qed.

Lemma single_flight_upload_witness :
  let tr := trace (run (start Examples.narrow) Examples.blocked_schedule) in
  In (Raise 1 busy) tr
  /\ sends tr = [0]%nat
  /\ grouped (sends tr)
  /\ timers 1 tr = 20%nat /\ waited 1 tr = 10000 /\ ~ In 1%nat (sends tr).
Proof.
  cbv zeta.
  assert (Hin : In (Raise 1 busy)
                  (trace (run (start Examples.narrow) Examples.blocked_schedule))).
  { vm_compute. do 41 right. left. reflexivity. }
  destruct (single_flight_upload Examples.narrow Examples.blocked_schedule)
    as (Hg & _ & Hb & _).
  - reflexivity.
  - reflexivity.
  - unfold Examples.blocked_schedule. apply Forall_app. split.
    + constructor; [eexists; reflexivity|].
      constructor; [eexists; reflexivity|constructor].
    + apply List.Forall_forall. intros a Ha.
      apply repeat_spec in Ha. subst a. exact I.
  - destruct (Hb 1%nat Hin) as (H1 & H2 & H3).
    split; [exact Hin|]. split; [vm_compute; reflexivity|].
    split; [exact Hg|]. split; [exact H1|]. split; [exact H2|exact H3].
Defined.

(** When the first upload ends in time, the second goes on: the reports
    of the first call all come before the reports of the second. *)
Lemma queued_upload :
  let tr := trace (run (start Examples.narrow) Examples.queued_schedule) in
  sends tr = [0; 0; 0; 0; 0; 1]%nat
  /\ In (Return 0 Undefined) tr
  /\ timers 1 tr = 1%nat.
Proof. vm_compute. split; [reflexivity|]. split; [|reflexivity]. auto 20. Qed.

End SingleFlight.

(** ** Listeners *)

Section Listeners.

Import Events.

Lemma raiseEvent_app (name : string) (l1 l2 : list listener) :
  raiseEvent name (l1 ++ l2) = raiseEvent name l1 ++ raiseEvent name l2.
Proof.
  induction l1 as [|e l1 IH]; [reflexivity|].
  cbn. destruct (String.eqb (eventName e) name); cbn; now rewrite IH.
Qed.

Lemma un_app name fn ctx (l1 l2 : list listener) :
  un name fn ctx (l1 ++ l2) = un name fn ctx l1 ++ un name fn ctx l2.
Proof. unfold un. apply List.filter_app. Qed.

(** X1. Listeners. [un()] without arguments removes every listener;
    after [un(name)] an event of that name reaches no callback, while
    the events of every other name reach the same callbacks in the same
    order as before; a listener added with [on] is called last; and
    [un(name, fn, ctx)] right after [on(name, fn, ctx)] gives back the
    list of listeners as it was, when no such listener was in it. *)
Theorem unsubscribe_silences (events : list listener) (name : string) :
  un None None None events = []
  /\ raiseEvent name (un (Some name) None None events) = []
  /\ (forall other,
         other <> name ->
         raiseEvent other (un (Some name) None None events)
         = raiseEvent other events)
  /\ (forall fn ctx,
         raiseEvent name (on name fn ctx events)
         = raiseEvent name events
           ++ [(fn, match ctx with Some o => Object o | None => Window end)])
  /\ (forall fn c,
         Forall (fun e => ~ (eventName e = name /\ callbackFn e = fn
                             /\ context e = Some c)) events ->
         un (Some name) (Some fn) (Some c) (on name fn (Some c) events) = events).
Proof.
  repeat split.
  - induction events as [|e events IH]; [reflexivity|exact IH].
  - induction events as [|e events IH]; [reflexivity|].
    cbn. rewrite andb_true_r.
    destruct (String.eqb_spec name (eventName e)) as [E|E]; [exact IH|].
    cbn. destruct (String.eqb_spec (eventName e) name) as [E'|E'];
      [now subst|exact IH].
  - intros other Ho. unfold un. induction events as [|e events IH]; [reflexivity|].
    cbn. rewrite andb_true_r.
    destruct (String.eqb_spec name (eventName e)) as [E|E].
    + destruct (String.eqb_spec (eventName e) other) as [E'|E'];
        [congruence|exact IH].
    + cbn. destruct (String.eqb (eventName e) other); now rewrite IH.
  - intros fn ctx. unfold on. rewrite raiseEvent_app. cbn.
    now rewrite String.eqb_refl.
  - intros fn c Hall. unfold on. rewrite un_app. cbn.
    rewrite String.eqb_refl, Nat.eqb_refl, bool_decide_eq_true_2 by reflexivity.
    cbn. rewrite app_nil_r.
    induction Hall as [|e events He _ IH]; [reflexivity|].
    cbn. 
    destruct (String.eqb_spec name (eventName e)) as [E1|E1];
      destruct (Nat.eqb_spec fn (callbackFn e)) as [E2|E2];
      destruct (bool_decide_reflect (Some c = context e)) as [E3|E3];
      cbn; try (now f_equal).
    exfalso. apply He. auto.
Qed.

Lemma unsubscribe_silences_witness :
  let events := [mkListener "penData" 1 None; mkListener "hidConnect" 2 (Some 7%nat);
                 mkListener "penData" 3 (Some 7%nat)] in
  raiseEvent "hidConnect"%string (un (Some "penData"%string) None None events)
  = [(2%nat, Object 7)]
  /\ un (Some "penData"%string) (Some 4%nat) (Some 9%nat)
       (on "penData" 4 (Some 9%nat) events) = events.
Proof.
  cbv zeta.
  pose proof (unsubscribe_silences
                [mkListener "penData" 1 None; mkListener "hidConnect" 2 (Some 7%nat);
                 mkListener "penData" 3 (Some 7%nat)] "penData"%string)
    as (_ & _ & H3 & _ & H5).
  split.
  - rewrite H3 by discriminate. reflexivity.
  - apply H5. repeat constructor; cbn; intros (_ & H & _); discriminate.
Defined.

End Listeners.

(** ** The sample log *)

Section SignatureData.

Lemma receive_not_touched (l : list packet) :
  forall this,
    existsb sw l = false ->
    svgElement (receive l this) = svgElement this.
Proof.
  induction l as [|p l IH]; intros this Hl; [reflexivity|].
  cbn in Hl. apply orb_false_elim in Hl as [Hp Hl].
  rewrite receive_cons, IH by exact Hl.
  apply storePacket_not_inked. unfold inked. rewrite Hp.
  now rewrite andb_false_r.
Qed.

(** X2. [hasSignatureData]. Samples that arrive are all counted, also
    the one whose handler throws: afterwards [hasSignatureData(false)]
    tells whether the log had a sample or one arrived, and
    [hasSignatureData()] whether one of them had the pen in contact. A
    log that answers true to the second answers true to the first, and
    while no sample with the pen in contact has arrived nothing is added
    to the drawing. After [#clearSignatureData] both answer false. *)
Theorem hasSignatureData_receive (this : driver) (l : list packet) :
  hasSignatureData true (receive l this)
  = hasSignatureData true this || existsb sw l
  /\ hasSignatureData false (receive l this)
     = hasSignatureData false this || (0 <? length l)%nat
  /\ (hasSignatureData true this = true -> hasSignatureData false this = true)
  /\ (hasSignatureData true (receive l this) = false ->
      svgElement (receive l this) = svgElement this)
  /\ (forall b, hasSignatureData b (snd (clearSignatureData (receive l this))) = false).
Proof.
  unfold hasSignatureData. rewrite receive_path.
  split; [apply existsb_app|]. split.
  { rewrite length_app.
    destruct (signaturePath this), l; cbn; reflexivity. }
  split.
  { destruct (signaturePath this); [discriminate|reflexivity]. }
  split.
  { rewrite existsb_app. intros H. apply orb_false_elim in H as [_ H].
    now apply receive_not_touched. }
  intros []; reflexivity.
Qed.

Lemma hasSignatureData_receive_witness :
  let d := receive [Examples.contact_only 5000 2500] Examples.connected in
  hasSignatureData true d = true /\ hasSignatureData false d = true.
Proof.
  cbv zeta.
  destruct (hasSignatureData_receive Examples.connected
              [Examples.contact_only 5000 2500]) as (H1 & H2 & H3 & _).
  split; [rewrite H1; reflexivity|].
  apply (proj1 (proj2 (proj2
           (hasSignatureData_receive
              (receive [Examples.contact_only 5000 2500] Examples.connected) [])))).
  rewrite H1. reflexivity.
Defined.

End SignatureData.

(** ** Hexadecimal text and colours *)

Section HexText.

Import Ascii.

Lemma readHex_byte (b : Byte.byte) (s : list Ascii.ascii) :
  readHex (padStart2 (toString16 b) ++ s)
  = (r ← readHex s; Some (Z.of_N (Byte.to_N b) :: r)).
Proof. destruct b; reflexivity. Qed.

Lemma hex_byte_length (b : Byte.byte) : length (padStart2 (toString16 b)) = 2%nat.
Proof. destruct b; reflexivity. Qed.

(** X3. The hexadecimal text [getSvgSigned] writes for the public key and
    for the signature has two characters for every byte, and reading it
    two digits at a time gives the bytes back. *)
Theorem hexDump_readable (sigBytes : list Byte.byte) :
  length (hexDump sigBytes) = (2 * length sigBytes)%nat
  /\ readHex (hexDump sigBytes)
     = Some (map (fun b => Z.of_N (Byte.to_N b)) sigBytes).
Proof.
  induction sigBytes as [|b l [IH1 IH2]]; [split; reflexivity|].
  cbn [hexDump]. split.
  - rewrite length_app, hex_byte_length, IH1. cbn [length]. lia.
  - rewrite readHex_byte, IH2. reflexivity.
Qed.

Lemma hexValue_digit (a : Ascii.ascii) (v : Z) :
  hexValue a = Some v ->
  0 <= v < 16 /\ (charCode a =? 35) = false /\ lineTerminator a = false.
Proof.
  unfold hexValue, lineTerminator. cbv zeta.
  destruct (Z.leb_spec 48 (charCode a)), (Z.leb_spec (charCode a) 57),
    (Z.leb_spec 97 (charCode a)), (Z.leb_spec (charCode a) 102),
    (Z.leb_spec 65 (charCode a)), (Z.leb_spec (charCode a) 70);
    cbn; intros [= <-]; try lia;
    (split; [lia|]; split; [apply Z.eqb_neq; lia|];
     apply orb_false_intro; apply Z.eqb_neq; lia).
Qed.

Lemma lineTerminator_no_digit (a : Ascii.ascii) :
  lineTerminator a = true -> hexValue a = None.
Proof.
  destruct (hexValue a) as [v|] eqn:E; [|reflexivity].
  apply hexValue_digit in E as (_ & _ & ->). discriminate.
Qed.

Lemma parseInt0x_short (e : list Ascii.ascii) :
  (length e <= 2)%nat -> byte_or_nan (parseInt0x e).
Proof.
  unfold parseInt0x.
  destruct e as [|a [|b [|c e]]]; cbn [length]; intros Hl; try lia; cbn.
  - exact I.
  - destruct (hexValue a) eqn:Ea; [|exact I].
    apply hexValue_digit in Ea as (? & _). cbn. unfold is_byte. lia.
  - destruct (hexValue a) eqn:Ea; [|exact I].
    apply hexValue_digit in Ea as (? & _).
    destruct (hexValue b) eqn:Eb; cbn.
    + apply hexValue_digit in Eb as (? & _). unfold is_byte. lia.
    + unfold is_byte. lia.
Qed.

Lemma parseInt0x_terminated (a b : Ascii.ascii) (e : list Ascii.ascii) :
  lineTerminator a || lineTerminator b = true ->
  byte_or_nan (parseInt0x (a :: b :: e)).
Proof.
  intros H. unfold parseInt0x. cbn [hexPrefix].
  destruct (hexValue a) eqn:Ea; [|exact I].
  pose proof (hexValue_digit _ _ Ea) as (? & _ & Ha).
  rewrite Ha in H. cbn in H. rewrite (lineTerminator_no_digit _ H).
  cbn. unfold is_byte. lia.
Qed.

Lemma splitPairs_bytes (s : list Ascii.ascii) :
  Forall byte_or_nan (map parseInt0x (splitPairs s))
  /\ forall a, Forall byte_or_nan (map parseInt0x (splitPairs (a :: s))).
Proof.
  induction s as [|b s [IH1 IH2]].
  - split; [|intros a]; repeat constructor.
    apply parseInt0x_short. cbn. lia.
  - split; [apply IH2|]. intros a.
    destruct s as [|c s].
    + repeat constructor. apply parseInt0x_short. cbn. lia.
    + cbn [splitPairs].
      destruct (lineTerminator a || lineTerminator b) eqn:E.
      * repeat constructor. now apply parseInt0x_terminated.
      * cbn [map]. constructor; [apply parseInt0x_short; cbn; lia|].
        exact IH1.
Qed.

(** X4. The conversion of a colour string by [setPenColorAndWidth] and
    [setBackgroundColor]. Six hexadecimal digits of either case, with or
    without a [#] in front, give the three bytes they spell, in the
    order red, green, blue; and whatever the string is, every component
    is NaN or a number from 0 to 255, so none is changed when the array
    is made into bytes. *)
Theorem colorComponents_rrggbb (a1 a2 a3 a4 a5 a6 : Ascii.ascii)
        (v1 v2 v3 v4 v5 v6 : Z) :
  hexValue a1 = Some v1 -> hexValue a2 = Some v2 -> hexValue a3 = Some v3 ->
  hexValue a4 = Some v4 -> hexValue a5 = Some v5 -> hexValue a6 = Some v6 ->
  let digits := [a1; a2; a3; a4; a5; a6] in
  let rgb := [Some (16 * v1 + v2); Some (16 * v3 + v4); Some (16 * v5 + v6)] in
  colorComponents (string_of_list_ascii (Ascii.ascii_of_N 35 :: digits)) = rgb
  /\ colorComponents (string_of_list_ascii digits) = rgb
  /\ Uint8Array rgb = [16 * v1 + v2; 16 * v3 + v4; 16 * v5 + v6]
  /\ forall color, Forall byte_or_nan (colorComponents color).
Proof.
  intros H1 H2 H3 H4 H5 H6 digits rgb.
  pose proof (hexValue_digit _ _ H1) as (R1 & N1 & T1).
  pose proof (hexValue_digit _ _ H2) as (R2 & N2 & T2).
  pose proof (hexValue_digit _ _ H3) as (R3 & N3 & T3).
  pose proof (hexValue_digit _ _ H4) as (R4 & N4 & T4).
  pose proof (hexValue_digit _ _ H5) as (R5 & N5 & T5).
  pose proof (hexValue_digit _ _ H6) as (R6 & N6 & T6).
  assert (E : map parseInt0x (splitPairs digits) = rgb).
  { unfold digits, rgb. cbn [splitPairs map].
    rewrite T1, T2, T3, T4. cbn [orb map]. unfold parseInt0x. cbn [hexPrefix].
    rewrite H1, H2, H3, H4, H5, H6. cbn [default].
    repeat f_equal; lia. }
  unfold colorComponents. rewrite !list_ascii_of_string_of_list_ascii.
  split; [exact E|]. split.
  { unfold digits at 1. cbn [removeHash]. rewrite N1, N2, N3, N4, N5, N6. exact E. }
  split.
  { unfold rgb, Uint8Array. cbn [map toUint8].
    rewrite !Z.mod_small by lia. reflexivity. }
  intros color. apply splitPairs_bytes.
Qed.

Lemma colorComponents_rrggbb_witness :
  colorComponents "#FF8000" = [Some 255; Some 128; Some 0]
  /\ colorComponents "ff8000" = [Some 255; Some 128; Some 0].
Proof.
  split.
  - apply (colorComponents_rrggbb "F"%char "F"%char "8"%char "0"%char "0"%char "0"%char 15 15 8 0 0 0);
      reflexivity.
  - apply (colorComponents_rrggbb "f"%char "f"%char "8"%char "0"%char "0"%char "0"%char 15 15 8 0 0 0);
      reflexivity.
Defined.

End HexText.

(** ** Sending a canvas *)

Section Canvas.

Lemma remapLoop_length (data : list Z) (n : nat) :
  forall i, length (remapLoop n i data) = (3 * n)%nat.
Proof.
  induction n as [|n IH]; intros i; [reflexivity|].
  cbn [remapLoop length]. rewrite IH. lia.
Qed.

Lemma remapLoop_lookup (data : list Z) (n : nat) :
  forall i k,
    (k < n)%nat ->
    remapLoop n i data !! (3 * k)%nat = Some (data !! (i + 4 * k + 2)%nat)
    /\ remapLoop n i data !! (3 * k + 1)%nat = Some (data !! (i + 4 * k + 1)%nat)
    /\ remapLoop n i data !! (3 * k + 2)%nat = Some (data !! (i + 4 * k)%nat).
Proof.
  induction n as [|n IH]; intros i k Hk; [lia|].
  destruct k as [|k].
  - cbn. rewrite !Nat.add_0_r. auto.
  - replace (3 * S k + 1)%nat with (S (S (S (3 * k + 1)))) by lia.
    replace (3 * S k + 2)%nat with (S (S (S (3 * k + 2)))) by lia.
    replace (3 * S k)%nat with (S (S (S (3 * k)))) by lia.
    cbn [remapLoop]. rewrite !lookup_cons.
    destruct (IH (i + 4)%nat k ltac:(lia)) as (H1 & H2 & H3).
    rewrite H1, H2, H3.
    replace (i + 4 + 4 * k + 2)%nat with (i + 4 * S k + 2)%nat by lia.
    replace (i + 4 + 4 * k + 1)%nat with (i + 4 * S k + 1)%nat by lia.
    replace (i + 4 + 4 * k)%nat with (i + 4 * S k)%nat by lia.
    auto.
Qed.

Lemma remapBGR_whole (data : list Z) (n : nat) :
  length data = (4 * n)%nat ->
  remapBGR data = Uint8Array (remapLoop n 0 data).
Proof.
  intros Hl. unfold remapBGR. rewrite Hl.
  replace (4 * n * 3)%nat with (3 * n * 4)%nat by lia.
  rewrite Nat.div_mul by lia.
  replace (4 * n + 3)%nat with (n * 4 + 3)%nat by lia.
  rewrite Nat.div_add_l by lia. cbn [Nat.div Nat.divmod fst]. rewrite Nat.add_0_r.
  apply take_ge. unfold Uint8Array. rewrite length_map, remapLoop_length. lia.
Qed.

(** X5. The pixels [setCanvas] sends. Image data of [n] pixels, four
    bytes each, becomes an array of [3 * n] bytes: the blue, the green
    and the red byte of every pixel, in this order, and no alpha
    byte. *)
Theorem remapBGR_pixels (data : list Z) (n : nat) :
  length data = (4 * n)%nat ->
  Forall is_byte data ->
  length (remapBGR data) = (3 * n)%nat
  /\ forall k,
       (k < n)%nat ->
       remapBGR data !! (3 * k)%nat = data !! (4 * k + 2)%nat
       /\ remapBGR data !! (3 * k + 1)%nat = data !! (4 * k + 1)%nat
       /\ remapBGR data !! (3 * k + 2)%nat = data !! (4 * k)%nat.
Proof.
  intros Hl Hb. rewrite (remapBGR_whole data n Hl). unfold Uint8Array.
  split; [now rewrite length_map, remapLoop_length|].
  intros k Hk.
  assert (Hbyte : forall j, (j < 4 * n)%nat ->
                    toUint8 (data !! j) = default 0 (data !! j)
                    /\ is_Some (data !! j)).
  { intros j Hj. destruct (data !! j) as [v|] eqn:E.
    - split; [|eauto]. cbn.
      rewrite Forall_lookup in Hb. specialize (Hb j v E).
      unfold is_byte in Hb. now rewrite Z.mod_small.
    - apply lookup_ge_None in E. lia. }
  destruct (remapLoop_lookup data n 0 k Hk) as (H1 & H2 & H3).
  change (map toUint8 (remapLoop n 0 data)) with (toUint8 <$> remapLoop n 0 data).
  rewrite !list_lookup_fmap, H1, H2, H3. cbn [fmap option_fmap option_map plus].
  destruct (Hbyte (4 * k + 2)%nat ltac:(lia)) as (-> & [v1 ->]).
  destruct (Hbyte (4 * k + 1)%nat ltac:(lia)) as (-> & [v2 ->]).
  destruct (Hbyte (4 * k)%nat ltac:(lia)) as (-> & [v3 ->]).
  auto.
Qed.

Lemma remapBGR_pixels_witness :
  let data := [10; 20; 30; 255; 40; 50; 60; 0] in
  length (remapBGR data) = 6%nat
  /\ remapBGR data !! 3%nat = Some 60
  /\ remapBGR data !! 5%nat = Some 40.
Proof.
  cbv zeta.
  destruct (remapBGR_pixels [10; 20; 30; 255; 40; 50; 60; 0] 2) as (Hl & Hk).
  - reflexivity.
  - repeat constructor; unfold is_byte; lia.
  - split; [exact Hl|].
    destruct (Hk 1%nat ltac:(lia)) as (B0 & _ & B2).
    split; [exact B0|exact B2].
Defined.

(** X6. The image data of a rectangle as large as the display of the
    pad always passes the length check of [setImage]: on a connected
    driver that is not sending, [setCanvas] does not throw but marks the
    device as sending and hands the start report to the pad. *)
Theorem setCanvas_accepted (w : world) (data : list Z) :
  isConnected (this w) = true ->
  deviceIsSending (this w) = false ->
  Z.of_nat (length data)
  = nullZ (width (cfg (this w))) * nullZ (height (cfg (this w))) * 4 ->
  fits (this w) (remapBGR data)
  /\ exists k,
       step w (Call (setCanvas data))
       = {| this := set_deviceIsSending true (this w);
            pool := pool w ++ [mkSuspended (calls w) startReport k true];
            trace := trace w ++ [Issue (calls w) startReport];
            calls := S (calls w) |}.
Proof.
  intros Hc Hs Hl.
  set (W := nullZ (width (cfg (this w)))) in *.
  set (H := nullZ (height (cfg (this w)))) in *.
  assert (Hn : length data = (4 * Z.to_nat (W * H))%nat) by lia.
  assert (Hf : fits (this w) (remapBGR data)).
  { unfold fits. fold W H. rewrite (remapBGR_whole data _ Hn).
    unfold Uint8Array. rewrite length_map, remapLoop_length. lia. }
  split; [exact Hf|].
  destruct (splitToBulks_total (remapBGR data) chunkSize) as [bulks Hb];
    [unfold chunkSize; lia|].
  unfold fits in Hf. apply Z.eqb_eq in Hf.
  eexists. cbn [step]. unfold setCanvas, setImage.
  cbn [mbind proc_bind pbind exec get this].
  rewrite Hc. cbn [negb pbind]. rewrite Hf. cbn [negb pbind].
  cbn [waitWhileSending mbind proc_bind pbind exec get this]. rewrite Hs.
  unfold sendImage. cbn [mbind proc_bind pbind exec modify this set_this]. rewrite Hb.
  unfold sendData. cbn [mbind proc_bind pbind exec get this set_this].
  change (isConnected (set_deviceIsSending true (this w)))
    with (isConnected (this w)).
  rewrite Hc. reflexivity.
Qed.

Lemma setCanvas_accepted_witness :
  fits Examples.narrow (remapBGR (repeat 9 680))
  /\ trace (step (start Examples.narrow) (Call (setCanvas (repeat 9 680))))
     = [Issue 0 startReport].
Proof.
  destruct (setCanvas_accepted (start Examples.narrow) (repeat 9 680))
    as (Hf & k & Hk); try reflexivity.
  split; [exact Hf|]. rewrite Hk. reflexivity.
Defined.

End Canvas.

(** ** What the setters leave behind *)

Section Commit.

Lemma complete_last (d : driver) (l : list suspended) (tr : list event) (n : nat)
      (s : suspended) (resp : response) :
  step {| this := d; pool := l ++ [s]; trace := tr; calls := n |}
    (Complete (length l) resp)
  = exec (owner s) (top s) (cont s resp)
      {| this := d; pool := l;
         trace := tr ++ [Settle (owner s) (awaits s) resp]; calls := n |}.
Proof.
  cbn [step pool]. rewrite list_lookup_middle by reflexivity.
  unfold log. cbn [this pool trace calls].
  rewrite delete_middle, app_nil_r. reflexivity.
Qed.

Lemma settled_eq (w : world) (p : proc value) (r : request)
      (k : response -> proc value) (resp : response) :
  step w (Call p) = awaiting r k w ->
  settled w p resp
  = exec (calls w) true (k resp)
      {| this := this w; pool := pool w;
         trace := trace w ++ [Issue (calls w) r; Settle (calls w) r resp];
         calls := S (calls w) |}.
Proof.
  intros H. unfold settled, run. cbn [fold_left]. rewrite H.
  unfold awaiting. rewrite complete_last. cbn [owner top cont awaits].
  now rewrite <- app_assoc.
Qed.

Ltac call_setter Hc :=
  repeat (progress (cbn [mbind proc_bind pbind exec get this sendData readData];
                    rewrite ?Hc; cbn [negb pbind exec])).

Ltac first_await :=
  unfold await; cbn [pbind exec mbind proc_bind];
  unfold awaiting, park, log; cbn [this pool trace calls]; reflexivity.

Ltac finish_setter :=
  cbn [exec]; unfold finished, outcome, commit, update_cfg, log, set_this;
  cbn [this pool trace calls];
  rewrite <- ?app_assoc; reflexivity.

(** X7. A setter changes the cached profile only when the pad has taken
    the report. On a connected driver [setWritingMode], [setInking],
    [setWritingArea] and [setPenColorAndWidth] (with a colour of three
    components) hand one report to the pad; when it is accepted the call
    returns and the profile holds the new value, and when it is rejected
    the call throws the reason and the driver is as it was before the
    call. *)
Theorem setters_commit (w : world) (resp : response) :
  isConnected (this w) = true ->
  (forall mode,
      mode = 0 \/ mode = 1 ->
      settled w (setWritingMode mode) resp
      = finished (SendFeatureReport command.writingMode [mode]) resp
          (commit resp (update_cfg (with_writingMode (Some mode))) (this w))
          (outcome resp) w)
  /\ (forall enabled,
      settled w (setInking enabled) resp
      = finished (SendFeatureReport command.inkMode [if enabled then 1 else 0]) resp
          (commit resp (update_cfg (with_inkMode (Some enabled))) (this w))
          (outcome resp) w)
  /\ (forall x1 y1 x2 y2,
      settled w (setWritingArea x1 y1 x2 y2) resp
      = finished
          (SendFeatureReport command.writingArea
             (uint16_le x1 ++ uint16_le y1 ++ uint16_le x2 ++ uint16_le y2)) resp
          (commit resp
             (update_cfg
                (with_writingArea (Some (of_Z x1, of_Z y1, of_Z x2, of_Z y2))))
             (this w))
          (outcome resp) w)
  /\ (forall r g b width,
      is_byte r -> is_byte g -> is_byte b ->
      width = 0 \/ width = 1 \/ width = 2 \/ width = 3 ->
      settled w (setPenColorAndWidth [r; g; b] width) resp
      = finished (SendFeatureReport command.penColorAndWidth [r; g; b; width]) resp
          (commit resp
             (fun d =>
                update_cfg (with_penWidth (Some width))
                  (update_cfg (with_penColor (Some [Some r; Some g; Some b])) d))
             (this w))
          (outcome resp) w).
Proof.
  intros Hc. repeat split.
  - intros mode Hm.
    assert (Hn : not_in_01 mode = false) by (destruct Hm; subst; reflexivity).
    assert (Hu : Uint8Array [Some mode] = [mode]) by (destruct Hm; subst; reflexivity).
    etransitivity.
    { apply settled_eq. cbn [step]. unfold setWritingMode.
      call_setter Hc. rewrite Hn. call_setter Hc. rewrite Hu. first_await. }
    destruct resp; cbn; finish_setter.
  - intros enabled.
    etransitivity.
    { apply settled_eq. cbn [step]. unfold setInking.
      call_setter Hc. first_await. }
    destruct resp; cbn; finish_setter.
  - intros x1 y1 x2 y2.
    etransitivity.
    { apply settled_eq. cbn [step]. unfold setWritingArea.
      call_setter Hc. first_await. }
    destruct resp; cbn; finish_setter.
  - intros r g b width Hr Hg Hb Hw.
    assert (Hn : not_in_0123 width = false)
      by (destruct Hw as [|[|[|]]]; subst; reflexivity).
    assert (Hu : Uint8Array (map Some ([r; g; b] ++ [width])) = [r; g; b; width]).
    { unfold is_byte in *. cbn. rewrite !Z.mod_small by lia. reflexivity. }
    etransitivity.
    { apply settled_eq. cbn [step]. unfold setPenColorAndWidth.
      call_setter Hc. rewrite Hn. cbv zeta. call_setter Hc. rewrite Hu.
      first_await. }
    destruct resp; cbn; finish_setter.
Qed.

Lemma setters_commit_witness :
  let w := start Examples.connected in
  writingMode (cfg (this (settled w (setWritingMode 0) (Fulfilled Undefined))))
  = Some 0
  /\ this (settled w (setWritingMode 0) (Reject "NotAllowedError")) = this w
  /\ penColor (cfg (this (settled w (setPenColorAndWidth [255; 0; 0] 2)
                            (Fulfilled Undefined))))
     = Some [Some 255; Some 0; Some 0].
Proof.
  cbv zeta.
  destruct (setters_commit (start Examples.connected) (Fulfilled Undefined) eq_refl)
    as (H1 & _ & _ & H4).
  destruct (setters_commit (start Examples.connected) (Reject "NotAllowedError")
              eq_refl) as (H1' & _).
  rewrite (H1 0), (H1' 0) by lia.
  rewrite (H4 255 0 0 2) by (unfold is_byte; lia).
  repeat split.
Defined.


Ltac settle_last :=
  unfold awaiting, park, log; cbn [this pool trace calls];
  rewrite complete_last; cbn [owner top cont awaits].

(** X8. [setBrightness] asks the pad for its brightness first. When the
    pad reports the requested intensity nothing is written and the
    cached profile is left as it is, whatever it holds; when it reports
    another one, the new intensity is written and, once the pad has
    taken it, cached (a rejected write leaves the profile as it is);
    and a report without a second byte makes the call throw a
    RangeError. *)
Theorem setBrightness_write (w : world) (intensity : Z) (dv : list Z)
        (resp : response) :
  isConnected (this w) = true ->
  intensity = 0 \/ intensity = 1 \/ intensity = 2 \/ intensity = 3 ->
  let read := ReceiveFeatureReport command.brightness in
  let write := SendFeatureReport command.brightness [intensity; 0] in
  let c := calls w in
  (dv !! 1%nat = Some intensity ->
   settled w (setBrightness intensity) (Fulfilled (DataView dv))
   = finished read (Fulfilled (DataView dv)) (this w)
       (fun c => Return c Undefined) w)
  /\ (forall b,
       dv !! 1%nat = Some b -> b <> intensity ->
       run w [Call (setBrightness intensity);
              Complete (length (pool w)) (Fulfilled (DataView dv));
              Complete (length (pool w)) resp]
       = {| this := commit resp (update_cfg (with_brightness (Some intensity)))
                      (this w);
            pool := pool w;
            trace := trace w
                     ++ [Issue c read; Settle c read (Fulfilled (DataView dv));
                         Issue c write; Settle c write resp; outcome resp c];
            calls := S c |})
  /\ (dv !! 1%nat = None ->
      settled w (setBrightness intensity) (Fulfilled (DataView dv))
      = finished read (Fulfilled (DataView dv)) (this w)
          (fun c => Raise c RangeError) w).
Proof.
  intros Hc Hi read write c.
  assert (Hn : not_in_0123 intensity = false)
    by (destruct Hi as [|[|[|]]]; subst; reflexivity).
  assert (Hu : Uint8Array [Some intensity; Some 0] = [intensity; 0])
    by (destruct Hi as [|[|[|]]]; subst; reflexivity).
  assert (Hstep : exists k,
             step w (Call (setBrightness intensity)) = awaiting read k w
             /\ forall v, k (Fulfilled v)
                = (b ← dvUint8 v 1;
                   if b =? intensity then Ret Undefined
                   else
                     sendData command.brightness
                       (Uint8Array [Some intensity; Some 0]);;
                     modify_cfg (with_brightness (Some intensity));;
                     Ret Undefined)).
  { eexists. split.
    - cbn [step]. unfold setBrightness. call_setter Hc. rewrite Hn.
      call_setter Hc. first_await.
    - reflexivity. }
  destruct Hstep as (k & Hstep & Hk).
  repeat split.
  - intros Hb. rewrite (settled_eq _ _ _ _ _ Hstep), Hk.
    unfold dvUint8, getUint8. rewrite Hb. cbn [mbind proc_bind pbind].
    rewrite Z.eqb_refl. finish_setter.
  - intros b Hb Hne. unfold run. cbn [fold_left]. rewrite Hstep.
    settle_last. rewrite Hk.
    unfold dvUint8, getUint8. rewrite Hb. cbn [mbind proc_bind pbind].
    apply Z.eqb_neq in Hne. rewrite Hne. rewrite Hu.
    call_setter Hc. unfold await. cbn [pbind exec mbind proc_bind].
    settle_last.
    destruct resp; cbn; finish_setter.
  - intros Hb. rewrite (settled_eq _ _ _ _ _ Hstep), Hk.
    unfold dvUint8, getUint8. rewrite Hb. cbn [mbind proc_bind pbind].
    finish_setter.
Qed.


Lemma setBrightness_write_witness :
  let w := start Examples.connected in
  brightness (cfg (this w)) = Some 3
  /\ settled w (setBrightness 1) (Fulfilled (DataView [0x2B; 1]))
     = finished (ReceiveFeatureReport command.brightness)
         (Fulfilled (DataView [0x2B; 1])) (this w) (fun c => Return c Undefined) w
  /\ brightness
       (cfg (this (run w [Call (setBrightness 1);
                          Complete 0 (Fulfilled (DataView [0x2B; 2]));
                          Complete 0 (Fulfilled Undefined)])))
     = Some 1.
Proof.
  cbv zeta.
  destruct (setBrightness_write (start Examples.connected) 1 [0x2B; 1]
              (Fulfilled Undefined) eq_refl ltac:(lia)) as (H1 & _ & _).
  destruct (setBrightness_write (start Examples.connected) 1 [0x2B; 2]
              (Fulfilled Undefined) eq_refl ltac:(lia)) as (_ & H2 & _).
  split; [reflexivity|]. split; [apply H1; reflexivity|].
  change (length (pool (start Examples.connected))) with 0%nat in H2.
  rewrite (H2 2) by (reflexivity || lia). reflexivity.
Defined.

(** X9. [setBackgroundColor] asks the pad for its background colour
    first. When the three bytes of the report are the three components
    of the colour nothing is written and the cached profile is left as it
    is; when one of them differs the colour is written and, once the pad
    has taken it, cached, while a rejected write leaves the profile as
    it is. *)
Theorem setBackgroundColor_write (w : world) (r g b : Z) (dv : list Z)
        (resp : response) :
  isConnected (this w) = true ->
  is_byte r -> is_byte g -> is_byte b ->
  let read := ReceiveFeatureReport command.backgroundColor in
  let write := SendFeatureReport command.backgroundColor [r; g; b] in
  let c := calls w in
  (dv !! 1%nat = Some r -> dv !! 2%nat = Some g -> dv !! 3%nat = Some b ->
   settled w (setBackgroundColor [r; g; b]) (Fulfilled (DataView dv))
   = finished read (Fulfilled (DataView dv)) (this w)
       (fun c => Return c Undefined) w)
  /\ (forall r' g' b',
       dv !! 1%nat = Some r' -> dv !! 2%nat = Some g' -> dv !! 3%nat = Some b' ->
       (r', g', b') <> (r, g, b) ->
       run w [Call (setBackgroundColor [r; g; b]);
              Complete (length (pool w)) (Fulfilled (DataView dv));
              Complete (length (pool w)) resp]
       = {| this := commit resp
                      (update_cfg
                         (with_backgroundColor (Some [Some r; Some g; Some b])))
                      (this w);
            pool := pool w;
            trace := trace w
                     ++ [Issue c read; Settle c read (Fulfilled (DataView dv));
                         Issue c write; Settle c write resp; outcome resp c];
            calls := S c |}).
Proof.
  intros Hc Hr Hg Hb read write c.
  assert (Hu : Uint8Array (map Some [r; g; b]) = [r; g; b]).
  { unfold is_byte in *. cbn. rewrite !Z.mod_small by lia. reflexivity. }
  assert (Hstep : exists k,
             step w (Call (setBackgroundColor [r; g; b])) = awaiting read k w
             /\ forall v, k (Fulfilled v)
                = (b1 ← dvUint8 v 1;
                   same ← (if bool_decide (Some b1 = Some r) then
                             b2 ← dvUint8 v 2;
                             if bool_decide (Some b2 = Some g) then
                               b3 ← dvUint8 v 3;
                               Ret (bool_decide (Some b3 = Some b))
                             else Ret false
                           else Ret false);
                   if (same : bool) then Ret Undefined
                   else
                     sendData command.backgroundColor
                       (Uint8Array (map Some [r; g; b]));;
                     modify_cfg
                       (with_backgroundColor (Some [Some r; Some g; Some b]));;
                     Ret Undefined)).
  { eexists. split.
    - cbn [step]. unfold setBackgroundColor. call_setter Hc. first_await.
    - reflexivity. }
  destruct Hstep as (k & Hstep & Hk).
  split.
  - intros H1 H2 H3. rewrite (settled_eq _ _ _ _ _ Hstep), Hk.
    unfold dvUint8, getUint8. rewrite H1, H2, H3. cbn [mbind proc_bind pbind].
    rewrite !bool_decide_eq_true_2 by reflexivity. cbn [mbind proc_bind pbind].
    finish_setter.
  - intros r' g' b' H1 H2 H3 Hne. unfold run. cbn [fold_left]. rewrite Hstep.
    settle_last. rewrite Hk.
    unfold dvUint8, getUint8. rewrite H1, H2, H3. cbn [mbind proc_bind pbind].
    assert (Hsame :
              (if bool_decide (Some r' = Some r) then
                 if bool_decide (Some g' = Some g) then
                   Ret (bool_decide (Some b' = Some b))
                 else Ret false
               else Ret false) = (Ret false : proc bool)).
    { repeat case_bool_decide; try reflexivity. congruence. }
    rewrite Hsame. cbn [mbind proc_bind pbind]. rewrite Hu.
    call_setter Hc. unfold await. cbn [pbind exec mbind proc_bind].
    settle_last.
    destruct resp; cbn; finish_setter.
Qed.

Lemma setBackgroundColor_write_witness :
  let w := start Examples.connected in
  this (settled w (setBackgroundColor [255; 255; 255])
          (Fulfilled (DataView [0x2E; 255; 255; 255]))) = this w
  /\ backgroundColor
       (cfg (this (run w [Call (setBackgroundColor [255; 0; 0]);
                          Complete 0 (Fulfilled (DataView [0x2E; 255; 255; 255]));
                          Complete 0 (Fulfilled Undefined)])))
     = Some [Some 255; Some 0; Some 0].
Proof.
  cbv zeta.
  assert (B : is_byte 255 /\ is_byte 0) by (unfold is_byte; lia).
  destruct B as [B255 B0].
  destruct (setBackgroundColor_write (start Examples.connected) 255 255 255
              [0x2E; 255; 255; 255] (Fulfilled Undefined) eq_refl B255 B255 B255)
    as (H1 & _).
  destruct (setBackgroundColor_write (start Examples.connected) 255 0 0
              [0x2E; 255; 255; 255] (Fulfilled Undefined) eq_refl B255 B0 B0)
    as (_ & H2).
  split; [rewrite H1 by reflexivity; reflexivity|].
  change (length (pool (start Examples.connected))) with 0%nat in H2.
  rewrite (H2 255 255 255) by (reflexivity || discriminate). reflexivity.
Defined.

(** X10. The writing area goes to the pad and comes back in the same
    byte order. The eight bytes [setWritingArea] sends, with the report
    id in front as the pad returns them, are read by [connect] as the
    four coordinates modulo 65536: as the coordinates themselves when
    they are in the range of 16 bits, which is then also what the setter
    has cached. *)
Theorem writingArea_round_trip (x1 y1 x2 y2 : Z) :
  let data := uint16_le x1 ++ uint16_le y1 ++ uint16_le x2 ++ uint16_le y2 in
  let dv := command.writingArea :: data in
  Forall is_byte data
  /\ getUint16 dv 1 true = Some (x1 mod 65536)
  /\ getUint16 dv 3 true = Some (y1 mod 65536)
  /\ getUint16 dv 5 true = Some (x2 mod 65536)
  /\ getUint16 dv 7 true = Some (y2 mod 65536)
  /\ (0 <= x1 < 65536 -> 0 <= y1 < 65536 -> 0 <= x2 < 65536 -> 0 <= y2 < 65536 ->
      (dvUint16 (DataView dv) 1 true ≫= fun a =>
       dvUint16 (DataView dv) 3 true ≫= fun b =>
       dvUint16 (DataView dv) 5 true ≫= fun c =>
       dvUint16 (DataView dv) 7 true ≫= fun d =>
       Ret (Some (of_Z a, of_Z b, of_Z c, of_Z d)))
      = Ret (Some (of_Z x1, of_Z y1, of_Z x2, of_Z y2))).
Proof.
  cbv zeta.
  assert (E : forall v, (v / 256) mod 256 * 256 + v mod 256 = v mod 65536).
  { intros v. change 65536 with (256 * 256). rewrite Z.rem_mul_r by lia. lia. }
  assert (B : forall v, is_byte (v mod 256)).
  { intros v. unfold is_byte. apply Z.mod_pos_bound. lia. }
  split; [repeat constructor; apply B|].
  unfold getUint16, uint16_le. cbn [app lookup list_lookup mbind option_bind].
  rewrite !E. repeat (split; [reflexivity|]).
  intros H1 H2 H3 H4. unfold dvUint16, getUint16.
  cbn [app lookup list_lookup mbind option_bind proc_bind pbind].
  rewrite !E, !Z.mod_small by lia. reflexivity.
Qed.

Lemma writingArea_round_trip_witness :
  let dv := command.writingArea :: uint16_le 100 ++ uint16_le 50
              ++ uint16_le 800 ++ uint16_le 480 in
  getUint16 dv 5 true = Some 800
  /\ (dvUint16 (DataView dv) 1 true ≫= fun a =>
      dvUint16 (DataView dv) 3 true ≫= fun b =>
      dvUint16 (DataView dv) 5 true ≫= fun c =>
      dvUint16 (DataView dv) 7 true ≫= fun d =>
      Ret (Some (of_Z a, of_Z b, of_Z c, of_Z d)))
     = Ret (Some (of_Z 100, of_Z 50, of_Z 800, of_Z 480)).
Proof.
  cbv zeta.
  destruct (writingArea_round_trip 100 50 800 480) as (_ & _ & _ & H & _ & Hall).
  split; [exact H|]. apply Hall; lia.
Defined.



End Commit.

(** ** The end of an upload *)

Section UploadEnd.

Lemma returns_app (tr1 tr2 : list event) :
  returns (tr1 ++ tr2) = returns tr1 ++ returns tr2.
Proof.
  induction tr1 as [|[] tr1 IH]; cbn; rewrite ?IH; reflexivity.
Qed.

Lemma complete_only (d : driver) (tr : list event) (n : nat)
      (s : suspended) (resp : response) :
  step {| this := d; pool := [s]; trace := tr; calls := n |} (Complete 0 resp)
  = exec (owner s) (top s) (cont s resp)
      {| this := d; pool := [];
         trace := tr ++ [Settle (owner s) (awaits s) resp]; calls := n |}.
Proof. exact (complete_last d [] tr n s resp). Qed.

Lemma clear_release (d : driver) :
  set_deviceIsSending false (snd (clearSignatureData (set_deviceIsSending true d)))
  = set_deviceIsSending false (snd (clearSignatureData d)).
Proof. reflexivity. Qed.

Lemma lookup_dataCallbacks (c : nat) (bulks : list (list (option Z))) (i : nat) :
  dataCallbacks c bulks !! i
  = (fun e => mkSuspended c (dataReport e) afterData false) <$> bulks !! i.
Proof. unfold dataCallbacks. apply list_lookup_fmap. Qed.

(** X12. [setImage] is over when the pad has taken the end report. The
    call then returns, the sample log and the drawing are empty and the
    device is no longer marked as sending, although every data report is
    still pending; and whatever becomes of a data report afterwards,
    accepted or rejected, nothing but the settlement happens: no call
    throws and the state stays. *)
Theorem upload_completes (d : driver) (imageData : list Z)
        (bulks : list (list (option Z))) (v1 v2 : value) :
  isConnected d = true ->
  deviceIsSending d = false ->
  fits d imageData ->
  splitToBulks imageData chunkSize = Some bulks ->
  let w := run (start d)
             [Call (setImage imageData); Complete 0 (Fulfilled v1);
              Complete (length bulks) (Fulfilled v2)] in
  this w = set_deviceIsSending false (snd (clearSignatureData d))
  /\ last (trace w) = Some (Return 0 Undefined)
  /\ pool w = dataCallbacks 0 bulks
  /\ forall i e resp,
       bulks !! i = Some e ->
       step w (Complete i resp)
       = {| this := this w; pool := delete i (pool w);
            trace := trace w ++ [Settle 0 (dataReport e) resp];
            calls := calls w |}.
Proof.
  intros Hc Hs Hf Hb w.
  assert (E : w = {| this := set_deviceIsSending false (snd (clearSignatureData d));
                     pool := dataCallbacks 0 bulks;
                     trace := ([Issue 0 startReport;
                                Settle 0 startReport (Fulfilled v1)]
                               ++ map (fun e => Issue 0 (dataReport e)) bulks
                               ++ [Issue 0 endReport;
                                   Settle 0 endReport (Fulfilled v2)])
                              ++ [Return 0 Undefined];
                     calls := 1 |}).
  { unfold w, run. cbn [fold_left].
    rewrite (setImage_start (start d) imageData bulks Hc Hs Hf Hb).
    cbn [start this pool trace calls app].
    rewrite complete_only. cbn [owner top cont awaits].
    rewrite exec_afterStart_fulfilled by exact Hc.
    cbn [this pool trace calls app].
    replace (length bulks) with (length (dataCallbacks 0 bulks))
      by (unfold dataCallbacks; apply length_map).
    rewrite complete_last. cbn [owner top cont awaits].
    rewrite exec_afterEnd_fulfilled. unfold log, set_this.
    cbn [this pool trace calls]. rewrite clear_release.
    f_equal. cbn [app]. rewrite <- ?app_assoc. reflexivity. }
  rewrite E. cbn [this pool trace calls].
  split; [reflexivity|]. split; [apply last_snoc|]. split; [reflexivity|].
  intros i e resp He. cbn [step pool].
  rewrite lookup_dataCallbacks, He. cbn [fmap option_fmap option_map owner top cont awaits].
  rewrite exec_afterData. unfold log. cbn [this pool trace calls]. reflexivity.
Qed.

Lemma upload_completes_witness :
  let w := run (start Examples.narrow)
             [Call (setImage Examples.narrow_image);
              Complete 0 (Fulfilled Undefined); Complete 3 (Fulfilled Undefined)] in
  last (trace w) = Some (Return 0 Undefined)
  /\ deviceIsSending (this w) = false
  /\ length (pool w) = 3%nat.
Proof.
  cbv zeta.
  destruct (upload_completes Examples.narrow Examples.narrow_image
              (map (bulk Examples.narrow_image 253) [0; 1; 2]%nat)
              Undefined Undefined)
    as (H1 & H2 & H3 & _); try reflexivity.
  cbn [length map] in H1, H2, H3.
  split; [exact H2|]. rewrite H1, H3. split; reflexivity.
Defined.

Lemma sends_snoc_quiet (tr : list event) (ev : event) :
  (forall c reportId data, ev <> Issue c (SendFeatureReport reportId data)) ->
  sends (tr ++ [ev]) = sends tr.
Proof.
  intros H. rewrite sends_app.
  destruct ev as [c [] | | |]; cbn; rewrite ?app_nil_r; try reflexivity.
  now destruct (H c reportId data).
Qed.

Lemma returns_snoc_quiet (tr : list event) (ev : event) :
  (forall c v, ev <> Return c v) -> returns (tr ++ [ev]) = returns tr.
Proof.
  intros H. rewrite returns_app.
  destruct ev; cbn; rewrite ?app_nil_r; try reflexivity.
  now destruct (H call v).
Qed.

Lemma stuck_step (w : world) (a : action) :
  is_upload a ->
  stuck w ->
  stuck (step w a)
  /\ sends (trace (step w a)) = sends (trace w)
  /\ returns (trace (step w a)) = returns (trace w).
Proof.
  intros Ha [Hc Hs Hp]. destruct a as [p|i resp].
  - destruct Ha as [imageData ->].
    destruct (Z.of_nat (length imageData)
              =? nullZ (width (cfg (this w))) * nullZ (height (cfg (this w))) * 3)
      eqn:Hf.
    + rewrite (setImage_busy w imageData Hc Hs) by (now apply Z.eqb_eq).
      cbn [trace]. split; [|split].
      * constructor; cbn [this pool]; auto.
        apply Forall_app. split; [exact Hp|]. constructor; [|constructor].
        left. eauto.
      * apply sends_snoc_quiet. discriminate.
      * apply returns_snoc_quiet. discriminate.
    + rewrite (setImage_unfit w imageData Hc Hf). cbn [trace]. split; [|split].
      * constructor; cbn [this pool]; auto. now rewrite app_nil_r.
      * apply sends_snoc_quiet. discriminate.
      * apply returns_snoc_quiet. discriminate.
  - cbn [step]. destruct (pool w !! i) as [s|] eqn:Hi; [|now split].
    pose proof (Forall_lookup_1 _ _ _ _ Hp Hi) as Hpend.
    pose proof (Forall_delete _ _ i Hp) as Hdel.
    destruct Hpend as [(c & left & imageData & ->)|(c & e & ->)];
      cbn [owner top cont awaits].
    + rewrite afterWait_any. destruct left as [|left].
      * rewrite exec_wait_timeout by exact Hs.
        unfold log. cbn [this pool trace calls]. split; [|split].
        -- constructor; cbn [this pool]; auto.
        -- rewrite sends_snoc_quiet by discriminate.
           apply sends_snoc_quiet. discriminate.
        -- rewrite returns_snoc_quiet by discriminate.
           apply returns_snoc_quiet. discriminate.
      * rewrite exec_wait_busy by exact Hs.
        unfold park, log. cbn [this pool trace calls]. split; [|split].
        -- constructor; cbn [this pool]; auto.
           apply Forall_app. split; [exact Hdel|]. constructor; [|constructor].
           left. eauto.
        -- rewrite sends_snoc_quiet by discriminate.
           apply sends_snoc_quiet. discriminate.
        -- rewrite returns_snoc_quiet by discriminate.
           apply returns_snoc_quiet. discriminate.
    + rewrite exec_afterData. unfold log. cbn [this pool trace calls].
      split; [|split].
      * constructor; cbn [this pool]; auto.
      * apply sends_snoc_quiet. discriminate.
      * apply returns_snoc_quiet. discriminate.
Qed.

Lemma stuck_run (sched : list action) :
  forall w,
    Forall is_upload sched ->
    stuck w ->
    stuck (run w sched)
    /\ sends (trace (run w sched)) = sends (trace w)
    /\ returns (trace (run w sched)) = returns (trace w).
Proof.
  induction sched as [|a sched IH]; intros w Hall Hw; [now split|].
  apply Forall_cons in Hall as [Ha Hall].
  destruct (stuck_step w a Ha Hw) as (Hw' & Hs' & Hr').
  destruct (IH (step w a) Hall Hw') as (Hw'' & Hs'' & Hr'').
  change (run w (a :: sched)) with (run (step w a) sched).
  split; [exact Hw''|]. split; [now rewrite Hs''|now rewrite Hr''].
Qed.

(** X13. An upload whose start report or end report is rejected never
    clears the mark that the device is sending: the call throws the
    reason of the rejection and leaves the mark set. From then on,
    whatever uploads the page starts and however they are scheduled, the
    mark stays set, no report is handed to the pad any more and no call
    of [setImage] returns. *)
Theorem rejected_upload_blocks (d : driver) (imageData : list Z)
        (bulks : list (list (option Z))) (msg : string) (v : value)
        (sched : list action) :
  isConnected d = true ->
  deviceIsSending d = false ->
  fits d imageData ->
  splitToBulks imageData chunkSize = Some bulks ->
  Forall is_upload sched ->
  let w1 := run (start d) [Call (setImage imageData); Complete 0 (Reject msg)] in
  let w2 := run (start d) [Call (setImage imageData); Complete 0 (Fulfilled v);
                           Complete (length bulks) (Reject msg)] in
  (last (trace w1) = Some (Raise 0 (Rejected msg))
   /\ last (trace w2) = Some (Raise 0 (Rejected msg)))
  /\ (deviceIsSending (this (run w1 sched)) = true
      /\ sends (trace (run w1 sched)) = sends (trace w1)
      /\ returns (trace (run w1 sched)) = [])
  /\ (deviceIsSending (this (run w2 sched)) = true
      /\ sends (trace (run w2 sched)) = sends (trace w2)
      /\ returns (trace (run w2 sched)) = []).
Proof.
  intros Hc Hs Hf Hb Hall w1 w2.
  assert (E1 : w1 = {| this := set_deviceIsSending true d; pool := [];
                       trace := [Issue 0 startReport;
                                 Settle 0 startReport (Reject msg);
                                 Raise 0 (Rejected msg)];
                       calls := 1 |}).
  { unfold w1, run. cbn [fold_left].
    rewrite (setImage_start (start d) imageData bulks Hc Hs Hf Hb).
    cbn [start this pool trace calls app].
    rewrite complete_only. cbn [owner top cont awaits].
    rewrite exec_afterStart_reject. reflexivity. }
  assert (E2 : w2 = {| this := set_deviceIsSending true d;
                       pool := dataCallbacks 0 bulks;
                       trace := ([Issue 0 startReport;
                                  Settle 0 startReport (Fulfilled v)]
                                 ++ map (fun e => Issue 0 (dataReport e)) bulks
                                 ++ [Issue 0 endReport;
                                     Settle 0 endReport (Reject msg)])
                                ++ [Raise 0 (Rejected msg)];
                       calls := 1 |}).
  { unfold w2, run. cbn [fold_left].
    rewrite (setImage_start (start d) imageData bulks Hc Hs Hf Hb).
    cbn [start this pool trace calls app].
    rewrite complete_only. cbn [owner top cont awaits].
    rewrite exec_afterStart_fulfilled by exact Hc.
    cbn [this pool trace calls app].
    replace (length bulks) with (length (dataCallbacks 0 bulks))
      by (unfold dataCallbacks; apply length_map).
    rewrite complete_last. cbn [owner top cont awaits].
    rewrite exec_afterEnd_reject. unfold log.
    cbn [this pool trace calls].
    f_equal. cbn [app]. rewrite <- ?app_assoc. reflexivity. }
  assert (S1 : stuck w1).
  { rewrite E1. constructor; cbn [this pool]; auto. }
  assert (S2 : stuck w2).
  { rewrite E2. constructor; cbn [this pool]; auto.
    unfold dataCallbacks. apply List.Forall_forall. intros s Hin.
    apply in_map_iff in Hin as (e & <- & _). right. eauto. }
  assert (R1 : returns (trace w1) = []) by (rewrite E1; reflexivity).
  assert (R2 : returns (trace w2) = []).
  { rewrite E2. cbn [trace]. rewrite !returns_app. cbn.
    clear. induction bulks as [|e bulks IH]; [reflexivity|exact IH]. }
  destruct (stuck_run sched w1 Hall S1) as ([_ F1 _] & Hs1 & Hr1).
  destruct (stuck_run sched w2 Hall S2) as ([_ F2 _] & Hs2 & Hr2).
  split.
  { split; [rewrite E1; reflexivity|]. rewrite E2. cbn [trace]. apply last_snoc. }
  split; repeat split; congruence.
Qed.

Lemma rejected_upload_blocks_witness :
  let w1 := run (start Examples.narrow)
              [Call (setImage Examples.narrow_image);
               Complete 0 (Reject "NetworkError")] in
  let later := Call (setImage Examples.narrow_image)
               :: repeat (Complete 0 (Fulfilled Undefined)) 20 in
  deviceIsSending (this (run w1 later)) = true
  /\ returns (trace (run w1 later)) = [].
Proof.
  cbv zeta.
  destruct (rejected_upload_blocks Examples.narrow Examples.narrow_image
              (map (bulk Examples.narrow_image 253) [0; 1; 2]%nat)
              "NetworkError" Undefined
              (Call (setImage Examples.narrow_image)
               :: repeat (Complete 0 (Fulfilled Undefined)) 20))
    as (_ & (H1 & _ & H2) & _); try reflexivity.
  - constructor; [now exists Examples.narrow_image|].
    apply List.Forall_forall. intros a Ha.
    apply repeat_spec in Ha. now subst.
  - split; [exact H1|exact H2].
Defined.

End UploadEnd.

(** ** Choosing the device *)

Section Choice.

Lemma last_pads_cons (x : hidDevice) (l : list hidDevice) :
  last (pads (x :: l))
  = match last (pads l) with
    | Some y => Some y
    | None => if is_pad x then Some x else None
    end.
Proof.
  unfold pads. cbn [List.filter]. destruct (is_pad x); [|now destruct (last _)].
  destruct (List.filter is_pad l) as [|y l']; [reflexivity|].
  rewrite last_cons. now destruct (last (y :: l')).
Qed.

(** The loop over the devices keeps the last pad, and the device that
    was there when no pad is found. *)
Lemma exec_pickDevice (c : nat) (top : bool) (k : unit -> proc value)
      (l : list hidDevice) :
  forall d p tr n,
    exec c top (pbind (pickDevice (map Some l)) k)
      {| this := d; pool := p; trace := tr; calls := n |}
    = exec c top (k tt)
        {| this := match last (pads l) with
                   | Some x => set_device (Some x) d
                   | None => d
                   end;
           pool := p; trace := tr; calls := n |}.
Proof.
  induction l as [|x l IH]; intros d p tr n; [reflexivity|].
  cbn [map pickDevice mbind proc_bind]. rewrite last_pads_cons.
  destruct (is_pad x).
  - cbn [mbind proc_bind pbind modify exec this]. unfold set_this.
    cbn [this pool trace calls]. rewrite IH.
    now destruct (last (pads l)).
  - cbn [mbind proc_bind pbind]. rewrite IH. now destruct (last (pads l)).
Qed.

Lemma exec_negotiate_first (x : hidDevice) (d : driver) (p : list suspended)
      (tr : list event) (n : nat) :
  device d = Some x ->
  let w := exec 0 true negotiate {| this := d; pool := p; trace := tr; calls := n |} in
  this w = d
  /\ map awaits (pool w)
     = map awaits p ++ [if opened x then ReceiveFeatureReport command.capability
                        else OpenDevice].
Proof.
  intros Hd. unfold negotiate.
  cbn [mbind proc_bind pbind exec get this]. rewrite Hd.
  destruct (opened x) eqn:Ho.
  - cbn [mbind proc_bind pbind exec get this readData].
    unfold isConnected. rewrite Hd, Ho.
    cbn [negb pbind await exec]. unfold park, log. cbn [this pool].
    split; [reflexivity|]. now rewrite map_app.
  - cbn [mbind proc_bind pbind exec get this await].
    unfold park, log. cbn [this pool].
    split; [reflexivity|]. now rewrite map_app.
Qed.

(** [connect] up to the answer of [getDevices]. *)
Lemma connect_after_devices (d : driver) (l : list hidDevice) :
  isConnected d = false ->
  run (start d) [Call connect; Complete 0 (Fulfilled (Devices (map Some l)))]
  = exec 0 true
      (this ← get;
       match device this with
       | Some _ => negotiate
       | None =>
           v ← await RequestDevice;
           dev ← as_devices v;
           match dev with
           | Some d :: _ => modify (set_device (Some d));; negotiate
           | _ => Ret (Bool false)
           end
       end)
      {| this := match last (pads l) with
                 | Some x => set_device (Some x) (set_device None d)
                 | None => set_device None d
                 end;
         pool := [];
         trace := [Issue 0 GetDevices;
                   Settle 0 GetDevices (Fulfilled (Devices (map Some l)))];
         calls := 1 |}.
Proof.
  intros Hc.
  assert (E0 : exists k,
             step (start d) (Call connect)
             = {| this := set_device None d;
                  pool := [mkSuspended 0 GetDevices k true];
                  trace := [Issue 0 GetDevices]; calls := 1 |}
             /\ forall v, k (Fulfilled (Devices v))
                  = pbind (pickDevice v) (fun _ =>
                      this ← get;
                      match device this with
                      | Some _ => negotiate
                      | None =>
                          v ← await RequestDevice;
                          dev ← as_devices v;
                          match dev with
                          | Some d :: _ => modify (set_device (Some d));; negotiate
                          | _ => Ret (Bool false)
                          end
                      end)).
  { eexists. split.
    - cbn [step]. unfold connect. cbn [mbind proc_bind pbind exec get this start].
      rewrite Hc. cbn [pbind modify exec this set_this await]. reflexivity.
    - reflexivity. }
  destruct E0 as (k & E0 & Hk).
  unfold run. cbn [fold_left]. rewrite E0, complete_only.
  cbn [owner top cont awaits]. now rewrite Hk, exec_pickDevice.
Qed.

Ltac use_negotiate x :=
  match goal with
  | |- context [exec 0 true negotiate ?w] =>
      let Ht := fresh "Ht" in
      let Hp := fresh "Hp" in
      destruct (exec_negotiate_first x (this w) (pool w) (trace w) (calls w) eq_refl)
        as [Ht Hp];
      cbn [this pool trace calls] in Ht, Hp; rewrite Ht, Hp;
      split; reflexivity
  end.

(** X14. Which device [connect] takes. Of the devices the page may
    already use the last one with the ids of the pad is taken, without a
    prompt; it is opened when it is not open yet, and the capability
    report is read at once when it is. Only when none of them is a pad
    the chooser is shown: when it is closed without a device the call
    returns false and the driver has no device, and otherwise its first
    device is taken as it is, whatever its ids are. *)
Theorem connect_device_choice (d : driver) (l : list hidDevice) :
  isConnected d = false ->
  let w1 := run (start d)
              [Call connect; Complete 0 (Fulfilled (Devices (map Some l)))] in
  let first_request (x : hidDevice) :=
    if opened x then ReceiveFeatureReport command.capability else OpenDevice in
  (forall x,
      last (pads l) = Some x ->
      device (this w1) = Some x
      /\ map awaits (pool w1) = [first_request x])
  /\ (last (pads l) = None ->
      device (this w1) = None
      /\ map awaits (pool w1) = [RequestDevice]
      /\ (forall dev,
             match dev with Some _ :: _ => False | _ => True end ->
             let w2 := step w1 (Complete 0 (Fulfilled (Devices dev))) in
             last (trace w2) = Some (Return 0 (Bool false))
             /\ this w2 = set_device None d /\ pool w2 = [])
      /\ (forall x rest,
             let w2 := step w1 (Complete 0 (Fulfilled (Devices (Some x :: rest)))) in
             device (this w2) = Some x
             /\ map awaits (pool w2) = [first_request x])).
Proof.
  intros Hc w1 first_request.
  unfold w1. rewrite (connect_after_devices d l Hc). split.
  - intros x Hx. rewrite Hx. cbn [mbind proc_bind pbind exec get this].
    cbn [device set_device]. use_negotiate x.
  - intros Hn. rewrite Hn.
    cbn [mbind proc_bind pbind exec get this device set_device await].
    unfold park, log. cbn [this pool trace calls map awaits app].
    split; [reflexivity|]. split; [reflexivity|]. split.
    + intros dev Hdev. rewrite complete_only.
      cbn [owner top cont awaits pbind as_devices mbind proc_bind].
      destruct dev as [|[x|] rest]; [|contradiction|]; cbn [pbind exec];
        unfold log; cbn [this pool trace calls];
        (split; [apply last_snoc|split; reflexivity]).
    + intros x rest. rewrite complete_only.
      cbn [owner top cont awaits pbind as_devices mbind proc_bind modify exec this].
      unfold set_this. cbn [this pool trace calls]. use_negotiate x.
Qed.

Lemma connect_device_choice_witness :
  let other := mkDevice 1 2 true in
  let w1 := run (start new_driver)
              [Call connect;
               Complete 0 (Fulfilled
                 (Devices [Some Examples.pad; Some other]))] in
  device (this w1) = Some Examples.pad
  /\ map awaits (pool w1) = [OpenDevice].
Proof.
  cbv zeta.
  destruct (connect_device_choice new_driver [Examples.pad; mkDevice 1 2 true]
              eq_refl) as (H & _).
  apply (H Examples.pad). reflexivity.
Defined.

End Choice.

Ltac first_await :=
  unfold await; cbn [pbind exec mbind proc_bind];
  unfold awaiting, park, log; cbn [this pool trace calls]; reflexivity.

Ltac finish_call :=
  cbn [exec]; unfold finished, outcome, commit, update_cfg, log, set_this;
  cbn [this pool trace calls];
  rewrite <- ?app_assoc; reflexivity.

(** ** Looking for a pad *)

Section Availability.

Lemma anyPad_existsb (l : list hidDevice) :
  anyPad (map Some l) = Ret (Bool (existsb is_pad l)).
Proof.
  induction l as [|x l IH]; [reflexivity|].
  cbn [map anyPad existsb]. now destruct (is_pad x).
Qed.

(** X15. [isAvailable] answers true at once on a connected driver,
    without asking for the devices. Otherwise it asks for the devices
    the page may use and answers whether one of them has the ids of the
    pad; when the request is rejected it throws the reason. In no case
    does it change the driver: the device it finds is not taken. *)
Theorem isAvailable_answer (w : world) (l : list hidDevice) (msg : string) :
  (isConnected (this w) = true ->
   step w (Call isAvailable) = returned (Bool true) w)
  /\ (isConnected (this w) = false ->
      settled w isAvailable (Fulfilled (Devices (map Some l)))
      = finished GetDevices (Fulfilled (Devices (map Some l))) (this w)
          (fun c => Return c (Bool (existsb is_pad l))) w
      /\ settled w isAvailable (Reject msg)
         = finished GetDevices (Reject msg) (this w)
             (fun c => Raise c (Rejected msg)) w).
Proof.
  split; intros Hc.
  - cbn [step]. unfold isAvailable. cbn [mbind proc_bind pbind exec get this].
    rewrite Hc. reflexivity.
  - assert (Hstep : exists k,
               step w (Call isAvailable) = awaiting GetDevices k w
               /\ (forall v, k (Fulfilled (Devices v)) = anyPad v)
               /\ forall m, k (Reject m) = Throw (Rejected m)).
    { eexists. split; [|split].
      - cbn [step]. unfold isAvailable. cbn [mbind proc_bind pbind exec get this].
        rewrite Hc. first_await.
      - reflexivity.
      - reflexivity. }
    destruct Hstep as (k & Hstep & Hk & Hr). split.
    + rewrite (settled_eq _ _ _ _ _ Hstep), Hk, anyPad_existsb. finish_call.
    + rewrite (settled_eq _ _ _ _ _ Hstep), Hr. finish_call.
Qed.

Lemma isAvailable_answer_witness :
  let w := start new_driver in
  settled w isAvailable
    (Fulfilled (Devices (map Some [mkDevice 1 2 false; Examples.pad])))
  = finished GetDevices
      (Fulfilled (Devices (map Some [mkDevice 1 2 false; Examples.pad])))
      new_driver (fun c => Return c (Bool true)) w.
Proof.
  cbv zeta.
  destruct (isAvailable_answer (start new_driver)
              [mkDevice 1 2 false; Examples.pad] "") as (_ & H).
  destruct (H eq_refl) as (H1 & _). exact H1.
Defined.

End Availability.

(** ** Reports that are not decoded *)

Section InputReports.

Lemma penPacket_short (c : config) (reportId : Z) (data : list Z) :
  (length data < 6)%nat -> penPacket c reportId data = None.
Proof.
  intros Hl. unfold penPacket, getUint16.
  destruct data as [|b0 [|b1 [|b2 [|b3 [|b4 [|b5 rest]]]]]];
    cbn [length] in Hl; try lia; reflexivity.
Qed.

Lemma penPacket_timing_short (c : config) (data : list Z) :
  (length data < 10)%nat -> penPacket c command.penDataTiming data = None.
Proof.
  intros Hl. unfold penPacket, getUint16.
  destruct data as [|b0 [|b1 [|b2 [|b3 [|b4 [|b5 [|b6 [|b7 [|b8 [|b9 rest]]]]]]]]]];
    cbn [length] in Hl; try lia; reflexivity.
Qed.

Lemma penPacket_long (c : config) (reportId : Z) (data : list Z) :
  (10 <= length data)%nat \/ (reportId <> command.penDataTiming /\ (6 <= length data)%nat) ->
  is_Some (penPacket c reportId data).
Proof.
  intros Hl. unfold penPacket, getUint16.
  destruct data as [|b0 [|b1 [|b2 [|b3 [|b4 [|b5 rest]]]]]];
    cbn [length] in Hl; try lia.
  cbn [lookup list_lookup mbind option_bind].
  destruct (Z.eqb_spec reportId command.penDataTiming) as [E|E].
  - destruct rest as [|b6 [|b7 [|b8 [|b9 rest]]]];
      cbn [length] in Hl; try lia.
    cbn. eauto.
  - eauto.
Qed.

(** X16. Reports the handler does not decode. An input report with
    another id than the two pen reports is ignored: the handler returns
    and nothing changes. A pen report of fewer than 6 bytes, or a pen
    report with timing of fewer than 10, makes the handler throw a
    RangeError before anything is stored: the log and the drawing stay as
    they are. A report that is long enough is decoded and its sample is
    the new last entry of the log, whether it is drawn or not. *)
Theorem input_report_handling (this : driver) (reportId : Z) (data : list Z) :
  (reportId <> command.penData -> reportId <> command.penDataTiming ->
   onHidInputReport reportId data this = (inl tt, this))
  /\ (reportId = command.penData -> (length data < 6)%nat ->
      onHidInputReport reportId data this = (inr RangeError, this))
  /\ (reportId = command.penDataTiming -> (length data < 10)%nat ->
      onHidInputReport reportId data this = (inr RangeError, this))
  /\ ((reportId = command.penData /\ (6 <= length data)%nat)
      \/ (reportId = command.penDataTiming /\ (10 <= length data)%nat) ->
      exists p,
        penPacket (cfg this) reportId data = Some p
        /\ signaturePath (snd (onHidInputReport reportId data this))
           = signaturePath this ++ [p]).
Proof.
  unfold onHidInputReport. sync_unfold. repeat split.
  - intros H1 H2. apply Z.eqb_neq in H1, H2. now rewrite H1, H2.
  - intros -> Hl. cbn [Z.eqb orb]. now rewrite penPacket_short.
  - intros -> Hl. cbn [Z.eqb orb]. now rewrite penPacket_timing_short.
  - intros H.
    assert (Hid : (reportId =? command.penData)
                  || (reportId =? command.penDataTiming) = true)
      by (destruct H as [[-> _]|[-> _]]; reflexivity).
    destruct (penPacket_long (cfg this) reportId data) as [p Hp].
    { destruct H as [[-> H]|[-> H]]; [right; split; [discriminate|exact H]|now left]. }
    exists p. split; [exact Hp|].
    rewrite Hid, Hp. apply storePacket_path.
Qed.

Lemma input_report_handling_witness :
  onHidInputReport command.penData [0x92; 0x00; 0x13] Examples.connected
  = (inr RangeError, Examples.connected)
  /\ exists p,
       penPacket (cfg Examples.connected) command.penData Examples.pen_report = Some p
       /\ signaturePath
            (snd (onHidInputReport command.penData Examples.pen_report
                    Examples.connected))
          = signaturePath Examples.connected ++ [p].
Proof.
  destruct (input_report_handling Examples.connected command.penData
              [0x92; 0x00; 0x13]) as (_ & H2 & _).
  destruct (input_report_handling Examples.connected command.penData
              Examples.pen_report) as (_ & _ & _ & H4).
  split.
  - apply H2; [reflexivity|cbn; lia].
  - apply H4. left. split; [reflexivity|cbn; lia].
Defined.

End InputReports.

(** ** Strings of a report *)

Section ReportStrings.

Lemma untilNul_prefix (l : list Z) :
  exists rest,
    l = untilNul l ++ rest
    /\ Forall (fun c => c <> 0) (untilNul l)
    /\ (rest = [] \/ exists rest', rest = 0 :: rest').
Proof.
  induction l as [|c l (rest & IH1 & IH2 & IH3)].
  - exists []. cbn. auto.
  - cbn [untilNul]. destruct (Z.eqb_spec c 0) as [->|Hc].
    + exists (0 :: l). cbn. eauto.
    + exists rest. cbn [app]. rewrite <- IH1. split; [reflexivity|].
      split; [now constructor|exact IH3].
Qed.

Lemma fromCharCodes_length (l : list Z) :
  String.length (fromCharCodes l) = length l.
Proof.
  unfold fromCharCodes. induction l as [|c l IH]; [reflexivity|].
  cbn. now rewrite IH.
Qed.

(** X17. [#dataViewString] never reads past the report and never
    throws on a report: it returns the characters of the bytes from the
    offset up to the first zero byte, the end of the report or the given
    length, whichever comes first. So the text has no more characters
    than the given length and than the report has bytes behind the
    offset (none when the offset is past the end), no character of it
    comes from a zero byte, and it stops short of its bound only in front
    of a zero byte. *)
Theorem dataViewString_window (dv : list Z) (offset : nat) (len : option nat) :
  let window := match len with
                | Some n => take n (drop offset dv)
                | None => drop offset dv
                end in
  exists chars rest,
    dataViewString (DataView dv) offset len = Ret (fromCharCodes chars)
    /\ window = chars ++ rest
    /\ Forall (fun c => c <> 0) chars
    /\ (rest = [] \/ exists rest', rest = 0 :: rest')
    /\ String.length (fromCharCodes chars) = length chars
    /\ (length chars <= length dv - offset)%nat
    /\ (forall n, len = Some n -> (length chars <= n)%nat).
Proof.
  cbv zeta.
  set (window := match len with
                 | Some n => take n (drop offset dv)
                 | None => drop offset dv
                 end).
  assert (E : dataViewString (DataView dv) offset len
              = Ret (fromCharCodes (untilNul window))).
  { unfold dataViewString, window. destruct len as [n|].
    - now replace (offset + n - offset)%nat with n by lia.
    - rewrite take_ge; [reflexivity|]. rewrite length_drop. lia. }
  destruct (untilNul_prefix window) as (rest & H1 & H2 & H3).
  exists (untilNul window), rest.
  assert (Hlen : (length (untilNul window) <= length window)%nat).
  { rewrite H1 at 2. rewrite length_app. lia. }
  repeat split; auto using fromCharCodes_length.
  - clear E H1. subst window. destruct len as [n|].
    + rewrite length_take, length_drop in Hlen. lia.
    + rewrite length_drop in Hlen. exact Hlen.
  - intros n Hn. clear E H1. subst window. rewrite Hn in *.
    rewrite length_take in Hlen. lia.
Qed.

Lemma dataViewString_window_witness :
  exists chars,
    dataViewString (DataView Examples.information_report) 1 (Some 7%nat)
    = Ret (fromCharCodes chars)
    /\ (length chars <= 7)%nat.
Proof.
  destruct (dataViewString_window Examples.information_report 1 (Some 7%nat))
    as (chars & rest & E & _ & _ & _ & _ & _ & H).
  exists chars. split; [exact E|]. apply (H 7%nat). reflexivity.
Defined.

End ReportStrings.

(** ** The bulks of an image *)

Section Bulks.

(** X18. [#splitToBulks] loses and adds nothing. With a bulk size above
    zero it always returns; the number of bulks is the length of the
    array divided by the bulk size, rounded up; every bulk has exactly
    the bulk size many entries; and the entries that are not holes, read
    bulk after bulk, are the array. With the bulk size 0 it returns no
    bulk for the empty array and does not return for any other. *)
Theorem splitToBulks_round_trip (arr : list Z) (bulkSize : nat) :
  ((0 < bulkSize)%nat ->
   exists bulks,
     splitToBulks arr bulkSize = Some bulks
     /\ length bulks = ((length arr + bulkSize - 1) / bulkSize)%nat
     /\ Forall (fun e => length e = bulkSize) bulks
     /\ concat (map occupied bulks) = arr)
  /\ (splitToBulks arr 0 = if (length arr =? 0)%nat then Some [] else None).
Proof.
  split.
  - intros Hb. destruct (splitToBulks_total arr bulkSize Hb) as [bulks E].
    exists bulks. split; [exact E|]. split.
    + now destruct (splitToBulks_count arr bulkSize bulks Hb E).
    + split.
      * apply List.Forall_forall. intros e He.
        now apply (splitToBulks_bulk_length arr bulkSize bulks).
      * now apply (splitToBulks_concat arr bulkSize).
  - unfold splitToBulks, bulkCount. now destruct (length arr =? 0)%nat.
Qed.

Lemma splitToBulks_round_trip_witness :
  exists bulks,
    splitToBulks [1; 2; 3; 4; 5] 2 = Some bulks
    /\ length bulks = 3%nat
    /\ concat (map occupied bulks) = [1; 2; 3; 4; 5].
Proof.
  destruct (splitToBulks_round_trip [1; 2; 3; 4; 5] 2) as (H & _).
  destruct (H ltac:(lia)) as (bulks & E & Hl & _ & Hc).
  exists bulks. auto.
Defined.

End Bulks.

(** ** Drawing the log again, outside the pressure mode *)

Section RedrawFixed.

(** X19. Outside writing mode 1 and with a pen colour in the profile,
    [#drawSignaturePathToCanvas()] over a whole log, started on an empty
    drawing, does not throw and draws exactly what the samples drew when
    they arrived one by one: the same polylines with the same colours,
    widths and points, and the same polyline left open. *)
Theorem redraw_reproduces (c : config) (d : option hidDevice) (l : list packet)
        (col : list (option Z)) :
  penColor c = Some col ->
  writingMode c <> Some 1 ->
  let again := drawSignaturePathToCanvas 0 (blank c d l) in
  let live := receive l (blank c d []) in
  fst again = inl tt
  /\ svgElement (snd again) = svgElement live
  /\ svgPolyLine (snd again) = svgPolyLine live
  /\ signaturePath live = l.
Proof.
  intros Hcol Hmode again live.
  assert (E : again = drawLoop (length l) 0 (blank c d l)).
  { unfold again, drawSignaturePathToCanvas.
    unfold mbind at 1, sync_bind, sbind, sget. cbn [signaturePath blank].
    now rewrite Nat.sub_0_r. }
  destruct (drawLoop_receive c col Hcol Hmode l [] (blank c d []) (blank c d l))
    as (Hok & _ & Hsvg & Href); try reflexivity.
  - repeat split.
  - intros pts. discriminate.
  - cbn [length] in Hok, Hsvg, Href. rewrite E. unfold live.
    split; [exact Hok|]. split; [now rewrite Hsvg|]. split; [now rewrite Href|].
    now rewrite receive_path.
Qed.

Lemma redraw_reproduces_witness :
  let c := with_writingMode (Some 0) (cfg Examples.connected) in
  let l := [Examples.light 5000 2500; Examples.heavy 5050 2500] in
  svgElement (snd (drawSignaturePathToCanvas 0 (blank c None l)))
  = svgElement (receive l (blank c None [])).
Proof.
  cbv zeta.
  destruct (redraw_reproduces (with_writingMode (Some 0) (cfg Examples.connected))
              None [Examples.light 5000 2500; Examples.heavy 5050 2500]
              [Some 0; Some 0; Some 0]) as (_ & H & _).
  - reflexivity.
  - discriminate.
  - exact H.
Defined.

End RedrawFixed.

(** ** What stays of a drawing *)

Section Kept.

Lemma kept_refl (svg : list polyline) : kept svg svg.
Proof.
  intros i seg H. exists seg. split; [exact H|]. split; [reflexivity|].
  split; [reflexivity|]. exists []. now rewrite app_nil_r.
Qed.

Lemma kept_trans (a b c : list polyline) : kept a b -> kept b c -> kept a c.
Proof.
  intros Hab Hbc i seg H.
  destruct (Hab i seg H) as (s1 & H1 & Hs1 & Hw1 & p1 & Hp1).
  destruct (Hbc i s1 H1) as (s2 & H2 & Hs2 & Hw2 & p2 & Hp2).
  exists s2. split; [exact H2|]. split; [congruence|]. split; [congruence|].
  exists (p1 ++ p2). now rewrite Hp2, Hp1, app_assoc.
Qed.

Lemma kept_alter (svg : list polyline) (pt : number * number) (k : nat) :
  kept svg (alter (add_point pt) k svg).
Proof.
  intros i seg H. rewrite list_lookup_alter.
  destruct (decide (k = i)) as [->|_]; rewrite H.
  - exists (add_point pt seg).
    split; [reflexivity|]. split; [reflexivity|]. split; [reflexivity|].
    now exists [pt].
  - exists seg.
    split; [reflexivity|]. split; [reflexivity|]. split; [reflexivity|].
    exists []. now rewrite app_nil_r.
Qed.

Lemma kept_snoc (svg : list polyline) (new : polyline) : kept svg (svg ++ [new]).
Proof.
  intros i seg H. exists seg.
  rewrite lookup_app_l by (eapply lookup_lt_Some; exact H).
  split; [exact H|]. split; [reflexivity|]. split; [reflexivity|].
  exists []. now rewrite app_nil_r.
Qed.

Ltac kept_steps :=
  repeat first
    [ apply kept_refl
    | apply kept_alter
    | apply kept_snoc
    | eapply kept_trans; [|apply kept_alter]
    | eapply kept_trans; [|apply kept_snoc] ].

Lemma drawSample_kept prev p this :
  kept (svgElement this) (svgElement (snd (drawSample prev p this))).
Proof.
  unfold drawSample. sync_unfold.
  unfold startPolyLine, addPolyPoint, set_svgElement, set_svgPolyLine.
  destruct this as [c0 d sp svg pl ds].
  cbn [cfg device signaturePath svgElement svgPolyLine deviceIsSending].
  destruct (inked _ p); destruct pl; destruct (pressure_jump prev p);
    cbn; destruct (penColor c0); cbn; kept_steps.
Qed.

Lemma kept_length (old new : list polyline) :
  kept old new -> (length old <= length new)%nat.
Proof.
  intros H. destruct old as [|seg old] using rev_ind; [cbn; lia|].
  destruct (H (length old) seg) as (seg' & H' & _).
  - now rewrite list_lookup_middle.
  - apply lookup_lt_Some in H'. rewrite length_app. cbn. lia.
Qed.

(** X20. Samples that arrive only add to the drawing. Whatever the state
    of the driver and whatever the reports are, every polyline that was
    in the svg element before is still there afterwards, at the same
    place, with the same colour and width, and the points it had are the
    first of the points it has: no polyline is removed or reordered and
    no point is moved or dropped. In particular the number of polylines
    does not go down. *)
Theorem drawing_only_grows (this : driver) (l : list packet) :
  kept (svgElement this) (svgElement (receive l this))
  /\ (length (svgElement this) <= length (svgElement (receive l this)))%nat.
Proof.
  assert (H : kept (svgElement this) (svgElement (receive l this))).
  { revert this. induction l as [|p l IH]; intros this; [apply kept_refl|].
    rewrite receive_cons.
    eapply kept_trans; [|apply IH].
    rewrite storePacket_eq.
    apply (drawSample_kept (last (signaturePath this)) p
             (set_signaturePath (signaturePath this ++ [p]) this)). }
  split; [exact H|now apply kept_length].
Qed.

End Kept.

Section Profile.

Lemma run_two (w : world) (a b : action) (rest : list action) :
  run w (a :: b :: rest) = run (run w [a; b]) rest.
Proof. reflexivity. Qed.

Ltac bytes_of l H :=
  repeat (destruct l as [|? l]; [cbn [length] in H; lia|]).

Lemma connect_connected (w : world) :
  isConnected (this w) = true ->
  step w (Call connect) = returned (Bool true) w.
Proof.
  intros Hc. cbn [step]. unfold connect.
  cbn [mbind proc_bind pbind exec get this]. rewrite Hc. reflexivity.
Qed.

(** X21. A negotiation that is answered. When the device found is a pad
    that is not open, the opening succeeds and each of the nine reads is
    answered with a report that is long enough (12 bytes for the
    capability and the information report, 4 for the background colour,
    5 for the pen, 2 for brightness, ink mode and writing mode, 9 for the
    writing area, any length for the serial number), [connect] returns
    true with nothing left pending, the driver is connected and every
    field of the profile is filled from the reports: the capability
    fields big-endian, the scale factors as their quotients, the ink
    mode as the comparison of its byte with 1. A further [connect]
    returns true at once and changes nothing. *)
Theorem connect_completes (d : driver) (x : hidDevice)
        (cap info serial bg pen br ink wm wa : list Z) :
  isConnected d = false ->
  is_pad x = true ->
  opened x = false ->
  (12 <= length cap)%nat -> (12 <= length info)%nat ->
  (4 <= length bg)%nat -> (5 <= length pen)%nat -> (2 <= length br)%nat ->
  (2 <= length ink)%nat -> (2 <= length wm)%nat -> (9 <= length wa)%nat ->
  let w := run (start d)
             ([Call connect; Complete 0 (Fulfilled (Devices [Some x]));
               Complete 0 (Fulfilled Undefined)]
              ++ map (fun dv => Complete 0 (Fulfilled (DataView dv)))
                   [cap; info; serial; bg; pen; br; ink; wm; wa]) in
  let c := cfg (this w) in
  (last (trace w) = Some (Return 0 (Bool true))
   /\ pool w = []
   /\ isConnected (this w) = true
   /\ negotiated c)
  /\ (tabletMaxX c = getUint16 cap 1 false
      /\ tabletMaxY c = getUint16 cap 3 false
      /\ tabletMaxPressure c = getUint16 cap 5 false
      /\ width c = getUint16 cap 7 false
      /\ height c = getUint16 cap 9 false
      /\ maxReportRate c = getUint8 cap 11
      /\ scaleFactorX c
         = Some (div (of_Z (nullZ (tabletMaxX c))) (of_Z (nullZ (width c))))
      /\ scaleFactorY c
         = Some (div (of_Z (nullZ (tabletMaxY c))) (of_Z (nullZ (height c))))
      /\ penWidth c = getUint8 pen 4
      /\ brightness c = getUint8 br 1
      /\ inkMode c = (fun b => b =? 1) <$> getUint8 ink 1
      /\ writingMode c = getUint8 wm 1)
  /\ step w (Call connect) = returned (Bool true) w.
Proof.
  intros Hc Hpad Ho Hcap Hinfo Hbg Hpen Hbr Hink Hwm Hwa w c.
  assert (Hmain :
            (last (trace w) = Some (Return 0 (Bool true))
             /\ pool w = []
             /\ isConnected (this w) = true
             /\ negotiated c)
            /\ (tabletMaxX c = getUint16 cap 1 false
                /\ tabletMaxY c = getUint16 cap 3 false
                /\ tabletMaxPressure c = getUint16 cap 5 false
                /\ width c = getUint16 cap 7 false
                /\ height c = getUint16 cap 9 false
                /\ maxReportRate c = getUint8 cap 11
                /\ scaleFactorX c
                   = Some (div (of_Z (nullZ (tabletMaxX c))) (of_Z (nullZ (width c))))
                /\ scaleFactorY c
                   = Some (div (of_Z (nullZ (tabletMaxY c))) (of_Z (nullZ (height c))))
                /\ penWidth c = getUint8 pen 4
                /\ brightness c = getUint8 br 1
                /\ inkMode c = (fun b => b =? 1) <$> getUint8 ink 1
                /\ writingMode c = getUint8 wm 1)).
  { unfold c, w. cbn [app map].
    rewrite (run_two (start d) (Call connect)
               (Complete 0 (Fulfilled (Devices (map Some [x]))))).
    rewrite (connect_after_devices d [x] Hc).
    unfold pads. cbn [List.filter]. rewrite Hpad. cbn [last].
    destruct x as [v p o]. cbn [opened] in Ho. subst o.
    bytes_of cap Hcap. bytes_of info Hinfo. bytes_of bg Hbg. bytes_of pen Hpen.
    bytes_of br Hbr. bytes_of ink Hink. bytes_of wm Hwm. bytes_of wa Hwa.
    lazy -[of_Z div fromCharCodes untilNul Z.mul Z.add Z.eqb].
    repeat first [split | reflexivity | (eexists; reflexivity)]. }
  destruct Hmain as (H1 & H2). split; [exact H1|]. split; [exact H2|].
  destruct H1 as (_ & _ & H3 & _).
  exact (connect_connected w H3).
Qed.

Lemma connect_completes_witness :
  let w := run (start new_driver)
             ([Call connect; Complete 0 (Fulfilled (Devices [Some Examples.pad]));
               Complete 0 (Fulfilled Undefined)]
              ++ map (fun dv => Complete 0 (Fulfilled (DataView dv)))
                   [Examples.capability_report; Examples.information_report;
                    Examples.eSerial_report; Examples.backgroundColor_report;
                    Examples.penColorAndWidth_report; Examples.brightness_report;
                    Examples.inkMode_report; Examples.writingMode_report;
                    Examples.writingArea_report]) in
  last (trace w) = Some (Return 0 (Bool true))
  /\ width (cfg (this w)) = Some 800
  /\ inkMode (cfg (this w)) = Some true.
Proof.
  cbv zeta.
  destruct (connect_completes new_driver Examples.pad
              Examples.capability_report Examples.information_report
              Examples.eSerial_report Examples.backgroundColor_report
              Examples.penColorAndWidth_report Examples.brightness_report
              Examples.inkMode_report Examples.writingMode_report
              Examples.writingArea_report
              eq_refl eq_refl eq_refl (le_n 12) (le_n 12) (le_n 4) (le_n 5)
              (le_n 2) (le_n 2) (le_n 2) (le_n 9))
    as ((H1 & _) & (_ & _ & _ & Hw & _ & _ & _ & _ & _ & _ & Hi & _) & _).
  split; [exact H1|]. split; [exact Hw|exact Hi].
Defined.

End Profile.
